(** * words_tutor: a shallow embedding of [main.py]

    The program drills English words: it keeps a list of record dicts
    ([WordsTutor.vocabulary]) next to the pandas frame they were read
    from ([WordsTutor.vocabulary_frame]), asks for translations at
    random, grades the answers and writes the frame back to the file.

    Python values are embedded as they occur in the program: strings as
    lists of Unicode code points, dicts as finite maps, lists with
    lookup by position, exceptions as an explicit result type threaded
    through a small state monad over the world of the program (the
    tutor object, standard input, standard output, the file on disk).

    What the program takes from outside is given to the model as
    arguments: the day [date.today()] returns, the draws of [randint],
    one per iteration of the loop, and for each call of [to_csv]
    whether the file is locked.  The loops of the program are
    [Fixpoint]s on those finite schedules; a schedule that runs out
    while the program is still looping gives the result [Starved]. *)

From Stdlib Require Import ZArith NArith List String Ascii Lia Bool.
From stdpp Require Import gmap list fin_maps.

Local Open Scope Z_scope.

(** ** Strings *)

(** A Python [str] is a sequence of code points. *)
Abbreviation str := (list N).

(** An ASCII literal as a Python string. *)
Definition lit (s : string) : str := map N_of_ascii (list_ascii_of_string s).

(** [str.isspace] for one code point (the Unicode White_Space code
    points plus the separators U+001C to U+001F, as CPython has it). *)
Definition isspace (c : N) : bool :=
  ((9 <=? c) && (c <=? 13) || (28 <=? c) && (c <=? 32)
   || (c =? 133) || (c =? 160) || (c =? 5760)
   || (8192 <=? c) && (c <=? 8202)
   || (c =? 8232) || (c =? 8233) || (c =? 8239) || (c =? 8287)
   || (c =? 12288))%N.

Fixpoint str_lstrip (s : str) : str :=
  match s with
  | [] => []
  | c :: r => if isspace c then str_lstrip r else s
  end.

Fixpoint str_rstrip (s : str) : str :=
  match s with
  | [] => []
  | c :: r =>
      match str_rstrip r with
      | [] => if isspace c then [] else [c]
      | r' => c :: r'
      end
  end.

(** [s.strip()] *)
Definition str_strip (s : str) : str := str_rstrip (str_lstrip s).

(** *** The Unicode tables of CPython

    [str.lower] and [int] consult the Unicode character database that
    is compiled into the interpreter.  The tables below are those of
    Unicode 14.0.0, the version of CPython 3.11; each is sorted by code
    point. *)

(** Membership in a sorted list of closed intervals. *)
Fixpoint in_ranges (t : list (N * N)) (c : N) : bool :=
  match t with
  | [] => false
  | (lo, hi) :: r =>
      if (c <? lo)%N then false
      else if (c <=? hi)%N then true
      else in_ranges r c
  end.

(** The simple lower-case mappings, as runs [(first, last, step, to)]:
    the code points [first], [first + step], ..., [last] map to [to],
    [to + step], ... *)
Definition lower_table : list (N * N * N * N) :=
  [ (65, 90, 1, 97); (192, 214, 1, 224); (216, 222, 1, 248);
    (256, 302, 2, 257); (306, 310, 2, 307); (313, 327, 2, 314);
    (330, 374, 2, 331); (376, 376, 1, 255); (377, 381, 2, 378);
    (385, 385, 1, 595); (386, 388, 2, 387); (390, 390, 1, 596);
    (391, 391, 1, 392); (393, 394, 1, 598); (395, 395, 1, 396);
    (398, 398, 1, 477); (399, 399, 1, 601); (400, 400, 1, 603);
    (401, 401, 1, 402); (403, 403, 1, 608); (404, 404, 1, 611);
    (406, 406, 1, 617); (407, 407, 1, 616); (408, 408, 1, 409);
    (412, 412, 1, 623); (413, 413, 1, 626); (415, 415, 1, 629);
    (416, 420, 2, 417); (422, 422, 1, 640); (423, 423, 1, 424);
    (425, 425, 1, 643); (428, 428, 1, 429); (430, 430, 1, 648);
    (431, 431, 1, 432); (433, 434, 1, 650); (435, 437, 2, 436);
    (439, 439, 1, 658); (440, 440, 1, 441); (444, 444, 1, 445);
    (452, 452, 1, 454); (453, 453, 1, 454); (455, 455, 1, 457);
    (456, 456, 1, 457); (458, 458, 1, 460); (459, 475, 2, 460);
    (478, 494, 2, 479); (497, 497, 1, 499); (498, 500, 2, 499);
    (502, 502, 1, 405); (503, 503, 1, 447); (504, 542, 2, 505);
    (544, 544, 1, 414); (546, 562, 2, 547); (570, 570, 1, 11365);
    (571, 571, 1, 572); (573, 573, 1, 410); (574, 574, 1, 11366);
    (577, 577, 1, 578); (579, 579, 1, 384); (580, 580, 1, 649);
    (581, 581, 1, 652); (582, 590, 2, 583); (880, 882, 2, 881);
    (886, 886, 1, 887); (895, 895, 1, 1011); (902, 902, 1, 940);
    (904, 906, 1, 941); (908, 908, 1, 972); (910, 911, 1, 973);
    (913, 929, 1, 945); (931, 939, 1, 963); (975, 975, 1, 983);
    (984, 1006, 2, 985); (1012, 1012, 1, 952); (1015, 1015, 1, 1016);
    (1017, 1017, 1, 1010); (1018, 1018, 1, 1019); (1021, 1023, 1, 891);
    (1024, 1039, 1, 1104); (1040, 1071, 1, 1072); (1120, 1152, 2, 1121);
    (1162, 1214, 2, 1163); (1216, 1216, 1, 1231); (1217, 1229, 2, 1218);
    (1232, 1326, 2, 1233); (1329, 1366, 1, 1377); (4256, 4293, 1, 11520);
    (4295, 4295, 1, 11559); (4301, 4301, 1, 11565); (5024, 5103, 1, 43888);
    (5104, 5109, 1, 5112); (7312, 7354, 1, 4304); (7357, 7359, 1, 4349);
    (7680, 7828, 2, 7681); (7838, 7838, 1, 223); (7840, 7934, 2, 7841);
    (7944, 7951, 1, 7936); (7960, 7965, 1, 7952); (7976, 7983, 1, 7968);
    (7992, 7999, 1, 7984); (8008, 8013, 1, 8000); (8025, 8031, 2, 8017);
    (8040, 8047, 1, 8032); (8072, 8079, 1, 8064); (8088, 8095, 1, 8080);
    (8104, 8111, 1, 8096); (8120, 8121, 1, 8112); (8122, 8123, 1, 8048);
    (8124, 8124, 1, 8115); (8136, 8139, 1, 8050); (8140, 8140, 1, 8131);
    (8152, 8153, 1, 8144); (8154, 8155, 1, 8054); (8168, 8169, 1, 8160);
    (8170, 8171, 1, 8058); (8172, 8172, 1, 8165); (8184, 8185, 1, 8056);
    (8186, 8187, 1, 8060); (8188, 8188, 1, 8179); (8486, 8486, 1, 969);
    (8490, 8490, 1, 107); (8491, 8491, 1, 229); (8498, 8498, 1, 8526);
    (8544, 8559, 1, 8560); (8579, 8579, 1, 8580); (9398, 9423, 1, 9424);
    (11264, 11311, 1, 11312); (11360, 11360, 1, 11361);
    (11362, 11362, 1, 619); (11363, 11363, 1, 7549); (11364, 11364, 1, 637);
    (11367, 11371, 2, 11368); (11373, 11373, 1, 593);
    (11374, 11374, 1, 625); (11375, 11375, 1, 592); (11376, 11376, 1, 594);
    (11378, 11378, 1, 11379); (11381, 11381, 1, 11382);
    (11390, 11391, 1, 575); (11392, 11490, 2, 11393);
    (11499, 11501, 2, 11500); (11506, 11506, 1, 11507);
    (42560, 42604, 2, 42561); (42624, 42650, 2, 42625);
    (42786, 42798, 2, 42787); (42802, 42862, 2, 42803);
    (42873, 42875, 2, 42874); (42877, 42877, 1, 7545);
    (42878, 42886, 2, 42879); (42891, 42891, 1, 42892);
    (42893, 42893, 1, 613); (42896, 42898, 2, 42897);
    (42902, 42920, 2, 42903); (42922, 42922, 1, 614);
    (42923, 42923, 1, 604); (42924, 42924, 1, 609); (42925, 42925, 1, 620);
    (42926, 42926, 1, 618); (42928, 42928, 1, 670); (42929, 42929, 1, 647);
    (42930, 42930, 1, 669); (42931, 42931, 1, 43859);
    (42932, 42946, 2, 42933); (42948, 42948, 1, 42900);
    (42949, 42949, 1, 642); (42950, 42950, 1, 7566);
    (42951, 42953, 2, 42952); (42960, 42960, 1, 42961);
    (42966, 42968, 2, 42967); (42997, 42997, 1, 42998);
    (65313, 65338, 1, 65345); (66560, 66599, 1, 66600);
    (66736, 66771, 1, 66776); (66928, 66938, 1, 66967);
    (66940, 66954, 1, 66979); (66956, 66962, 1, 66995);
    (66964, 66965, 1, 67003); (68736, 68786, 1, 68800);
    (71840, 71871, 1, 71872); (93760, 93791, 1, 93792);
    (125184, 125217, 1, 125218) ]%N.

Fixpoint lookup_run (t : list (N * N * N * N)) (c : N) : option N :=
  match t with
  | [] => None
  | (lo, hi, step, to) :: r =>
      if (c <? lo)%N then None
      else if ((c <=? hi) && ((c - lo) mod step =? 0))%N
           then Some (to + (c - lo))%N
      else lookup_run r c
  end.

(** The code points with the property Cased. *)
Definition Cased_table : list (N * N) :=
  [ (65, 90); (97, 122); (170, 170); (181, 181); (186, 186); (192, 214);
    (216, 246); (248, 442); (444, 447); (452, 659); (661, 696); (704, 705);
    (736, 740); (837, 837); (880, 883); (886, 887); (890, 893); (895, 895);
    (902, 902); (904, 906); (908, 908); (910, 929); (931, 1013);
    (1015, 1153); (1162, 1327); (1329, 1366); (1376, 1416); (4256, 4293);
    (4295, 4295); (4301, 4301); (4304, 4346); (4349, 4351); (5024, 5109);
    (5112, 5117); (7296, 7304); (7312, 7354); (7357, 7359); (7424, 7615);
    (7680, 7957); (7960, 7965); (7968, 8005); (8008, 8013); (8016, 8023);
    (8025, 8025); (8027, 8027); (8029, 8029); (8031, 8061); (8064, 8116);
    (8118, 8124); (8126, 8126); (8130, 8132); (8134, 8140); (8144, 8147);
    (8150, 8155); (8160, 8172); (8178, 8180); (8182, 8188); (8305, 8305);
    (8319, 8319); (8336, 8348); (8450, 8450); (8455, 8455); (8458, 8467);
    (8469, 8469); (8473, 8477); (8484, 8484); (8486, 8486); (8488, 8488);
    (8490, 8493); (8495, 8500); (8505, 8505); (8508, 8511); (8517, 8521);
    (8526, 8526); (8544, 8575); (8579, 8580); (9398, 9449); (11264, 11492);
    (11499, 11502); (11506, 11507); (11520, 11557); (11559, 11559);
    (11565, 11565); (42560, 42605); (42624, 42653); (42786, 42887);
    (42891, 42894); (42896, 42954); (42960, 42961); (42963, 42963);
    (42965, 42969); (42997, 42998); (43000, 43002); (43824, 43866);
    (43868, 43880); (43888, 43967); (64256, 64262); (64275, 64279);
    (65313, 65338); (65345, 65370); (66560, 66639); (66736, 66771);
    (66776, 66811); (66928, 66938); (66940, 66954); (66956, 66962);
    (66964, 66965); (66967, 66977); (66979, 66993); (66995, 67001);
    (67003, 67004); (67456, 67456); (67459, 67461); (67463, 67504);
    (67506, 67514); (68736, 68786); (68800, 68850); (71840, 71903);
    (93760, 93823); (119808, 119892); (119894, 119964); (119966, 119967);
    (119970, 119970); (119973, 119974); (119977, 119980); (119982, 119993);
    (119995, 119995); (119997, 120003); (120005, 120069); (120071, 120074);
    (120077, 120084); (120086, 120092); (120094, 120121); (120123, 120126);
    (120128, 120132); (120134, 120134); (120138, 120144); (120146, 120485);
    (120488, 120512); (120514, 120538); (120540, 120570); (120572, 120596);
    (120598, 120628); (120630, 120654); (120656, 120686); (120688, 120712);
    (120714, 120744); (120746, 120770); (120772, 120779); (122624, 122633);
    (122635, 122654); (125184, 125251); (127280, 127305); (127312, 127337);
    (127344, 127369) ]%N.

(** The code points with the property Case_Ignorable. *)
Definition Case_Ignorable_table : list (N * N) :=
  [ (39, 39); (46, 46); (58, 58); (94, 94); (96, 96); (168, 168);
    (173, 173); (175, 175); (180, 180); (183, 184); (688, 879); (884, 885);
    (890, 890); (900, 901); (903, 903); (1155, 1161); (1369, 1369);
    (1375, 1375); (1425, 1469); (1471, 1471); (1473, 1474); (1476, 1477);
    (1479, 1479); (1524, 1524); (1536, 1541); (1552, 1562); (1564, 1564);
    (1600, 1600); (1611, 1631); (1648, 1648); (1750, 1757); (1759, 1768);
    (1770, 1773); (1807, 1807); (1809, 1809); (1840, 1866); (1958, 1968);
    (2027, 2037); (2042, 2042); (2045, 2045); (2070, 2093); (2137, 2139);
    (2184, 2184); (2192, 2193); (2200, 2207); (2249, 2306); (2362, 2362);
    (2364, 2364); (2369, 2376); (2381, 2381); (2385, 2391); (2402, 2403);
    (2417, 2417); (2433, 2433); (2492, 2492); (2497, 2500); (2509, 2509);
    (2530, 2531); (2558, 2558); (2561, 2562); (2620, 2620); (2625, 2626);
    (2631, 2632); (2635, 2637); (2641, 2641); (2672, 2673); (2677, 2677);
    (2689, 2690); (2748, 2748); (2753, 2757); (2759, 2760); (2765, 2765);
    (2786, 2787); (2810, 2815); (2817, 2817); (2876, 2876); (2879, 2879);
    (2881, 2884); (2893, 2893); (2901, 2902); (2914, 2915); (2946, 2946);
    (3008, 3008); (3021, 3021); (3072, 3072); (3076, 3076); (3132, 3132);
    (3134, 3136); (3142, 3144); (3146, 3149); (3157, 3158); (3170, 3171);
    (3201, 3201); (3260, 3260); (3263, 3263); (3270, 3270); (3276, 3277);
    (3298, 3299); (3328, 3329); (3387, 3388); (3393, 3396); (3405, 3405);
    (3426, 3427); (3457, 3457); (3530, 3530); (3538, 3540); (3542, 3542);
    (3633, 3633); (3636, 3642); (3654, 3662); (3761, 3761); (3764, 3772);
    (3782, 3782); (3784, 3789); (3864, 3865); (3893, 3893); (3895, 3895);
    (3897, 3897); (3953, 3966); (3968, 3972); (3974, 3975); (3981, 3991);
    (3993, 4028); (4038, 4038); (4141, 4144); (4146, 4151); (4153, 4154);
    (4157, 4158); (4184, 4185); (4190, 4192); (4209, 4212); (4226, 4226);
    (4229, 4230); (4237, 4237); (4253, 4253); (4348, 4348); (4957, 4959);
    (5906, 5908); (5938, 5939); (5970, 5971); (6002, 6003); (6068, 6069);
    (6071, 6077); (6086, 6086); (6089, 6099); (6103, 6103); (6109, 6109);
    (6155, 6159); (6211, 6211); (6277, 6278); (6313, 6313); (6432, 6434);
    (6439, 6440); (6450, 6450); (6457, 6459); (6679, 6680); (6683, 6683);
    (6742, 6742); (6744, 6750); (6752, 6752); (6754, 6754); (6757, 6764);
    (6771, 6780); (6783, 6783); (6823, 6823); (6832, 6862); (6912, 6915);
    (6964, 6964); (6966, 6970); (6972, 6972); (6978, 6978); (7019, 7027);
    (7040, 7041); (7074, 7077); (7080, 7081); (7083, 7085); (7142, 7142);
    (7144, 7145); (7149, 7149); (7151, 7153); (7212, 7219); (7222, 7223);
    (7288, 7293); (7376, 7378); (7380, 7392); (7394, 7400); (7405, 7405);
    (7412, 7412); (7416, 7417); (7468, 7530); (7544, 7544); (7579, 7679);
    (8125, 8125); (8127, 8129); (8141, 8143); (8157, 8159); (8173, 8175);
    (8189, 8190); (8203, 8207); (8216, 8217); (8228, 8228); (8231, 8231);
    (8234, 8238); (8288, 8292); (8294, 8303); (8305, 8305); (8319, 8319);
    (8336, 8348); (8400, 8432); (11388, 11389); (11503, 11505);
    (11631, 11631); (11647, 11647); (11744, 11775); (11823, 11823);
    (12293, 12293); (12330, 12333); (12337, 12341); (12347, 12347);
    (12441, 12446); (12540, 12542); (40981, 40981); (42232, 42237);
    (42508, 42508); (42607, 42610); (42612, 42621); (42623, 42623);
    (42652, 42655); (42736, 42737); (42752, 42785); (42864, 42864);
    (42888, 42890); (42994, 42996); (43000, 43001); (43010, 43010);
    (43014, 43014); (43019, 43019); (43045, 43046); (43052, 43052);
    (43204, 43205); (43232, 43249); (43263, 43263); (43302, 43309);
    (43335, 43345); (43392, 43394); (43443, 43443); (43446, 43449);
    (43452, 43453); (43471, 43471); (43493, 43494); (43561, 43566);
    (43569, 43570); (43573, 43574); (43587, 43587); (43596, 43596);
    (43632, 43632); (43644, 43644); (43696, 43696); (43698, 43700);
    (43703, 43704); (43710, 43711); (43713, 43713); (43741, 43741);
    (43756, 43757); (43763, 43764); (43766, 43766); (43867, 43871);
    (43881, 43883); (44005, 44005); (44008, 44008); (44013, 44013);
    (64286, 64286); (64434, 64450); (65024, 65039); (65043, 65043);
    (65056, 65071); (65106, 65106); (65109, 65109); (65279, 65279);
    (65287, 65287); (65294, 65294); (65306, 65306); (65342, 65342);
    (65344, 65344); (65392, 65392); (65438, 65439); (65507, 65507);
    (65529, 65531); (66045, 66045); (66272, 66272); (66422, 66426);
    (67456, 67461); (67463, 67504); (67506, 67514); (68097, 68099);
    (68101, 68102); (68108, 68111); (68152, 68154); (68159, 68159);
    (68325, 68326); (68900, 68903); (69291, 69292); (69446, 69456);
    (69506, 69509); (69633, 69633); (69688, 69702); (69744, 69744);
    (69747, 69748); (69759, 69761); (69811, 69814); (69817, 69818);
    (69821, 69821); (69826, 69826); (69837, 69837); (69888, 69890);
    (69927, 69931); (69933, 69940); (70003, 70003); (70016, 70017);
    (70070, 70078); (70089, 70092); (70095, 70095); (70191, 70193);
    (70196, 70196); (70198, 70199); (70206, 70206); (70367, 70367);
    (70371, 70378); (70400, 70401); (70459, 70460); (70464, 70464);
    (70502, 70508); (70512, 70516); (70712, 70719); (70722, 70724);
    (70726, 70726); (70750, 70750); (70835, 70840); (70842, 70842);
    (70847, 70848); (70850, 70851); (71090, 71093); (71100, 71101);
    (71103, 71104); (71132, 71133); (71219, 71226); (71229, 71229);
    (71231, 71232); (71339, 71339); (71341, 71341); (71344, 71349);
    (71351, 71351); (71453, 71455); (71458, 71461); (71463, 71467);
    (71727, 71735); (71737, 71738); (71995, 71996); (71998, 71998);
    (72003, 72003); (72148, 72151); (72154, 72155); (72160, 72160);
    (72193, 72202); (72243, 72248); (72251, 72254); (72263, 72263);
    (72273, 72278); (72281, 72283); (72330, 72342); (72344, 72345);
    (72752, 72758); (72760, 72765); (72767, 72767); (72850, 72871);
    (72874, 72880); (72882, 72883); (72885, 72886); (73009, 73014);
    (73018, 73018); (73020, 73021); (73023, 73029); (73031, 73031);
    (73104, 73105); (73109, 73109); (73111, 73111); (73459, 73460);
    (78896, 78904); (92912, 92916); (92976, 92982); (92992, 92995);
    (94031, 94031); (94095, 94111); (94176, 94177); (94179, 94180);
    (110576, 110579); (110581, 110587); (110589, 110590); (113821, 113822);
    (113824, 113827); (118528, 118573); (118576, 118598); (119143, 119145);
    (119155, 119170); (119173, 119179); (119210, 119213); (119362, 119364);
    (121344, 121398); (121403, 121452); (121461, 121461); (121476, 121476);
    (121499, 121503); (121505, 121519); (122880, 122886); (122888, 122904);
    (122907, 122913); (122915, 122916); (122918, 122922); (123184, 123197);
    (123566, 123566); (123628, 123631); (125136, 125142); (125252, 125259);
    (127995, 127999); (917505, 917505); (917536, 917631); (917760, 917999) ]%N.

(** The decimal digits: every interval is a whole number of runs of the
    digits 0 to 9. *)
Definition Decimal_table : list (N * N) :=
  [ (48, 57); (1632, 1641); (1776, 1785); (1984, 1993); (2406, 2415);
    (2534, 2543); (2662, 2671); (2790, 2799); (2918, 2927); (3046, 3055);
    (3174, 3183); (3302, 3311); (3430, 3439); (3558, 3567); (3664, 3673);
    (3792, 3801); (3872, 3881); (4160, 4169); (4240, 4249); (6112, 6121);
    (6160, 6169); (6470, 6479); (6608, 6617); (6784, 6793); (6800, 6809);
    (6992, 7001); (7088, 7097); (7232, 7241); (7248, 7257); (42528, 42537);
    (43216, 43225); (43264, 43273); (43472, 43481); (43504, 43513);
    (43600, 43609); (44016, 44025); (65296, 65305); (66720, 66729);
    (68912, 68921); (69734, 69743); (69872, 69881); (69942, 69951);
    (70096, 70105); (70384, 70393); (70736, 70745); (70864, 70873);
    (71248, 71257); (71360, 71369); (71472, 71481); (71904, 71913);
    (72016, 72025); (72784, 72793); (73040, 73049); (73120, 73129);
    (92768, 92777); (92864, 92873); (93008, 93017); (120782, 120831);
    (123200, 123209); (123632, 123641); (125264, 125273); (130032, 130041) ]%N.

(** *** [str.lower] *)

(** [_PyUnicode_ToLowerFull]: the lower-case form of one code point,
    which for U+0130 is two code points. *)
Definition ToLowerFull (c : N) : str :=
  if (c =? 304)%N then [105; 775]%N
  else match lookup_run lower_table c with
       | Some d => [d]
       | None => [c]
       end.

Definition IsCased (c : N) : bool := in_ranges Cased_table c.

Definition IsCaseIgnorable (c : N) : bool := in_ranges Case_Ignorable_table c.

(** The first code point of [s] that is not case-ignorable. *)
Fixpoint first_not_ignorable (s : str) : option N :=
  match s with
  | [] => None
  | c :: r => if IsCaseIgnorable c then first_not_ignorable r else Some c
  end.

(** [handle_capital_sigma]: a capital sigma after a cased letter and
    not before one becomes the final sigma U+03C2, any other the sigma
    U+03C3; case-ignorable code points in between are skipped.
    [before] is the text before the sigma, nearest code point first,
    [after] the text after it. *)
Definition handle_capital_sigma (before after : str) : N :=
  let final_sigma :=
    match first_not_ignorable before with
    | Some c => IsCased c
    | None => false
    end in
  let final_sigma :=
    if final_sigma then
      match first_not_ignorable after with
      | Some c => negb (IsCased c)
      | None => true
      end
    else false in
  (if final_sigma then 962 else 963)%N.

Definition lower_ucs4 (before : str) (c : N) (after : str) : str :=
  if (c =? 931)%N then [handle_capital_sigma before after]
  else ToLowerFull c.

(** [do_lower]: the code points are lowered from left to right, each
    one in the context of the whole string. *)
Fixpoint do_lower (before : str) (s : str) : str :=
  match s with
  | [] => []
  | c :: r => lower_ucs4 before c r ++ do_lower (c :: before) r
  end.

(** [s.lower()] *)
Definition str_lower (s : str) : str := do_lower [] s.

(** CYRILLIC SMALL LETTER IO, SMALL LETTER IE and CAPITAL LETTER IO. *)
Definition yo : N := 1105%N.
Definition ye : N := 1077%N.
Definition YO : N := 1025%N.

(** [s.replace(old, new)] for one-code-point [old] and [new], which is
    how [process_answer] calls it. *)
Definition str_replace (old new : N) (s : str) : str :=
  map (fun c => if (c =? old)%N then new else c) s.

(** What the replacement does to one code point. *)
Definition fold_yo (c : N) : N := if (c =? yo)%N then ye else c.

(** [process_answer] (main.py, line 31):
    [answer.strip().lower().replace('ё', 'е')] *)
Definition process_answer (answer : str) : str :=
  str_replace yo ye (str_lower (str_strip answer)).

(** ** Python values, exceptions and results *)

(** The values a cell of the vocabulary can hold: [None] (a key that
    [dict.get] does not find), the float [nan] pandas reads from a
    blank cell, an integer, a string. *)
Inductive value :=
  | VNone
  | VNaN
  | VInt (z : Z)
  | VStr (s : str).

#[global] Instance value_eq_dec : EqDecision value.
Proof. solve_decision. Defined.

Inductive exn :=
  | IndexError
  | KeyError
  | TypeError
  | ValueError
  | AttributeError
  | OverflowError
  | EOFError
  | PermissionError.

#[global] Instance exn_eq_dec : EqDecision exn.
Proof. solve_decision. Defined.

(** The outcome of a computation: a value, a raised exception, or
    [Starved] when the finite schedule of random draws or of lock
    states given to the model is used up while the program is still
    looping. *)
Inductive result (A : Type) :=
  | Ok (a : A)
  | Raise (e : exn)
  | Starved.
Arguments Ok {A} a.
Arguments Raise {A} e.
Arguments Starved {A}.

Definition rbind {A B} (r : result A) (k : A -> result B) : result B :=
  match r with
  | Ok a => k a
  | Raise e => Raise e
  | Starved => Starved
  end.

Notation "'let?' x ':=' r 'in' k" := (rbind r (fun x => k))
  (at level 10, x pattern, r at level 100, k at level 200).

(** [l[i]] on a Python list, for the non-negative positions the callers
    pass. *)
Definition list_get {A} (l : list A) (i : nat) : result A :=
  match l !! i with
  | Some a => Ok a
  | None => Raise IndexError
  end.

(** [bool(v)] *)
Definition truthy (v : value) : bool :=
  match v with
  | VNone => false
  | VNaN => true
  | VInt z => negb (z =? 0)
  | VStr [] => false
  | VStr (_ :: _) => true
  end.

(** [v < n] and [v >= n] for an integer [n]. *)
Definition py_lt (v : value) (n : Z) : result bool :=
  match v with
  | VInt z => Ok (z <? n)
  | VNaN => Ok false
  | VNone | VStr _ => Raise TypeError
  end.

Definition py_ge (v : value) (n : Z) : result bool :=
  match v with
  | VInt z => Ok (n <=? z)
  | VNaN => Ok false
  | VNone | VStr _ => Raise TypeError
  end.

(** [v + k] for an integer [k] (so [v += k] and [v -= -k]). *)
Definition py_add (v : value) (k : Z) : result value :=
  match v with
  | VInt z => Ok (VInt (z + k))
  | VNaN => Ok VNaN
  | VNone | VStr _ => Raise TypeError
  end.

(** [s.split(sep)] for a one-code-point separator. *)
Fixpoint str_split (sep : N) (s : str) : list str :=
  match s with
  | [] => [[]]
  | c :: r =>
      if (c =? sep)%N then [] :: str_split sep r
      else match str_split sep r with
           | [] => [[c]]
           | w :: ws => (c :: w) :: ws
           end
  end.

(** [v.split(sep)]: only strings have the method. *)
Definition py_split (v : value) (sep : N) : result (list str) :=
  match v with
  | VStr s => Ok (str_split sep s)
  | _ => Raise AttributeError
  end.

(** [Py_UNICODE_TODECIMAL] over a table of decimal digits. *)
Fixpoint decimal_in (t : list (N * N)) (c : N) : option Z :=
  match t with
  | [] => None
  | (lo, hi) :: r =>
      if (c <? lo)%N then None
      else if (c <=? hi)%N then Some (Z.of_N ((c - lo) mod 10))
      else decimal_in r c
  end.

Definition digit_of (c : N) : option Z := decimal_in Decimal_table c.

(** The digits of an integer literal, with single underscores allowed
    between digits; [after_digit] tells whether the previous code point
    was a digit. *)
Fixpoint digits_value (acc : Z) (after_digit : bool) (s : str) : option Z :=
  match s with
  | [] => if after_digit then Some acc else None
  | c :: r =>
      if (c =? 95)%N then
        if after_digit then digits_value acc false r else None
      else
        match digit_of c with
        | Some d => digits_value (10 * acc + d) true r
        | None => None
        end
  end.

(** The white space [int] skips around the literal: the ASCII white
    space of C and the Unicode white space from U+007F on, which is
    turned into a blank first; the separators U+001C to U+001F are not
    skipped. *)
Definition int_space (c : N) : bool :=
  ((9 <=? c) && (c <=? 13) || (c =? 32) || (127 <=? c) && isspace c)%N.

Fixpoint int_lstrip (s : str) : str :=
  match s with
  | [] => []
  | c :: r => if int_space c then int_lstrip r else s
  end.

Fixpoint int_rstrip (s : str) : str :=
  match s with
  | [] => []
  | c :: r =>
      match int_rstrip r with
      | [] => if int_space c then [] else [c]
      | r' => c :: r'
      end
  end.

(** [sys.get_int_max_str_digits()], which the program leaves at its
    default. *)
Definition int_max_str_digits : nat := 4300.

(** [int(s)] for a string: surrounding white space, an optional sign,
    decimal digits of any script; a literal of more digits than the
    limit is refused. *)
Definition py_int (s : str) : result Z :=
  let literal := int_rstrip (int_lstrip s) in
  let (negative, digits) :=
    match literal with
    | 43%N :: r => (false, r)
    | 45%N :: r => (true, r)
    | t => (false, t)
    end in
  match digits_value 0 false digits with
  | Some z =>
      if (int_max_str_digits
          <? length (filter (fun c => negb (c =? 95)%N) digits))%nat
      then Raise ValueError
      else Ok (if negative then - z else z)
  | None => Raise ValueError
  end.

(** ** Calendar dates, as [datetime.date] has them *)

Record date := { year : Z; month : Z; day : Z }.

Definition is_leap (y : Z) : bool :=
  (y mod 4 =? 0) && (negb (y mod 100 =? 0) || (y mod 400 =? 0)).

Definition days_in_month (y m : Z) : Z :=
  if m =? 2 then (if is_leap y then 29 else 28)
  else if (m =? 4) || (m =? 6) || (m =? 9) || (m =? 11) then 30
  else 31.

Definition days_before_year (y : Z) : Z :=
  let p := y - 1 in p * 365 + p / 4 - p / 100 + p / 400.

Fixpoint days_before_month_aux (y : Z) (n : nat) : Z :=
  match n with
  | O => 0
  | S k => days_before_month_aux y k + days_in_month y (Z.of_nat (S k))
  end.

Definition days_before_month (y m : Z) : Z :=
  days_before_month_aux y (Z.to_nat (m - 1)).

Definition toordinal (d : date) : Z :=
  days_before_year (year d) + days_before_month (year d) (month d) + day d.

Definition fits_c_int (z : Z) : bool := (- 2147483648 <=? z) && (z <=? 2147483647).

(** [date(year=y, month=m, day=d)] *)
Definition date_init (y m d : Z) : result date :=
  if negb (fits_c_int y && fits_c_int m && fits_c_int d) then Raise OverflowError
  else if negb ((1 <=? y) && (y <=? 9999)) then Raise ValueError
  else if negb ((1 <=? m) && (m <=? 12)) then Raise ValueError
  else if negb ((1 <=? d) && (d <=? days_in_month y m)) then Raise ValueError
  else Ok {| year := y; month := m; day := d |}.

(** Lines 230 to 234 of [get_item]: the pieces of the split learning
    date are indexed and converted from left to right. *)
Definition date_of_parts (parts : list str) : result date :=
  let? p0 := list_get parts 0 in
  let? y := py_int p0 in
  let? p1 := list_get parts 1 in
  let? m := py_int p1 in
  let? p2 := list_get parts 2 in
  let? d := py_int p2 in
  date_init y m d.

(** [(a - b).days] *)
Definition days_between (a b : date) : Z := toordinal a - toordinal b.

(** ** The vocabulary: record dicts and the pandas frame *)

(** The module [constants] ([con] in main.py) is not among the sources:
    its column names and the comeback threshold are parameters of the
    development. *)
Record constants := {
  WORD : str;
  TRANSCRIPTION : str;
  TRANSLATION : str;
  SUCCESS_NUMBER : str;
  LEARNING_DATE : str;
  COMING_BACK_TIME : Z;
}.

(** Modelled from the spec: the module [constants] is missing; the
    column names are the ones section 6 of the specification lists, and
    the comeback threshold, which the specification leaves open, is 30
    days.  Used for the worked examples only. *)
Definition con_sample : constants :=
  {| WORD := lit "word";
     TRANSCRIPTION := lit "transcription";
     TRANSLATION := lit "translation";
     SUCCESS_NUMBER := lit "success_count";
     LEARNING_DATE := lit "learning_date";
     COMING_BACK_TIME := 30 |}.

(** A record of the vocabulary: a Python dict from column name to cell. *)
Abbreviation dict := (gmap (list N) value).

(** [d.get(k)] *)
Definition dict_get (d : dict) (k : str) : value := default VNone (d !! k).

(** A pandas frame with the default row labels [0 .. n-1]: the column
    labels and one dict of cells per row; a column a row has no cell for
    reads as [nan]. *)
Record DataFrame := {
  columns : list str;
  rows : list dict;
}.

Definition cell (r : dict) (c : str) : value := default VNaN (r !! c).

(** [frame.to_dict(orient='records')] *)
Definition to_dict_records (f : DataFrame) : list dict :=
  map (fun r => list_to_map (map (fun c => (c, cell r c)) (columns f)))
      (rows f).

(** [frame.loc[i, c] = v].  A label the frame does not have makes pandas
    append a row under that label; the model appends the row without
    keeping its label, which only matters for an [i] that is not a
    position of the frame. *)
Definition loc_set (f : DataFrame) (i : option nat) (c : str) (v : value)
  : DataFrame :=
  {| columns :=
       if bool_decide (c ∈ columns f) then columns f else columns f ++ [c];
     rows :=
       match i with
       | Some n =>
           if bool_decide (n < length (rows f))%nat
           then alter (insert c v) n (rows f)
           else rows f ++ [{[ c := v ]}]
       | None => rows f ++ [{[ c := v ]}]
       end |}.

(** [frame[c]]: the cells of a column, [KeyError] without the column. *)
Definition frame_column (f : DataFrame) (c : str) : result (list value) :=
  if bool_decide (c ∈ columns f) then Ok (map (fun r => cell r c) (rows f))
  else Raise KeyError.

(** ** [WTItem] *)

(** The attribute [vocabulary] of an item, a reference to the list it
    was read from, is only used by [__repr__] and is left out. *)
Record WTItem := {
  index : option nat;
  word : value;
  transcription : value;
  translation : value;
  success_number : value;
  learning_date : value;
}.

#[global] Instance WTItem_eq_dec : EqDecision WTItem.
Proof. solve_decision. Defined.

Definition set_success_number (v : value) (it : WTItem) : WTItem :=
  {| index := index it; word := word it; transcription := transcription it;
     translation := translation it; success_number := v;
     learning_date := learning_date it |}.

Definition set_learning_date (v : value) (it : WTItem) : WTItem :=
  {| index := index it; word := word it; transcription := transcription it;
     translation := translation it; success_number := success_number it;
     learning_date := v |}.

(** Lines 79 and 83 to 87: the attributes read from the record [d]. *)
Definition read_item (con : constants) (i : option nat) (d : dict) : WTItem :=
  {| index := i;
     word := dict_get d (WORD con);
     transcription := dict_get d (TRANSCRIPTION con);
     translation := dict_get d (TRANSLATION con);
     success_number := dict_get d (SUCCESS_NUMBER con);
     learning_date := dict_get d (LEARNING_DATE con) |}.

(** [WTItem.__init__] (line 61). *)
Definition WTItem_init (con : constants)
    (vocabulary : option (list dict)) (i : option nat) : result WTItem :=
  let? d :=
    match vocabulary, i with
    | None, None => list_get [ (∅ : dict) ] 0
    | Some v, Some n => list_get v n
    | _, _ => Raise TypeError
    end in
  Ok (read_item con i d).

(** [WTItem()], the empty item. *)
Definition WTItem_empty : WTItem :=
  {| index := None; word := VNone; transcription := VNone;
     translation := VNone; success_number := VNone; learning_date := VNone |}.

(** ** [WordsTutor] and the world it runs in *)

Record WordsTutor := {
  filename : str;
  max_success_number : Z;
  vocabulary_frame : DataFrame;
  vocabulary : list dict;
}.

(** [WordsTutor.__init__] (line 139), given the frame [pd.read_csv]
    returned. *)
Definition WordsTutor_init (name : str) (max : Z) (frame : DataFrame)
  : WordsTutor :=
  {| filename := name; max_success_number := max;
     vocabulary_frame := frame; vocabulary := to_dict_records frame |}.

Definition vocabulary_size (t : WordsTutor) : nat := length (vocabulary t).

(** Assignments to the two attributes the program changes. *)
Definition set_vocabulary (v : list dict) (t : WordsTutor) : WordsTutor :=
  {| filename := filename t; max_success_number := max_success_number t;
     vocabulary_frame := vocabulary_frame t; vocabulary := v |}.

Definition set_vocabulary_frame (f : DataFrame) (t : WordsTutor) : WordsTutor :=
  {| filename := filename t; max_success_number := max_success_number t;
     vocabulary_frame := f; vocabulary := vocabulary t |}.

(** What the program prints, one constructor per [print] or [input]
    prompt of main.py. *)
Inductive event :=
  | PInputTranslation
  | PNotRepeated (w since : value)
  | PStart
  | PWord (w : value)
  | PBonus (w successes : value)
  | PSkipped (w : value)
  | PRight (pronunciation : value)
  | PWrong (right_answers : list str) (pronunciation : value)
  | PSuccesses (successes : value)
  | PError (e : exn)
  | PErrorArgs (e : exn)
  | PLearned (points : nat) (size : nat)
  | PCloseFile (name : str).

#[global] Instance event_eq_dec : EqDecision event.
Proof. solve_decision. Defined.

(** The tutor object, the lines still to be typed, the output so far
    (earliest first) and the successive contents written to the file. *)
Record world := {
  self : WordsTutor;
  stdin : list str;
  stdout : list event;
  disk : list DataFrame;
}.

Definition set_self (t : WordsTutor) (w : world) : world :=
  {| self := t; stdin := stdin w; stdout := stdout w; disk := disk w |}.

Definition set_stdin (lines : list str) (w : world) : world :=
  {| self := self w; stdin := lines; stdout := stdout w; disk := disk w |}.

Definition set_stdout (out : list event) (w : world) : world :=
  {| self := self w; stdin := stdin w; stdout := out; disk := disk w |}.

Definition set_disk (files : list DataFrame) (w : world) : world :=
  {| self := self w; stdin := stdin w; stdout := stdout w; disk := files |}.

Definition M (A : Type) : Type := world -> result A * world.

Definition ret {A} (a : A) : M A := fun w => (Ok a, w).

Definition bind {A B} (m : M A) (k : A -> M B) : M B :=
  fun w =>
    match m w with
    | (Ok a, w') => k a w'
    | (Raise e, w') => (Raise e, w')
    | (Starved, w') => (Starved, w')
    end.

Definition lift {A} (r : result A) : M A := fun w => (r, w).

Notation "'let*' x ':=' m 'in' k" := (bind m (fun x => k))
  (at level 10, x pattern, m at level 100, k at level 200).
Notation "m ';;' k" := (bind m (fun _ => k))
  (at level 100, k at level 200, right associativity).

Definition get_self : M WordsTutor := fun w => (Ok (self w), w).

Definition put_self (t : WordsTutor) : M unit :=
  fun w => (Ok tt, set_self t w).

Definition print (e : event) : M unit :=
  fun w => (Ok tt, set_stdout (stdout w ++ [e]) w).

(** [input(prompt)]: end of input raises [EOFError]. *)
Definition input (prompt : event) : M str :=
  print prompt;;
  fun w =>
    match stdin w with
    | [] => (Raise EOFError, w)
    | line :: rest => (Ok line, set_stdin rest w)
    end.

(** [get_answer] (line 26). *)
Definition get_answer : M str := input PInputTranslation.

(** ** The methods of [WordsTutor] *)

(** [self.vocabulary[i][k] = v] *)
Definition vocabulary_set (i : option nat) (k : str) (v : value) : M unit :=
  let* t := get_self in
  match i with
  | None => lift (Raise TypeError)
  | Some n =>
      let* _ := lift (list_get (vocabulary t) n) in
      put_self (set_vocabulary (alter (insert k v) n (vocabulary t)) t)
  end.

(** [self.vocabulary_frame.loc[i, k] = v] *)
Definition frame_set (i : option nat) (k : str) (v : value) : M unit :=
  let* t := get_self in
  put_self (set_vocabulary_frame (loc_set (vocabulary_frame t) i k v) t).

(** [__update_item_in_vocabulary] (line 181). *)
Definition update_item_in_vocabulary (con : constants) (item : WTItem)
  : M unit :=
  vocabulary_set (index item) (LEARNING_DATE con) (learning_date item);;
  vocabulary_set (index item) (SUCCESS_NUMBER con) (success_number item).

(** [__update_item_in_frame] (line 194). *)
Definition update_item_in_frame (con : constants) (item : WTItem) : M unit :=
  frame_set (index item) (LEARNING_DATE con) (learning_date item);;
  frame_set (index item) (SUCCESS_NUMBER con) (success_number item).

(** [str(v) not in ('', 'None', 'nan')]: [str] of [None] and of [nan]
    are in the tuple, [str] of an integer is a numeral and never is. *)
Definition date_is_set (v : value) : bool :=
  match v with
  | VNone | VNaN => false
  | VInt _ => true
  | VStr s => negb (bool_decide (s ∈ [ []; lit "None"; lit "nan" ]))
  end.

(** Lines 229 to 235: the learning date is split at the dashes, turned
    into a [date], and its distance to [today] ([date.today()]) taken. *)
Definition days_since (today : date) (v : value) : result Z :=
  let? parts := py_split v 45%N in
  let? since := date_of_parts parts in
  Ok (days_between today since).

(** The item as lines 241 and 242 leave it. *)
Definition come_back_item (item : WTItem) : WTItem :=
  set_success_number (VInt 0) (set_learning_date (VStr []) item).

(** Lines 229 to 244, run when the learning date is set: a word that
    was not repeated for more than [COMING_BACK_TIME] days comes back. *)
Definition come_back (con : constants) (today : date) (item : WTItem)
  : M WTItem :=
  let* age := lift (days_since today (learning_date item)) in
  if COMING_BACK_TIME con <? age then
    print (PNotRepeated (word item) (learning_date item));;
    let item := come_back_item item in
    update_item_in_vocabulary con item;;
    update_item_in_frame con item;;
    ret item
  else ret item.

(** [get_item] (line 217). *)
Definition get_item (con : constants) (today : date) (i : nat) : M WTItem :=
  let* t := get_self in
  let* d := lift (list_get (vocabulary t) i) in
  if bool_decide (d ≠ ∅) then
    let* item := lift (WTItem_init con (Some (vocabulary t)) (Some i)) in
    let* item :=
      if date_is_set (learning_date item) then come_back con today item
      else ret item in
    let* t := get_self in
    let* below := lift (py_lt (success_number item) (max_success_number t)) in
    if below then ret item
    else lift (WTItem_init con None None)
  else lift (WTItem_init con None None).

Fixpoint result_list {A} (l : list (result A)) : result (list A) :=
  match l with
  | [] => Ok []
  | r :: rest =>
      let? a := r in
      let? tl := result_list rest in
      Ok (a :: tl)
  end.

(** [print_result] (line 250): the comparison runs over the whole
    column of the frame before anything is printed. *)
Definition print_result (con : constants) : M unit :=
  let* t := get_self in
  let* col := lift (frame_column (vocabulary_frame t) (SUCCESS_NUMBER con)) in
  let* flags :=
    lift (result_list (map (fun v => py_ge v (max_success_number t)) col)) in
  print (PLearned (length (filter (fun b => b = true) flags))
                  (vocabulary_size t)).

(** [frame.to_csv(filename, ...)] while the file is [locked] or not. *)
Definition to_csv (locked : bool) : M unit :=
  fun w =>
    if locked then (Raise PermissionError, w)
    else (Ok tt, set_disk (disk w ++ [vocabulary_frame (self w)]) w).

(** [save_vocabulary] (line 258).  [locks] tells, for each successive
    call of [to_csv], whether the file is locked at that moment. *)
Fixpoint save_vocabulary (locks : list bool) : M unit :=
  match locks with
  | [] => lift Starved
  | locked :: later =>
      fun w =>
        match to_csv locked w with
        | (Raise PermissionError, w') =>
            (let* t := get_self in
             input (PCloseFile (filename t));;
             save_vocabulary later) w'
        | (Ok _, w') =>
            match later with
            | [] => (Starved, w')
            | locked_again :: _ => to_csv locked_again w'
            end
        | other => other
        end
  end.

(** ** The drill loop of [run] *)

(** The local variables of [run] that live across turns; [old_item] is
    [None] after the assignment of line 308. *)
Record locals := {
  old_item : option WTItem;
  is_last_wrong : bool;
}.

(** How a turn ends: the loop goes on with the next draw, or [break]. *)
Inductive signal :=
  | Next (l : locals)
  | Break.

(** [randint(lo, hi)], the draw being [r]. *)
Definition randint (lo hi : Z) (r : nat) : result Z :=
  if hi <? lo then Raise ValueError
  else Ok (lo + Z.of_nat r mod (hi - lo + 1)).

Definition quit_token : str := lit "-1".
Definition bonus_token : str := lit "+".

(** Lines 298 to 314, entered when the answer is ["+"] after a wrong
    turn: credit the previous item, ask again.  The answer is [None]
    when the second prompt was answered with the quit token. *)
Definition bonus_correction (con : constants) (item : WTItem) (l : locals)
  : M (locals * option str) :=
  let* old :=
    match old_item l with
    | Some old => ret old
    | None => lift (Raise AttributeError)
    end in
  let* credited := lift (py_add (success_number old) 2) in
  let old := set_success_number credited old in
  print (PBonus (word old) (success_number old));;
  update_item_in_frame con old;;
  let* t := get_self in
  let* reached := lift (py_ge (success_number old) (max_success_number t)) in
  let* kept :=
    if reached then print (PSkipped (word old));; ret None
    else ret (Some old) in
  let l := {| old_item := kept; is_last_wrong := is_last_wrong l |} in
  print (PWord (word item));;
  let* raw := get_answer in
  let answer := process_answer raw in
  if bool_decide (answer = quit_token) then ret (l, None)
  else ret (l, Some answer).

(** Lines 316 to 335: grade [answer] for [item], drawn at position [i]. *)
Definition grade (con : constants) (today : date) (i : nat) (item : WTItem)
    (right_answers : list str) (answer : str) (l : locals) : M signal :=
  if bool_decide (answer ∈ right_answers) then
    print (PRight (transcription item));;
    let* raised := lift (py_add (success_number item) 1) in
    let item := set_success_number raised item in
    update_item_in_frame con item;;
    let* t := get_self in
    let* reached :=
      lift (py_ge (success_number item) (max_success_number t)) in
    if reached then
      print (PSkipped (word item));;
      ret (Next {| old_item := old_item l; is_last_wrong := false |})
    else
      print (PSuccesses (success_number item));;
      let* old := get_item con today i in
      ret (Next {| old_item := Some old; is_last_wrong := false |})
  else
    print (PWrong right_answers (transcription item));;
    let* lowered := lift (py_add (success_number item) (-1)) in
    let* lowered :=
      if bool_decide (answer = []) then lift (py_add lowered (-1))
      else ret lowered in
    let item := set_success_number lowered item in
    update_item_in_frame con item;;
    print (PSuccesses (success_number item));;
    let* old := get_item con today i in
    ret (Next {| old_item := Some old; is_last_wrong := true |}).

(** Lines 284 to 335, the body of the [try], for the draw [r]; [today]
    is the day on which the turn is played. *)
Definition turn (con : constants) (today : date) (r : nat) (l : locals)
  : M signal :=
  let* t := get_self in
  let* drawn := lift (randint 0 (Z.of_nat (vocabulary_size t) - 1) r) in
  let i := Z.to_nat drawn in
  let* item := get_item con today i in
  if truthy (word item) then
    let* pieces := lift (py_split (translation item) 44%N) in
    let right_answers := map process_answer pieces in
    print (PWord (word item));;
    let* raw := get_answer in
    let answer := process_answer raw in
    if bool_decide (answer = quit_token) then ret Break
    else if bool_decide (answer = bonus_token) && is_last_wrong l then
      let* (l, again) := bonus_correction con item l in
      match again with
      | None => ret Break
      | Some answer => grade con today i item right_answers answer l
      end
    else grade con today i item right_answers answer l
  else ret (Next l).

(** The exceptions the [except] clause of line 336 names. *)
Definition caught (e : exn) : bool :=
  match e with
  | IndexError | KeyError | TypeError | ValueError => true
  | _ => false
  end.

(** One pass through the [try] statement of the loop. *)
Definition guarded_turn (con : constants) (today : date) (r : nat)
    (l : locals) : M signal :=
  fun w =>
    match turn con today r l w with
    | (Raise e, w') =>
        if caught e then (print (PError e);; print (PErrorArgs e);; ret Break) w'
        else (Raise e, w')
    | other => other
    end.

(** The [while True] of line 282, one iteration per scheduled draw. *)
Fixpoint drill (con : constants) (today : date) (draws : list nat)
    (l : locals) : M unit :=
  match draws with
  | [] => lift Starved
  | r :: later =>
      let* s := guarded_turn con today r l in
      match s with
      | Break => ret tt
      | Next l' => drill con today later l'
      end
  end.

(** [run] (line 277). *)
Definition run (con : constants) (today : date) (draws : list nat)
    (locks : list bool) : M unit :=
  let* old := get_item con today 0 in
  print PStart;;
  drill con today draws {| old_item := Some old; is_last_wrong := false |};;
  print_result con;;
  save_vocabulary locks.

(** ** Derived notions used in the statements *)

(** Whether a word with learning date [v] is due to come back: the test
    of lines 228 to 235 as one function. *)
Definition due (con : constants) (today : date) (v : value) : result bool :=
  if date_is_set v then
    let? age := days_since today v in
    Ok (COMING_BACK_TIME con <? age)
  else Ok false.

(** The record of a word after it came back. *)
Definition come_back_record (con : constants) (d : dict) : dict :=
  <[SUCCESS_NUMBER con := VInt 0]> (<[LEARNING_DATE con := VStr []]> d).

(** The world after [item], the word at position [i], came back. *)
Definition come_back_world (con : constants) (i : nat) (item : WTItem)
    (w : world) : world :=
  let t := self w in
  {| self :=
       {| filename := filename t;
          max_success_number := max_success_number t;
          vocabulary_frame :=
            loc_set (loc_set (vocabulary_frame t) (Some i)
                       (LEARNING_DATE con) (VStr []))
              (Some i) (SUCCESS_NUMBER con) (VInt 0);
          vocabulary := alter (come_back_record con) i (vocabulary t) |};
     stdin := stdin w;
     stdout := stdout w ++ [PNotRepeated (word item) (learning_date item)];
     disk := disk w |}.

(** The world after [item] was written to the frame and [out] printed. *)
Definition persisted_world (con : constants) (item : WTItem)
    (out : list event) (w : world) : world :=
  let t := self w in
  {| self :=
       {| filename := filename t;
          max_success_number := max_success_number t;
          vocabulary_frame :=
            loc_set (loc_set (vocabulary_frame t) (index item)
                       (LEARNING_DATE con) (learning_date item))
              (index item) (SUCCESS_NUMBER con) (success_number item);
          vocabulary := vocabulary t |};
     stdin := stdin w;
     stdout := stdout w ++ out;
     disk := disk w |}.

(** A computation that leaves the record dicts and the threshold of the
    tutor as they are, however it ends. *)
Definition keeps_store {A} (m : M A) : Prop :=
  forall w,
    vocabulary (self (m w).2) = vocabulary (self w)
    /\ max_success_number (self (m w).2) = max_success_number (self w).

(** What the correction of lines 297 to 308 relies on. *)
Definition retry_ready (l : locals) : Prop :=
  is_last_wrong l = true ->
  exists old j z,
    old_item l = Some old /\ index old = Some j
    /\ success_number old = VInt z.

(** The states of the loop: the locals and the world at the top of an
    iteration, from the first one on.  The day may change from one turn
    to the next. *)
Inductive at_loop_top (con : constants) : locals -> world -> Prop :=
  | at_first_turn (old : WTItem) (w : world) :
      at_loop_top con {| old_item := Some old; is_last_wrong := false |} w
  | at_next_turn (today : date) (r : nat) (l l' : locals) (w w' : world) :
      at_loop_top con l w ->
      guarded_turn con today r l w = (Ok (Next l'), w') ->
      at_loop_top con l' w'.

(** ** A small vocabulary for the worked examples *)

Definition row_of (con : constants) (w ts tl sn ld : value) : dict :=
  <[WORD con := w]> (<[TRANSCRIPTION con := ts]> (<[TRANSLATION con := tl]>
    (<[SUCCESS_NUMBER con := sn]> (<[LEARNING_DATE con := ld]> ∅)))).

Definition frame_of (con : constants) (rs : list dict) : DataFrame :=
  {| columns := [WORD con; TRANSCRIPTION con; TRANSLATION con;
                 SUCCESS_NUMBER con; LEARNING_DATE con];
     rows := rs |}.

(** A session over the frame [rs] with threshold [max], the operator
    typing [lines]. *)
Definition session (max : Z) (rs : list dict) (lines : list str) : world :=
  {| self := WordsTutor_init (lit "words.csv") max (frame_of con_sample rs);
     stdin := lines; stdout := []; disk := [] |}.

Definition cat (sn ld : value) : dict :=
  row_of con_sample (VStr (lit "cat")) (VStr (lit "kat")) (VStr (lit "kot"))
    sn ld.

Definition dog (sn ld : value) : dict :=
  row_of con_sample (VStr (lit "dog")) (VStr (lit "dog"))
    (VStr (lit "pyos,sobaka")) sn ld.

Definition a_day : date := {| year := 2024; month := 5; day := 17 |}.

(** The count held for position [i] by the frame and by the record
    dicts. *)
Definition frame_count (w : world) (i : nat) : option value :=
  (fun r => cell r (SUCCESS_NUMBER con_sample))
    <$> rows (vocabulary_frame (self w)) !! i.

Definition record_count (w : world) (i : nat) : option value :=
  (fun d => dict_get d (SUCCESS_NUMBER con_sample))
    <$> vocabulary (self w) !! i.

(** The count each written file holds for position [i]. *)
Definition file_counts (w : world) (i : nat) : list (option value) :=
  map (fun f => (fun r => cell r (SUCCESS_NUMBER con_sample)) <$> rows f !! i)
    (disk w).

(** ** Further derived notions *)

(** The record [to_dict] builds from the cells [r] of a row. *)
Definition record_of (cols : list str) (r : dict) : dict :=
  list_to_map (map (fun c => (c, cell r c)) cols).

(** The frame and the record dicts hold the same cells. *)
Definition in_lockstep (t : WordsTutor) : Prop :=
  to_dict_records (vocabulary_frame t) = vocabulary t.

(** A cell [print_result] can compare with the threshold. *)
Definition is_number (v : value) : bool :=
  match v with
  | VInt _ | VNaN => true
  | VNone | VStr _ => false
  end.

(** A count at or above the threshold [max]. *)
Definition learned (max : Z) (v : value) : bool :=
  match v with
  | VInt z => max <=? z
  | _ => false
  end.

(** A record that [get_item] answers with the empty item without
    touching it: not due to come back, and its count (an integer or
    [nan]) not below the threshold [max]. *)
Definition resting (con : constants) (today : date) (max : Z) (d : dict)
  : Prop :=
  due con today (dict_get d (LEARNING_DATE con)) = Ok false
  /\ py_lt (dict_get d (SUCCESS_NUMBER con)) max = Ok false.

(** Two lists of records or rows of the same length that agree, position
    by position, on every key but the learning date and the count. *)
Definition same_words (con : constants) (before after : list dict) : Prop :=
  Forall2 (fun d0 d =>
             forall k, k ≠ LEARNING_DATE con -> k ≠ SUCCESS_NUMBER con ->
                       d !! k = d0 !! k)
    before after.

(** A frame with the columns of [f0] and, but for dates and counts, its
    cells. *)
Definition same_frame (con : constants) (f0 f : DataFrame) : Prop :=
  columns f = columns f0 /\ same_words con (rows f0) (rows f).

(** What a session that started in [w0] has kept in [w]: the file name
    and the threshold, the words of the frame and of the record dicts,
    the files written before; and what it has written since are frames
    with the same words. *)
Definition frozen (con : constants) (w0 w : world) : Prop :=
  filename (self w) = filename (self w0)
  /\ max_success_number (self w) = max_success_number (self w0)
  /\ same_frame con (vocabulary_frame (self w0)) (vocabulary_frame (self w))
  /\ same_words con (vocabulary (self w0)) (vocabulary (self w))
  /\ exists written,
      disk w = disk w0 ++ written
      /\ Forall (same_frame con (vocabulary_frame (self w0))) written.

(** A computation that keeps [I] however it ends, and returns values
    in [Q]. *)
Definition maintains {A} (I : world -> Prop) (m : M A) (Q : A -> Prop)
  : Prop :=
  forall w, I w ->
    I (m w).2 /\ match (m w).1 with Ok a => Q a | _ => True end.

(** An item that is the empty one or sits at a position below [n]. *)
Definition placed (n : nat) (item : WTItem) : Prop :=
  match index item with
  | Some j => (j < n)%nat
  | None => success_number item = VNone
  end.

Definition placed_locals (n : nat) (l : locals) : Prop :=
  match old_item l with
  | Some old => placed n old
  | None => True
  end.

Definition placed_signal (n : nat) (s : signal) : Prop :=
  match s with
  | Next l => placed_locals n l
  | Break => True
  end.

(** A computation that leaves the part [f] of the world as it is,
    however it ends. *)
Definition preserves {A X} (f : world -> X) (m : M A) : Prop :=
  forall w, f (m w).2 = f w.

(** ** [main] *)

(** What [main] prints before [sys.exit(1)]. *)
Inductive complaint :=
  | NoCommand
  | BadCommand
  | NoFilename
  | NotFound (path : str)
  | NoThreshold
  | BadThreshold.

(** How [main] ends when it raises nothing: [sys.exit(1)] after a
    complaint, the return of [WordsTutor().help()], or the call
    [WordsTutor(filename=path, max_success_number=max).run()]. *)
Inductive launch :=
  | Exit1 (c : complaint)
  | Help
  | Start (path : str) (max : Z).

(** [main] (line 345) on [sys.argv = argv].  The builtin [str.isdigit],
    [os.path.join(os.getcwd(), _)] and [os.path.isfile] are parameters. *)
Definition main (isdigit : str -> bool) (join_cwd : str -> str)
    (isfile : str -> bool) (argv : list str) : result launch :=
  match argv !! 1%nat with
  | None => Ok (Exit1 NoCommand)
  | Some command =>
      if negb (bool_decide (command ∈ [lit "help"; lit "run"])) then
        Ok (Exit1 BadCommand)
      else if bool_decide (command = lit "help") then Ok Help
      else
        match argv !! 2%nat with
        | None => Ok (Exit1 NoFilename)
        | Some name =>
            let path := join_cwd name in
            if negb (isfile path) then Ok (Exit1 (NotFound path))
            else
              match argv !! 3%nat with
              | None => Ok (Exit1 NoThreshold)
              | Some given =>
                  let? positive :=
                    if isdigit given then
                      let? z := py_int given in Ok (0 <? z)
                    else Ok false in
                  if negb positive then Ok (Exit1 BadThreshold)
                  else
                    let? max := py_int given in
                    Ok (Start path max)
              end
        end
  end.

(** A stand-in for [str.isdigit] in the worked examples: the strings
    of at least one decimal digit.  ([str.isdigit] also accepts digits
    that are not decimal, such as superscripts, which [int] refuses.) *)
Definition decimal_isdigit (s : str) : bool :=
  match s with
  | [] => false
  | _ => forallb (fun c => bool_decide (is_Some (digit_of c))) s
  end.

(** A count [s] that is the count of the record [d] or an integer
    within 2 of it. *)
Definition near_count (con : constants) (d : dict) (s : value) : Prop :=
  s = dict_get d (SUCCESS_NUMBER con)
  \/ exists z k, dict_get d (SUCCESS_NUMBER con) = VInt z
                 /\ s = VInt (z + k) /\ -2 <= k <= 2.

(** A row of the frame whose count is near the one of the record. *)
Definition near_row (con : constants) (d r : dict) : Prop :=
  near_count con d (cell r (SUCCESS_NUMBER con)).

(** An item as [get_item] builds it from the records [v0] when no word
    comes back: the empty item or the attributes of a record. *)
Definition read_from (con : constants) (v0 : list dict) (item : WTItem)
  : Prop :=
  item = WTItem_empty
  \/ exists i d, v0 !! i = Some d /\ item = read_item con (Some i) d.

(** What a session without come-backs keeps of the tutor it started
    with: the record dicts [v0], the threshold [m0], and in the frame
    counts near the ones of the records. *)
Definition steady (con : constants) (v0 : list dict) (m0 : Z) (w : world)
  : Prop :=
  vocabulary (self w) = v0
  /\ max_success_number (self w) = m0
  /\ Forall2 (near_row con) v0 (rows (vocabulary_frame (self w))).

(** The previous item, when the last answer was wrong, was read from
    the records. *)
Definition steady_locals (con : constants) (v0 : list dict) (l : locals)
  : Prop :=
  is_last_wrong l = true ->
  forall old, old_item l = Some old -> read_from con v0 old.

Definition steady_signal (con : constants) (v0 : list dict) (s : signal)
  : Prop :=
  match s with
  | Next l => steady_locals con v0 l
  | Break => True
  end.

(** No record of [v] is due to come back on [today]. *)
Definition none_due (con : constants) (today : date) (v : list dict) : Prop :=
  Forall
    (fun d => due con today (dict_get d (LEARNING_DATE con)) ≠ Ok true) v.

(** ** Notions for the lemmas on [str.lower] *)

(** [P] holds of the [fuel] code points from [c] on. *)
Fixpoint all_from (P : N -> bool) (c : N) (fuel : nat) : bool :=
  match fuel with
  | O => true
  | S k => P c && all_from P (N.succ c) k
  end.

(** A code point that [str.lower] leaves as it is, whatever is around
    it. *)
Definition stable (c : N) : bool :=
  match ToLowerFull c with
  | [d] => (d =? c)%N
  | _ => false
  end && negb (c =? 931)%N.

(** The lower-case form of [c] consists of stable code points that are
    not white space. *)
Definition key_check (c : N) : bool :=
  forallb (fun d => stable d && negb (isspace d)) (ToLowerFull c).

(** [key_check] holds from the first to the last code point of a run of
    the table. *)
Definition run_check (r : N * N * N * N) : bool :=
  let '(lo, hi, _, _) := r in all_from key_check lo (N.to_nat (hi - lo + 1)).

(** White space is stable, not cased and not case-ignorable. *)
Definition space_check (c : N) : bool :=
  if isspace c
  then stable c && negb (IsCased c) && negb (IsCaseIgnorable c)
  else true.

(** Whether the text before a capital sigma ends in a cased letter, and
    whether the text after it does not start with one: the two tests of
    [handle_capital_sigma]. *)
Definition preceded (before : str) : bool :=
  match first_not_ignorable before with
  | Some c => IsCased c
  | None => false
  end.

Definition followed (after : str) : bool :=
  match first_not_ignorable after with
  | Some c => negb (IsCased c)
  | None => true
  end.

(** Two code points that count alike as context of a capital sigma. *)
Definition same_class (x y : N) : Prop :=
  IsCaseIgnorable x = IsCaseIgnorable y /\ IsCased x = IsCased y.

(** ** Notions for the statements on [save_vocabulary] *)

(** The number of writes that are refused before the first one that is
    not. *)
Fixpoint refusals (locks : list bool) : nat :=
  match locks with
  | true :: later => S (refusals later)
  | _ => 0
  end.

(** ** Tactics *)

(** Case analysis on the comparisons of code points in the goal. *)
Ltac cmp_cases :=
  repeat match goal with
    | |- context [(?a <=? ?b)%N] => destruct (N.leb_spec a b)
    | |- context [(?a =? ?b)%N] => destruct (N.eqb_spec a b)
    end;
  simpl; try reflexivity; try lia.

(** Two spellings of the same world. *)
Ltac same_world :=
  unfold persisted_world, set_stdout, set_stdin, set_self;
  cbn [self stdin stdout disk filename max_success_number vocabulary_frame
       vocabulary index learning_date success_number set_success_number];
  rewrite ?app_nil_r, <- ?app_assoc; reflexivity.

(** A conjunction of closed equations, each checked by evaluation. *)
Ltac by_evaluation :=
  cbv zeta;
  repeat match goal with |- _ /\ _ => split end;
  vm_compute; reflexivity.

(** * Properties *)

(** ** Lemmas on stripping *)

Lemma str_rstrip_app_keep (s : str) (c : N) (t : str) :
  isspace c = false ->
  str_rstrip (s ++ c :: t) = s ++ c :: str_rstrip t.
Proof.
  intros Hc. induction s as [|a s IH]; simpl.
  - rewrite Hc. destruct (str_rstrip t); reflexivity.
  - rewrite IH. destruct s; reflexivity.
Qed.

Lemma str_lstrip_split (s : str) :
  str_lstrip s = [] \/
  exists c t, str_lstrip s = c :: t /\ isspace c = false.
Proof.
  induction s as [|a s IH]; simpl; [now left|].
  destruct (isspace a) eqn:Ha; [exact IH|].
  right. exists a, s. split; [reflexivity|exact Ha].
Qed.

Lemma str_lstrip_keep (c : N) (t : str) :
  isspace c = false -> str_lstrip (c :: t) = c :: t.
Proof. intros Hc. simpl. now rewrite Hc. Qed.

Lemma str_lstrip_app_keep (s : str) (c : N) (t : str) :
  isspace c = false ->
  str_lstrip (s ++ c :: t) = str_lstrip s ++ c :: t.
Proof.
  intros Hc. induction s as [|a s IH]; simpl.
  - now rewrite Hc.
  - destruct (isspace a); [exact IH|reflexivity].
Qed.

Lemma str_strip_app_keep (s : str) (c : N) (t : str) :
  isspace c = false ->
  str_strip (s ++ c :: t) = str_lstrip s ++ c :: str_rstrip t.
Proof.
  intros Hc. unfold str_strip.
  now rewrite str_lstrip_app_keep, str_rstrip_app_keep.
Qed.

Section StripMap.
Variable h : N -> N.
Hypothesis h_space : forall c, isspace (h c) = isspace c.

Lemma str_lstrip_map (s : str) :
  str_lstrip (map h s) = map h (str_lstrip s).
Proof.
  induction s as [|a s IH]; simpl; [reflexivity|].
  rewrite h_space. destruct (isspace a); [exact IH|reflexivity].
Qed.

Lemma str_rstrip_map (s : str) :
  str_rstrip (map h s) = map h (str_rstrip s).
Proof.
  induction s as [|a s IH]; simpl; [reflexivity|].
  rewrite IH, h_space.
  destruct (str_rstrip s); simpl; [destruct (isspace a)|]; reflexivity.
Qed.

Lemma str_strip_map (s : str) :
  str_strip (map h s) = map h (str_strip s).
Proof. unfold str_strip. now rewrite str_lstrip_map, str_rstrip_map. Qed.
End StripMap.

Lemma str_lstrip_idem (s : str) : str_lstrip (str_lstrip s) = str_lstrip s.
Proof.
  destruct (str_lstrip_split s) as [->|(c & t & -> & Hc)]; [reflexivity|].
  now apply str_lstrip_keep.
Qed.

Lemma str_rstrip_idem (s : str) : str_rstrip (str_rstrip s) = str_rstrip s.
Proof.
  induction s as [|a s IH]; simpl; [reflexivity|].
  destruct (str_rstrip s) as [|b r] eqn:Hr.
  - destruct (isspace a) eqn:Ha; simpl; [reflexivity|]. now rewrite Ha.
  - change (str_rstrip (a :: b :: r)) with
      (match str_rstrip (b :: r) with
       | [] => if isspace a then [] else [a]
       | r' => a :: r' end).
    now rewrite IH.
Qed.

Lemma str_rstrip_cons_keep (c : N) (t : str) :
  isspace c = false -> str_rstrip (c :: t) = c :: str_rstrip t.
Proof. intros Hc. exact (str_rstrip_app_keep [] c t Hc). Qed.

Lemma str_strip_idem (s : str) : str_strip (str_strip s) = str_strip s.
Proof.
  unfold str_strip.
  destruct (str_lstrip_split s) as [->|(c & t & -> & Hc)]; [reflexivity|].
  rewrite (str_rstrip_cons_keep c t Hc), (str_lstrip_keep c _ Hc).
  now rewrite (str_rstrip_cons_keep c _ Hc), str_rstrip_idem.
Qed.

Lemma str_lstrip_spaces (s : str) :
  forallb isspace s = true -> str_lstrip s = [].
Proof.
  induction s as [|c s IH]; [reflexivity|]. cbn.
  intros [Hc Hs]%andb_prop. rewrite Hc. exact (IH Hs).
Qed.

Lemma str_rstrip_spaces (s : str) :
  forallb isspace s = true -> str_rstrip s = [].
Proof.
  induction s as [|c s IH]; [reflexivity|]. cbn.
  intros [Hc Hs]%andb_prop. now rewrite (IH Hs), Hc.
Qed.

Lemma str_lstrip_spaces_app (pre s : str) :
  forallb isspace pre = true -> str_lstrip (pre ++ s) = str_lstrip s.
Proof.
  induction pre as [|c pre IH]; [reflexivity|]. cbn.
  intros [Hc Hs]%andb_prop. rewrite Hc. exact (IH Hs).
Qed.

Lemma str_rstrip_app_spaces (s post : str) :
  forallb isspace post = true -> str_rstrip (s ++ post) = str_rstrip s.
Proof.
  intros Hpost. induction s as [|c s IH]; cbn.
  - now apply str_rstrip_spaces.
  - now rewrite IH.
Qed.

Lemma str_strip_app_spaces (s post : str) :
  forallb isspace post = true -> str_strip (s ++ post) = str_strip s.
Proof.
  intros Hpost. unfold str_strip.
  destruct (str_lstrip_split s) as [Hs|(c & t & Hs & Hc)].
  - assert (Hall : forallb isspace s = true).
    { clear Hpost. induction s as [|a s IH]; [reflexivity|]. cbn in *.
      destruct (isspace a); [exact (IH Hs)|discriminate]. }
    rewrite str_lstrip_spaces_app, Hs by exact Hall.
    now rewrite (str_lstrip_spaces post Hpost).
  - assert (Happ : str_lstrip (s ++ post) = str_lstrip s ++ post).
    { clear Hpost. induction s as [|a s IH]; [discriminate|]. cbn in *.
      destruct (isspace a); [exact (IH Hs)|reflexivity]. }
    rewrite Happ. now apply str_rstrip_app_spaces.
Qed.

Lemma str_rstrip_split (s : str) :
  exists t, s = str_rstrip s ++ t /\ forallb isspace t = true.
Proof.
  induction s as [|c s (t & Hs & Ht)]; [now exists []|].
  cbn [str_rstrip]. destruct (str_rstrip s) as [|d r] eqn:Hr.
  - destruct (isspace c) eqn:Hc.
    + exists (c :: t). cbn in *. now rewrite Hc, Ht, <- Hs.
    + exists t. now rewrite Hs at 1.
  - exists t. now rewrite Hs at 1.
Qed.

Lemma str_rstrip_end (s : str) :
  str_rstrip s = []
  \/ exists u c, str_rstrip s = u ++ [c] /\ isspace c = false.
Proof.
  induction s as [|a s IH]; [now left|]. cbn [str_rstrip].
  destruct (str_rstrip s) as [|d r] eqn:Hr.
  - destruct (isspace a) eqn:Ha; [now left|]. right. now exists [], a.
  - right. destruct IH as [|(u & c & Hu & Hc)]; [discriminate|].
    exists (a :: u), c. now rewrite Hu.
Qed.

Lemma str_rstrip_no_space (z : str) :
  forallb (fun d => negb (isspace d)) z = true -> str_rstrip z = z.
Proof.
  induction z as [|c z IH]; [reflexivity|]. cbn [forallb].
  intros [Hc Hz]%andb_prop. apply negb_true_iff in Hc.
  now rewrite (str_rstrip_cons_keep c z Hc), IH.
Qed.

Lemma str_rstrip_keep_end (y z : str) :
  z <> [] -> forallb (fun d => negb (isspace d)) z = true ->
  str_rstrip (y ++ z) = y ++ z.
Proof.
  destruct z as [|c z]; [done|]. intros _ Hz.
  pose proof (str_rstrip_no_space _ Hz) as Hkeep.
  cbn [forallb] in Hz. apply andb_prop in Hz as [Hc Hz].
  apply negb_true_iff in Hc.
  rewrite (str_rstrip_app_keep y c z Hc).
  rewrite (str_rstrip_cons_keep c z Hc) in Hkeep. congruence.
Qed.

Lemma str_lstrip_keep_start (z y : str) :
  z <> [] -> forallb (fun d => negb (isspace d)) z = true ->
  str_lstrip (z ++ y) = z ++ y.
Proof.
  destruct z as [|c z]; [done|]. cbn. intros _ [Hc _]%andb_prop.
  apply negb_true_iff in Hc. now rewrite Hc.
Qed.

(** ** Lemmas on normalisation *)

Lemma fold_yo_not_yo (c : N) : (fold_yo c =? yo)%N = false.
Proof.
  unfold fold_yo. destruct (N.eqb_spec c yo) as [->|Hc]; [reflexivity|].
  now apply N.eqb_neq.
Qed.

Lemma fold_yo_space (c : N) : isspace (fold_yo c) = isspace c.
Proof.
  unfold fold_yo. destruct (N.eqb_spec c yo) as [->|_]; reflexivity.
Qed.

(** *** The tables *)

Lemma all_from_spec (P : N -> bool) (fuel : nat) :
  forall c, all_from P c fuel = true ->
  forall d, (c <= d < c + N.of_nat fuel)%N -> P d = true.
Proof.
  induction fuel as [|k IH]; intros c Hall d Hd; [lia|].
  cbn [all_from] in Hall. apply andb_prop in Hall as [Hc Hrest].
  destruct (N.eq_dec d c) as [->|Hne]; [exact Hc|].
  apply (IH (N.succ c) Hrest). lia.
Qed.

Lemma lookup_run_in (t : list (N * N * N * N)) (c d : N) :
  lookup_run t c = Some d ->
  exists lo hi step to, In (lo, hi, step, to) t /\ (lo <= c <= hi)%N.
Proof.
  induction t as [|[[[lo hi] step] to] t IH]; [discriminate|].
  cbn [lookup_run]. destruct (N.ltb_spec c lo) as [|Hlo]; [discriminate|].
  destruct (N.leb_spec c hi) as [Hhi|]; cbn [andb].
  - destruct ((c - lo) mod step =? 0)%N.
    + intros _. exists lo, hi, step, to. split; [now left|lia].
    + intros (lo' & hi' & step' & to' & Hin & Hc)%IH.
      exists lo', hi', step', to'. split; [now right|exact Hc].
  - intros (lo' & hi' & step' & to' & Hin & Hc)%IH.
    exists lo', hi', step', to'. split; [now right|exact Hc].
Qed.

Lemma runs_checked : forallb run_check lower_table = true.
Proof. vm_compute. reflexivity. Qed.

Lemma spaces_checked :
  all_from space_check 0 (N.to_nat 12289) = true.
Proof. vm_compute. reflexivity. Qed.

Lemma isspace_high (c : N) : (12288 < c)%N -> isspace c = false.
Proof.
  intros H. unfold isspace. repeat apply orb_false_intro.
  all: try (apply N.eqb_neq; lia).
  all: apply andb_false_iff; rewrite !N.leb_gt; lia.
Qed.

Lemma stable_spec (c : N) :
  stable c = true <-> ToLowerFull c = [c] /\ c <> 931%N.
Proof.
  unfold stable. rewrite andb_true_iff, negb_true_iff, N.eqb_neq.
  destruct (ToLowerFull c) as [|d [|e t]].
  - split; [intros [? _]; discriminate|intros [? _]; discriminate].
  - rewrite N.eqb_eq. split; intros [H ?]; (split; [congruence|assumption]).
  - split; [intros [? _]; discriminate|intros [? _]; discriminate].
Qed.

Lemma space_stable (c : N) :
  isspace c = true ->
  stable c = true /\ IsCased c = false /\ IsCaseIgnorable c = false.
Proof.
  intros Hc. destruct (N.le_gt_cases c 12288) as [Hle|Hgt].
  - assert (H : space_check c = true).
    { apply (all_from_spec space_check _ 0 spaces_checked).
      rewrite N2Nat.id. lia. }
    unfold space_check in H. rewrite Hc in H.
    apply andb_prop in H as [[H1 H2]%andb_prop H3].
    now apply negb_true_iff in H2, H3.
  - now rewrite (isspace_high c Hgt) in Hc.
Qed.

Lemma ToLowerFull_cases (c : N) :
  ToLowerFull c = [c] \/ key_check c = true.
Proof.
  destruct (N.eq_dec c 304%N) as [->|Hne]; [right; vm_compute; reflexivity|].
  unfold ToLowerFull at 1. apply N.eqb_neq in Hne. rewrite Hne.
  destruct (lookup_run lower_table c) as [d|] eqn:Hrun; [|now left].
  right. apply lookup_run_in in Hrun as (lo & hi & step & to & Hin & Hc).
  pose proof runs_checked as Hall. rewrite forallb_forall in Hall.
  specialize (Hall _ Hin). cbn in Hall.
  apply (all_from_spec key_check _ lo Hall). lia.
Qed.

Lemma ToLowerFull_not_nil (c : N) : ToLowerFull c <> [].
Proof.
  unfold ToLowerFull. destruct (c =? 304)%N; [discriminate|].
  now destruct (lookup_run lower_table c).
Qed.

Lemma sigma_not_fixed : ToLowerFull 931%N <> [931%N].
Proof. vm_compute. discriminate. Qed.

(** *** One code point in its context *)

Lemma lower_ucs4_not_nil (b : str) (c : N) (r : str) : lower_ucs4 b c r <> [].
Proof.
  unfold lower_ucs4. destruct (c =? 931)%N; [discriminate|].
  apply ToLowerFull_not_nil.
Qed.

Lemma lower_ucs4_stable (b : str) (c : N) (r : str) :
  forallb stable (lower_ucs4 b c r) = true.
Proof.
  unfold lower_ucs4. destruct (N.eqb_spec c 931%N) as [->|Hne].
  - unfold handle_capital_sigma. cbv zeta.
    now destruct (if match first_not_ignorable b with
                     | Some c => IsCased c | None => false end
                  then _ else false); vm_compute.
  - destruct (ToLowerFull_cases c) as [E|Hkey].
    + rewrite E. cbn. rewrite andb_true_r. now apply stable_spec.
    + unfold key_check in Hkey. rewrite forallb_forall in *.
      intros d Hd. now apply Hkey, andb_prop in Hd.
Qed.

Lemma lower_ucs4_space (b : str) (c : N) (r : str) :
  isspace c = true -> lower_ucs4 b c r = [c].
Proof.
  intros (Hst & _)%space_stable. apply stable_spec in Hst as [E Hne].
  unfold lower_ucs4. apply N.eqb_neq in Hne. now rewrite Hne.
Qed.

Lemma lower_ucs4_not_space (b : str) (c : N) (r : str) :
  isspace c = false ->
  forallb (fun d => negb (isspace d)) (lower_ucs4 b c r) = true.
Proof.
  intros Hc. unfold lower_ucs4. destruct (N.eqb_spec c 931%N) as [->|Hne].
  - unfold handle_capital_sigma. cbv zeta.
    now destruct (if match first_not_ignorable b with
                     | Some c => IsCased c | None => false end
                  then _ else false); vm_compute.
  - destruct (ToLowerFull_cases c) as [E|Hkey].
    + rewrite E. cbn. now rewrite Hc.
    + unfold key_check in Hkey. rewrite forallb_forall in *.
      intros d Hd. now apply Hkey, andb_prop in Hd.
Qed.

Lemma lower_ucs4_stable_fix (b : str) (c : N) (r : str) :
  stable c = true -> lower_ucs4 b c r = [c].
Proof.
  intros [E Hne]%stable_spec. unfold lower_ucs4.
  apply N.eqb_neq in Hne. now rewrite Hne.
Qed.

Lemma lower_ucs4_context (b b' : str) (c : N) (r r' : str) :
  preceded b = preceded b' -> followed r = followed r' ->
  lower_ucs4 b c r = lower_ucs4 b' c r'.
Proof.
  intros Hb Hr. unfold lower_ucs4, handle_capital_sigma. cbv zeta.
  fold (preceded b) (preceded b') (followed r) (followed r').
  now rewrite Hb, Hr.
Qed.

Lemma lower_ucs4_length (b b' : str) (c : N) (r r' : str) :
  length (lower_ucs4 b c r) = length (lower_ucs4 b' c r').
Proof. unfold lower_ucs4. now destruct (c =? 931)%N. Qed.

(** *** Whole strings *)

Lemma do_lower_stable_fix (b s : str) :
  forallb stable s = true -> do_lower b s = s.
Proof.
  revert b. induction s as [|c s IH]; intros b; [reflexivity|]. cbn [do_lower forallb app length map rev str_lstrip].
  intros [Hc Hs]%andb_prop. now rewrite (lower_ucs4_stable_fix b c s Hc), IH.
Qed.

Lemma do_lower_stable (b s : str) : forallb stable (do_lower b s) = true.
Proof.
  revert b. induction s as [|c s IH]; intros b; [reflexivity|]. cbn [do_lower forallb app length map rev str_lstrip].
  now rewrite forallb_app, lower_ucs4_stable, IH.
Qed.

Lemma do_lower_length (b b' s : str) :
  length (do_lower b s) = length (do_lower b' s).
Proof.
  revert b b'. induction s as [|c s IH]; intros b b'; [reflexivity|]. cbn [do_lower forallb app length map rev str_lstrip].
  rewrite !length_app, (IH (c :: b) (c :: b')).
  now rewrite (lower_ucs4_length b b' c s s).
Qed.

Lemma preceded_cons (c : N) (b : str) :
  preceded (c :: b) = if IsCaseIgnorable c then preceded b else IsCased c.
Proof.
  unfold preceded. cbn [first_not_ignorable].
  now destruct (IsCaseIgnorable c).
Qed.

Lemma followed_cons (c : N) (r : str) :
  followed (c :: r)
  = if IsCaseIgnorable c then followed r else negb (IsCased c).
Proof.
  unfold followed. cbn [first_not_ignorable].
  now destruct (IsCaseIgnorable c).
Qed.

Lemma do_lower_before (b b' s : str) :
  preceded b = preceded b' -> do_lower b s = do_lower b' s.
Proof.
  revert b b'. induction s as [|c s IH]; intros b b' Hb; [reflexivity|].
  cbn [do_lower forallb app length map rev str_lstrip]. rewrite (lower_ucs4_context b b' c s s Hb eq_refl). f_equal.
  apply IH. now rewrite !preceded_cons, Hb.
Qed.

Lemma followed_spaces (t : str) :
  forallb isspace t = true -> followed t = true.
Proof.
  destruct t as [|w t]; [reflexivity|]. cbn [forallb].
  intros [(_ & Hcased & Hign)%space_stable _]%andb_prop.
  now rewrite followed_cons, Hign, Hcased.
Qed.

Lemma followed_app_spaces (r t : str) :
  forallb isspace t = true -> followed (r ++ t) = followed r.
Proof.
  intros Ht. induction r as [|c r IH]; [now apply followed_spaces|].
  cbn [app]. now rewrite !followed_cons, IH.
Qed.

Lemma do_lower_spaces (b t : str) :
  forallb isspace t = true -> do_lower b t = t.
Proof.
  intros Ht. apply do_lower_stable_fix. rewrite forallb_forall in *.
  intros c Hc. now apply space_stable, Ht.
Qed.

Lemma do_lower_app_spaces (b s t : str) :
  forallb isspace t = true -> do_lower b (s ++ t) = do_lower b s ++ t.
Proof.
  intros Ht. revert b. induction s as [|c s IH]; intros b.
  - now apply do_lower_spaces.
  - cbn [do_lower forallb app length map rev str_lstrip]. rewrite IH, <- app_assoc. f_equal.
    apply lower_ucs4_context; [reflexivity|now apply followed_app_spaces].
Qed.

Lemma do_lower_snoc (b u : str) (c : N) :
  exists y, do_lower b (u ++ [c]) = y ++ lower_ucs4 (rev u ++ b) c [].
Proof.
  revert b. induction u as [|a u IH]; intros b; cbn [do_lower forallb app length map rev str_lstrip].
  - exists []. now rewrite app_nil_r.
  - destruct (IH (a :: b)) as (y & ->).
    exists (lower_ucs4 b a (u ++ [c]) ++ y).
    now rewrite <- !app_assoc.
Qed.

Lemma do_lower_lstrip (b s : str) :
  preceded b = false ->
  str_lstrip (do_lower b s) = do_lower [] (str_lstrip s).
Proof.
  revert b. induction s as [|c s IH]; intros b Hb; [reflexivity|]. cbn [do_lower forallb app length map rev str_lstrip].
  destruct (isspace c) eqn:Hc.
  - rewrite (lower_ucs4_space b c s Hc). cbn [do_lower forallb app length map rev str_lstrip]. rewrite Hc. apply IH.
    apply space_stable in Hc as (_ & Hcased & Hign).
    now rewrite preceded_cons, Hign.
  - rewrite str_lstrip_keep_start
      by (apply lower_ucs4_not_nil || now apply lower_ucs4_not_space).
    now rewrite (lower_ucs4_context b [] c s s Hb eq_refl),
      (do_lower_before (c :: b) [c] s)
      by (now rewrite !preceded_cons, Hb).
Qed.

Lemma do_lower_rstrip (b s : str) :
  str_rstrip (do_lower b s) = do_lower b (str_rstrip s).
Proof.
  destruct (str_rstrip_split s) as (t & Hs & Ht).
  rewrite Hs at 1. rewrite (do_lower_app_spaces b _ t Ht).
  rewrite (str_rstrip_app_spaces _ t Ht).
  destruct (str_rstrip_end s) as [->|(u & c & -> & Hc)]; [reflexivity|].
  destruct (do_lower_snoc b u c) as (y & ->).
  apply str_rstrip_keep_end;
    [apply lower_ucs4_not_nil|now apply lower_ucs4_not_space].
Qed.

Lemma str_lower_strip (s : str) :
  str_strip (str_lower s) = str_lower (str_strip s).
Proof.
  unfold str_strip, str_lower.
  now rewrite (do_lower_lstrip [] s eq_refl), do_lower_rstrip.
Qed.

Lemma process_answer_map (s : str) :
  process_answer s = map fold_yo (str_lower (str_strip s)).
Proof. reflexivity. Qed.

Lemma process_answer_stable (s : str) :
  forallb stable (process_answer s) = true.
Proof.
  rewrite process_answer_map. apply forallb_forall.
  intros c (d & <- & Hd)%in_map_iff.
  pose proof (do_lower_stable [] (str_strip s)) as Hall.
  rewrite forallb_forall in Hall. specialize (Hall d Hd).
  unfold fold_yo. now destruct (d =? yo)%N.
Qed.

Lemma process_answer_stripped (s : str) :
  str_strip (process_answer s) = process_answer s.
Proof.
  rewrite process_answer_map.
  rewrite (str_strip_map fold_yo fold_yo_space).
  now rewrite str_lower_strip, str_strip_idem.
Qed.

Lemma process_answer_no_yo (s : str) :
  forallb (fun c => negb (c =? yo)%N) (process_answer s) = true.
Proof.
  rewrite process_answer_map. apply forallb_forall.
  intros c (d & <- & _)%in_map_iff. now rewrite fold_yo_not_yo.
Qed.

Lemma process_answer_idempotent (s : str) :
  process_answer (process_answer s) = process_answer s.
Proof.
  rewrite (process_answer_map (process_answer s)).
  rewrite process_answer_stripped.
  unfold str_lower.
  rewrite (do_lower_stable_fix [] _ (process_answer_stable s)).
  pose proof (process_answer_no_yo s) as Hno.
  induction (process_answer s) as [|c t IH]; [reflexivity|].
  cbn [forallb map] in *. apply andb_prop in Hno as [Hc Ht]. rewrite (IH Ht). f_equal.
  unfold fold_yo. apply negb_true_iff in Hc. now rewrite Hc.
Qed.

(** *** One code point of an answer *)

Lemma followed_at (x y : N) (r post : str) :
  same_class x y -> followed (r ++ x :: post) = followed (r ++ y :: post).
Proof.
  intros [Hign Hcased]. induction r as [|c r IH]; cbn [app].
  - now rewrite !followed_cons, Hign, Hcased.
  - now rewrite !followed_cons, IH.
Qed.

Lemma do_lower_at (x y : N) (b pre post : str) :
  same_class x y -> x <> 931%N -> y <> 931%N ->
  exists l r,
    do_lower b (pre ++ x :: post) = l ++ ToLowerFull x ++ r
    /\ do_lower b (pre ++ y :: post) = l ++ ToLowerFull y ++ r
    /\ length l = length (do_lower [] pre)
    /\ length r = length (do_lower [] post).
Proof.
  intros Hxy Hx Hy. revert b. induction pre as [|c pre IH]; intros b.
  - exists [], (do_lower (x :: b) post). cbn [app do_lower].
    unfold lower_ucs4. apply N.eqb_neq in Hx, Hy. rewrite Hx, Hy.
    split; [reflexivity|]. split; [|split; [reflexivity|]].
    + f_equal. apply do_lower_before. destruct Hxy as [Hign Hcased].
      now rewrite !preceded_cons, Hign, Hcased.
    + apply do_lower_length.
  - destruct (IH (c :: b)) as (l & r & Ex & Ey & Hl & Hr).
    exists (lower_ucs4 b c (pre ++ x :: post) ++ l), r.
    cbn [app do_lower]. rewrite Ex, Ey, <- !app_assoc.
    split; [reflexivity|]. split; [|split; [|exact Hr]].
    + f_equal. apply lower_ucs4_context; [reflexivity|].
      symmetry. now apply followed_at.
    + rewrite !length_app, Hl, (do_lower_length [c] [] pre).
      now rewrite (lower_ucs4_length b [] c _ pre).
Qed.

Lemma process_answer_at (x y : N) (pre post : str) :
  isspace x = false -> isspace y = false ->
  same_class x y -> x <> 931%N -> y <> 931%N ->
  exists l r,
    process_answer (pre ++ x :: post)
    = l ++ map fold_yo (ToLowerFull x) ++ r
    /\ process_answer (pre ++ y :: post)
       = l ++ map fold_yo (ToLowerFull y) ++ r
    /\ length l = length (str_lower (str_lstrip pre))
    /\ length r = length (str_lower (str_rstrip post)).
Proof.
  intros Hsx Hsy Hxy Hx Hy. rewrite !process_answer_map.
  rewrite (str_strip_app_keep pre x post Hsx).
  rewrite (str_strip_app_keep pre y post Hsy).
  destruct (do_lower_at x y [] (str_lstrip pre) (str_rstrip post) Hxy Hx Hy)
    as (l & r & Ex & Ey & Hl & Hr).
  exists (map fold_yo l), (map fold_yo r). unfold str_lower.
  rewrite Ex, Ey, !map_app, !length_map. auto.
Qed.

(** C8.  Normalising an answer is idempotent; ["Cat "], ["cat"] and
    ["CAT"] all normalise to ["cat"]; no "ё" is left in a normalised
    answer: a "ё" (small or capital) at any position of an answer
    becomes an "е" at that position, and the answer normalises exactly
    as it does with an "е" there.  [str.lower] is the one of CPython,
    with its full table, the two code points it makes of U+0130 and
    the final sigma, which depends on what follows: the capital sigma
    of "ΑΣё" is not final. *)
Theorem process_answer_normal_form :
  (forall s : str, process_answer (process_answer s) = process_answer s)
  /\ process_answer (lit "Cat ") = lit "cat"
  /\ process_answer (lit "cat") = lit "cat"
  /\ process_answer (lit "CAT") = lit "cat"
  /\ (forall s : str,
        forallb (fun c => negb (c =? yo)%N) (process_answer s) = true)
  /\ (forall pre post : str,
        exists l r,
          process_answer (pre ++ yo :: post) = l ++ ye :: r
          /\ length l = length (str_lower (str_lstrip pre))
          /\ length r = length (str_lower (str_rstrip post)))
  /\ (forall pre post : str,
        process_answer (pre ++ yo :: post) = process_answer (pre ++ ye :: post))
  /\ (forall pre post : str,
        process_answer (pre ++ YO :: post) = process_answer (pre ++ ye :: post))
  /\ process_answer [913; 931; yo]%N = [945; 963; ye]%N
  /\ process_answer [913; 931]%N = [945; 962]%N.
Proof.
  assert (Hyo : isspace yo = false) by reflexivity.
  assert (Hye : isspace ye = false) by reflexivity.
  assert (HYO : isspace YO = false) by reflexivity.
  assert (Hclass : same_class yo ye) by (split; vm_compute; reflexivity).
  assert (HClass : same_class YO ye) by (split; vm_compute; reflexivity).
  split; [exact process_answer_idempotent|].
  do 3 (split; [vm_compute; reflexivity|]).
  split; [exact process_answer_no_yo|].
  split; [|split; [|split; [|split; vm_compute; reflexivity]]];
    intros pre post.
  - destruct (process_answer_at yo ye pre post Hyo Hye Hclass)
      as (l & r & E & _ & Hl & Hr); [discriminate..|].
    exists l, r. split; [exact E|]. now split.
  - destruct (process_answer_at yo ye pre post Hyo Hye Hclass)
      as (l & r & -> & -> & _); [discriminate..|reflexivity].
  - destruct (process_answer_at YO ye pre post HYO Hye HClass)
      as (l & r & -> & -> & _); [discriminate..|reflexivity].
Qed.

(** ** The monad *)

Lemma bind_ok {A B} (m : M A) (k : A -> M B) (w w' : world) (a : A) :
  m w = (Ok a, w') -> bind m k w = k a w'.
Proof. intros H. unfold bind. now rewrite H. Qed.

Lemma bind_inv {A B} (m : M A) (k : A -> M B) (w w'' : world) (b : B) :
  bind m k w = (Ok b, w'') ->
  exists a w', m w = (Ok a, w') /\ k a w' = (Ok b, w'').
Proof.
  unfold bind. destruct (m w) as [[a| |] w'] eqn:E; intros H;
    [|discriminate..].
  now exists a, w'.
Qed.

(** ** [get_item] *)

Lemma come_back_stale (con : constants) (today : date) (i : nat)
    (item : WTItem) (w : world) (d : dict) (n : Z) :
  vocabulary (self w) !! i = Some d ->
  index item = Some i ->
  days_since today (learning_date item) = Ok n ->
  COMING_BACK_TIME con < n ->
  come_back con today item w
  = (Ok (come_back_item item), come_back_world con i item w).
Proof.
  intros Hd Hi Hn Hlt. unfold come_back.
  unfold bind at 1. unfold lift at 1. rewrite Hn.
  apply Z.ltb_lt in Hlt. rewrite Hlt.
  unfold update_item_in_vocabulary, update_item_in_frame.
  cbn [index come_back_item set_success_number set_learning_date
       learning_date success_number].
  rewrite Hi.
  unfold bind, print, vocabulary_set, frame_set, get_self, put_self, lift,
    list_get, ret.
  cbn. rewrite Hd. cbn. rewrite list_lookup_alter_eq, Hd. cbn.
  rewrite list_alter_alter_eq. reflexivity.
Qed.

Lemma come_back_fresh (con : constants) (today : date) (item : WTItem)
    (w : world) (n : Z) :
  days_since today (learning_date item) = Ok n ->
  n <= COMING_BACK_TIME con ->
  come_back con today item w = (Ok item, w).
Proof.
  intros Hn Hle. unfold come_back, bind, lift. rewrite Hn.
  apply Z.ltb_ge in Hle. now rewrite Hle.
Qed.

(** [get_item] as a function of the record at position [i]. *)
Lemma get_item_eq (con : constants) (today : date) (i : nat) (w : world) :
  get_item con today i w =
  match vocabulary (self w) !! i with
  | None => (Raise IndexError, w)
  | Some d =>
      if bool_decide (d ≠ ∅) then
        let item := read_item con (Some i) d in
        match due con today (learning_date item) with
        | Ok true =>
            (Ok (if 0 <? max_success_number (self w)
                 then come_back_item item else WTItem_empty),
             come_back_world con i item w)
        | Ok false =>
            (let? below := py_lt (success_number item)
                             (max_success_number (self w)) in
             Ok (if below then item else WTItem_empty), w)
        | Raise e => (Raise e, w)
        | Starved => (Starved, w)
        end
      else (Ok WTItem_empty, w)
  end.
Proof.
  unfold get_item. unfold bind at 1, get_self at 1.
  unfold bind at 1, lift at 1, list_get.
  destruct (vocabulary (self w) !! i) as [d|] eqn:Hd; [|reflexivity].
  destruct (bool_decide (d ≠ ∅)); [|reflexivity].
  unfold bind at 1, lift at 1, WTItem_init, list_get. rewrite Hd. cbn [rbind].
  unfold due. set (item := read_item con (Some i) d).
  destruct (date_is_set (learning_date item)).
  - destruct (days_since today (learning_date item)) as [n| |] eqn:Hn.
    + cbn [rbind]. destruct (Z.ltb_spec (COMING_BACK_TIME con) n) as [Hlt|Hle].
      * unfold bind at 1.
        rewrite (come_back_stale con today i item w d n Hd eq_refl Hn Hlt).
        unfold bind, get_self, lift, ret. cbn.
        now destruct (0 <? max_success_number (self w)).
      * unfold bind at 1. rewrite (come_back_fresh con today item w n Hn Hle).
        unfold bind, get_self, lift, ret.
        destruct (py_lt _ _) as [[|]| |]; reflexivity.
    + unfold bind at 1, come_back, bind at 1, lift at 1. now rewrite Hn.
    + unfold bind at 1, come_back, bind at 1, lift at 1. now rewrite Hn.
  - unfold bind, ret, get_self, lift.
    destruct (py_lt _ _) as [[|]| |]; reflexivity.
Qed.

Lemma WTItem_empty_init (con : constants) :
  WTItem_init con None None = Ok WTItem_empty.
Proof. reflexivity. Qed.

Lemma get_item_keeps_threshold (con : constants) (today : date) (i : nat)
    (w : world) :
  max_success_number (self (get_item con today i w).2)
  = max_success_number (self w).
Proof.
  rewrite get_item_eq.
  destruct (vocabulary (self w) !! i) as [d|]; [|reflexivity].
  destruct (bool_decide (d ≠ ∅)); [|reflexivity]. cbn zeta.
  destruct (due _ _ _) as [[|]| |]; reflexivity.
Qed.

(** What [get_item] can return: the empty item, or an item of position
    [i] whose count is an integer below the threshold. *)
Lemma get_item_ok (con : constants) (today : date) (i : nat) (w w' : world)
    (it : WTItem) :
  get_item con today i w = (Ok it, w') ->
  it = WTItem_empty
  \/ index it = Some i
     /\ exists z, success_number it = VInt z /\ z < max_success_number (self w).
Proof.
  rewrite get_item_eq.
  destruct (vocabulary (self w) !! i) as [d|]; [|discriminate].
  destruct (bool_decide (d ≠ ∅)); [|intros [= <- _]; now left]. cbn zeta.
  destruct (due _ _ _) as [[|]| |]; [| |discriminate..].
  - destruct (Z.ltb_spec 0 (max_success_number (self w)));
      intros [= <- _]; [right|now left].
    split; [reflexivity|]. now exists 0.
  - unfold py_lt.
    destruct (success_number (read_item con (Some i) d)) as [| |z|s] eqn:Hs;
      cbn [rbind]; try discriminate.
    + intros [= <- _]. now left.
    + destruct (Z.ltb_spec z (max_success_number (self w)));
        intros [= <- _]; [right|now left].
      split; [reflexivity|]. now exists z.
Qed.

Lemma come_back_record_success (con : constants) (d : dict) :
  come_back_record con d !! SUCCESS_NUMBER con = Some (VInt 0).
Proof. unfold come_back_record. apply lookup_insert_eq. Qed.

Lemma come_back_record_date (con : constants) (d : dict) :
  LEARNING_DATE con ≠ SUCCESS_NUMBER con ->
  come_back_record con d !! LEARNING_DATE con = Some (VStr []).
Proof.
  intros Hne. unfold come_back_record.
  rewrite lookup_insert_ne by congruence. apply lookup_insert_eq.
Qed.

Lemma come_back_record_nonempty (con : constants) (d : dict) :
  come_back_record con d ≠ ∅.
Proof. unfold come_back_record. apply insert_non_empty. Qed.

(** C7.  At a position of the vocabulary, an item [get_item] returns
    with a word has an integer count below [max_success_number]; and a
    record whose count has reached the threshold, and which is not due
    to come back, yields the empty item. *)
Theorem get_item_never_graduated (con : constants) (today : date) (i : nat)
    (w : world) (d : dict) :
  vocabulary (self w) !! i = Some d ->
  (forall it w',
      get_item con today i w = (Ok it, w') ->
      truthy (word it) = true ->
      exists z, success_number it = VInt z
                /\ z < max_success_number (self w))
  /\ (forall z,
        dict_get d (SUCCESS_NUMBER con) = VInt z ->
        max_success_number (self w) <= z ->
        due con today (dict_get d (LEARNING_DATE con)) = Ok false ->
        get_item con today i w = (Ok WTItem_empty, w)).
Proof.
  intros Hd. split.
  - intros it w' Hg Hw.
    destruct (get_item_ok _ _ _ _ _ _ Hg) as [->|[_ Hz]]; [discriminate|].
    exact Hz.
  - intros z Hz Hmax Hdue. rewrite get_item_eq, Hd.
    destruct (bool_decide (d ≠ ∅)); [|reflexivity]. cbn zeta.
    cbn [learning_date success_number read_item]. rewrite Hdue, Hz.
    cbn [py_lt rbind]. apply Z.ltb_ge in Hmax. now rewrite Hmax.
Qed.

Lemma get_item_never_graduated_witness :
  get_item con_sample a_day 0
    (session 3 [cat (VInt 3) VNaN; dog (VInt 1) VNaN] [])
  = (Ok WTItem_empty, session 3 [cat (VInt 3) VNaN; dog (VInt 1) VNaN] [])
  /\ exists z,
      success_number (read_item con_sample (Some 1%nat) (dog (VInt 1) VNaN))
      = VInt z /\ z < 3.
Proof.
  split.
  - apply (proj2 (get_item_never_graduated con_sample a_day 0
                    (session 3 [cat (VInt 3) VNaN; dog (VInt 1) VNaN] [])
                    (cat (VInt 3) VNaN) eq_refl) 3).
    + reflexivity.
    + vm_compute. discriminate.
    + reflexivity.
  - apply (proj1 (get_item_never_graduated con_sample a_day 1
                    (session 3 [cat (VInt 3) VNaN; dog (VInt 1) VNaN] [])
                    (dog (VInt 1) VNaN) eq_refl) _
             (session 3 [cat (VInt 3) VNaN; dog (VInt 1) VNaN] []));
      reflexivity.
Defined.

Lemma loc_set_rows (f : DataFrame) (i : nat) (c : str) (v : value) :
  (i < length (rows f))%nat ->
  rows (loc_set f (Some i) c v) = alter (insert c v) i (rows f).
Proof. intros Hi. unfold loc_set. cbn. now rewrite bool_decide_eq_true_2. Qed.

Lemma come_back_world_row (con : constants) (i : nat) (item : WTItem)
    (w : world) (r : dict) :
  rows (vocabulary_frame (self w)) !! i = Some r ->
  rows (vocabulary_frame (self (come_back_world con i item w))) !! i
  = Some (come_back_record con r).
Proof.
  intros Hr. pose proof (lookup_lt_Some _ _ _ Hr) as Hlt.
  unfold come_back_world. cbn [self vocabulary_frame].
  rewrite loc_set_rows by (rewrite loc_set_rows, length_alter; done).
  rewrite loc_set_rows by done.
  now rewrite list_alter_alter_eq, list_lookup_alter_eq, Hr.
Qed.

(** C4.  A record whose learning date is set, is a valid calendar date
    and lies more than [COMING_BACK_TIME] days back comes back at the
    next [get_item] on its position: the call succeeds, the count is 0
    and the date cleared in the record of the vocabulary and in the row
    of the frame, one notice is printed and nothing else changes; a
    further [get_item] on the position, on whatever day, returns without
    changing or printing anything. *)
Theorem get_item_comes_back_once (con : constants) (today : date) (i : nat)
    (w : world) (d r : dict) (s : str) (n : Z) :
  LEARNING_DATE con ≠ SUCCESS_NUMBER con ->
  vocabulary (self w) !! i = Some d ->
  rows (vocabulary_frame (self w)) !! i = Some r ->
  d !! LEARNING_DATE con = Some (VStr s) ->
  date_is_set (VStr s) = true ->
  days_since today (VStr s) = Ok n ->
  COMING_BACK_TIME con < n ->
  exists (it : WTItem) (w' : world) (d' r' : dict),
    get_item con today i w = (Ok it, w')
    /\ vocabulary (self w') !! i = Some d'
    /\ d' !! SUCCESS_NUMBER con = Some (VInt 0)
    /\ d' !! LEARNING_DATE con = Some (VStr [])
    /\ rows (vocabulary_frame (self w')) !! i = Some r'
    /\ r' !! SUCCESS_NUMBER con = Some (VInt 0)
    /\ r' !! LEARNING_DATE con = Some (VStr [])
    /\ stdout w' = stdout w ++ [PNotRepeated (dict_get d (WORD con)) (VStr s)]
    /\ stdin w' = stdin w /\ disk w' = disk w
    /\ forall today', exists it', get_item con today' i w' = (Ok it', w').
Proof.
  intros Hne Hd Hr Hs Hset Hn Hlt.
  set (item := read_item con (Some i) d).
  assert (Hld : learning_date item = VStr s)
    by (unfold item, read_item, dict_get; cbn; now rewrite Hs).
  exists (if 0 <? max_success_number (self w)
          then come_back_item item else WTItem_empty),
    (come_back_world con i item w),
    (come_back_record con d), (come_back_record con r).
  split; [|split; [|split; [|split; [|split; [|split; [|split;
    [|split; [|split; [|split]]]]]]]]].
  - rewrite get_item_eq, Hd.
    rewrite bool_decide_eq_true_2
      by (intros ->; now rewrite lookup_empty in Hs).
    cbn zeta. fold item. rewrite Hld. unfold due. rewrite Hset, Hn.
    cbn [rbind]. apply Z.ltb_lt in Hlt. now rewrite Hlt.
  - cbn. now rewrite list_lookup_alter_eq, Hd.
  - apply come_back_record_success.
  - now apply come_back_record_date.
  - now apply come_back_world_row.
  - apply come_back_record_success.
  - now apply come_back_record_date.
  - unfold come_back_world. cbn [stdout]. now rewrite Hld.
  - reflexivity.
  - reflexivity.
  - intros today'. rewrite get_item_eq.
    assert (Hd' : vocabulary (self (come_back_world con i item w)) !! i
                  = Some (come_back_record con d))
      by (cbn; now rewrite list_lookup_alter_eq, Hd).
    rewrite Hd'.
    rewrite bool_decide_eq_true_2 by apply come_back_record_nonempty.
    cbn zeta. cbn [learning_date success_number read_item].
    unfold dict_get.
    rewrite come_back_record_date by done.
    rewrite come_back_record_success. cbn.
    destruct (0 <? max_success_number (self w)); eexists; reflexivity.
Qed.

(** ** Grading *)

Lemma update_item_in_frame_run (con : constants) (item : WTItem) (w : world) :
  update_item_in_frame con item w = (Ok tt, persisted_world con item [] w).
Proof.
  unfold update_item_in_frame, frame_set, bind, get_self, put_self.
  cbn. f_equal. destruct w. same_world.
Qed.

(** A wrong answer: lines 325 to 335. *)
Lemma grade_wrong (con : constants) (today : date) (i : nat) (item : WTItem)
    (right_answers : list str) (answer : str) (l : locals) (w : world) (v : Z) :
  answer ∉ right_answers ->
  success_number item = VInt v ->
  let v' := v - 1 - (if bool_decide (answer = []) then 1 else 0) in
  grade con today i item right_answers answer l w
  = (let* old := get_item con today i in
     ret (Next {| old_item := Some old; is_last_wrong := true |}))
      (persisted_world con (set_success_number (VInt v') item)
         [PWrong right_answers (transcription item); PSuccesses (VInt v')] w).
Proof.
  intros Hin Hv v'. unfold grade.
  rewrite bool_decide_eq_false_2 by done.
  unfold bind at 1, print at 1.
  unfold bind at 1, lift at 1. rewrite Hv. cbn [py_add].
  unfold bind at 1.
  assert (E : (if bool_decide (answer = [])
               then lift (Ok (VInt (v + -1 + -1)))
               else ret (VInt (v + -1)))
              = ret (VInt v')).
  { unfold v'. destruct (bool_decide (answer = [])); unfold lift, ret;
      [replace (v + -1 + -1) with (v - 1 - 1) by lia
      |replace (v + -1) with (v - 1 - 0) by lia]; reflexivity. }
  rewrite E. unfold ret at 1.
  unfold bind at 1. rewrite update_item_in_frame_run.
  unfold bind at 1, print at 1.
  cbn [success_number set_success_number].
  f_equal. same_world.
Qed.

(** A right answer: lines 317 to 323, and 334 to 335 below the
    threshold. *)
Lemma grade_right (con : constants) (today : date) (i : nat) (item : WTItem)
    (right_answers : list str) (answer : str) (l : locals) (w : world) (v : Z) :
  answer ∈ right_answers ->
  success_number item = VInt v ->
  let item' := set_success_number (VInt (v + 1)) item in
  grade con today i item right_answers answer l w
  = if max_success_number (self w) <=? v + 1 then
      (Ok (Next {| old_item := old_item l; is_last_wrong := false |}),
       persisted_world con item'
         [PRight (transcription item); PSkipped (word item)] w)
    else
      (let* old := get_item con today i in
       ret (Next {| old_item := Some old; is_last_wrong := false |}))
        (persisted_world con item'
           [PRight (transcription item); PSuccesses (VInt (v + 1))] w).
Proof.
  intros Hin Hv item'. unfold grade.
  rewrite bool_decide_eq_true_2 by done.
  unfold bind at 1, print at 1.
  unfold bind at 1, lift at 1. rewrite Hv. cbn [py_add].
  unfold bind at 1. rewrite update_item_in_frame_run.
  unfold bind at 1, get_self at 1.
  unfold bind at 1, lift at 1.
  cbn [success_number set_success_number py_ge].
  change (max_success_number (self (persisted_world con
           (set_success_number (VInt (v + 1)) item) []
           (set_stdout (stdout w ++ [PRight (transcription item)]) w))))
    with (max_success_number (self w)).
  destruct (max_success_number (self w) <=? v + 1).
  - unfold bind, print, ret. f_equal. same_world.
  - unfold bind at 1, print at 1. f_equal. same_world.
Qed.

Lemma input_run (prompt : event) (w : world) (raw : str) (rest : list str) :
  stdin w = raw :: rest ->
  input prompt w
  = (Ok raw, set_stdin rest (set_stdout (stdout w ++ [prompt]) w)).
Proof.
  intros Hin. unfold input, bind, print. cbn [stdin set_stdout].
  now rewrite Hin.
Qed.

(** The correction of the previous turn: lines 298 to 314. *)
Lemma bonus_correction_eq (con : constants) (item old : WTItem) (l : locals)
    (w : world) (v : Z) (raw : str) (rest : list str) :
  old_item l = Some old ->
  success_number old = VInt v ->
  stdin w = raw :: rest ->
  let old' := set_success_number (VInt (v + 2)) old in
  let reached := max_success_number (self w) <=? v + 2 in
  bonus_correction con item l w
  = (Ok ({| old_item := if reached then None else Some old';
            is_last_wrong := is_last_wrong l |},
         if bool_decide (process_answer raw = quit_token) then None
         else Some (process_answer raw)),
     set_stdin rest
       (persisted_world con old'
          (PBonus (word old) (VInt (v + 2))
           :: (if reached then [PSkipped (word old)] else [])
           ++ [PWord (word item); PInputTranslation]) w)).
Proof.
  intros Hold Hv Hin old' reached.
  unfold bonus_correction, update_item_in_frame, frame_set, get_answer, input,
    bind, ret, lift, print, get_self, put_self.
  rewrite Hold, Hv.
  cbn -[process_answer quit_token loc_set Z.add Z.leb].
  subst reached old'.
  destruct (max_success_number (self w) <=? v + 2);
    cbn -[process_answer quit_token loc_set Z.add Z.leb]; rewrite Hin;
    destruct (bool_decide (process_answer raw = quit_token));
    f_equal; same_world.
Qed.

(** ** A turn of the loop *)

Lemma randint_position (size r : nat) :
  size ≠ 0%nat ->
  randint 0 (Z.of_nat size - 1) r = Ok (Z.of_nat (r mod size)).
Proof.
  intros Hs. unfold randint.
  rewrite (proj2 (Z.ltb_ge _ _)) by lia.
  f_equal. rewrite Nat2Z.inj_mod.
  replace (Z.of_nat size - 1 - 0 + 1) with (Z.of_nat size) by lia.
  apply Z.add_0_l.
Qed.

Lemma get_item_keeps_stdin (con : constants) (today : date) (i : nat)
    (w : world) :
  stdin (get_item con today i w).2 = stdin w.
Proof.
  rewrite get_item_eq.
  destruct (vocabulary (self w) !! i) as [d|]; [|reflexivity].
  destruct (bool_decide (d ≠ ∅)); [|reflexivity]. cbn zeta.
  destruct (due _ _ _) as [[|]| |]; reflexivity.
Qed.

(** The turn up to the first answer: lines 284 to 294. *)
Lemma turn_asks (con : constants) (today : date) (r : nat) (l : locals)
    (w w1 : world) (item : WTItem) (tr raw : str) (rest : list str) :
  vocabulary_size (self w) ≠ 0%nat ->
  let i := (r mod vocabulary_size (self w))%nat in
  get_item con today i w = (Ok item, w1) ->
  truthy (word item) = true ->
  translation item = VStr tr ->
  stdin w = raw :: rest ->
  let right_answers := map process_answer (str_split 44 tr) in
  let answer := process_answer raw in
  let w2 := set_stdin rest
              (set_stdout (stdout w1 ++ [PWord (word item); PInputTranslation])
                 w1) in
  turn con today r l w
  = if bool_decide (answer = quit_token) then (Ok Break, w2)
    else if bool_decide (answer = bonus_token) && is_last_wrong l then
      (let* (l, again) := bonus_correction con item l in
       match again with
       | None => ret Break
       | Some answer => grade con today i item right_answers answer l
       end) w2
    else grade con today i item right_answers answer l w2.
Proof.
  intros Hsize i Hget Hword Htr Hin right_answers answer w2.
  unfold turn. unfold bind at 1, get_self at 1.
  unfold bind at 1, lift at 1. rewrite (randint_position _ r Hsize).
  rewrite Nat2Z.id. fold i.
  unfold bind at 1. rewrite Hget. rewrite Hword.
  unfold bind at 1, lift at 1. rewrite Htr. cbn [py_split].
  fold right_answers.
  pose proof (get_item_keeps_stdin con today i w) as Hkeep.
  rewrite Hget, Hin in Hkeep. cbn in Hkeep.
  unfold bind at 1, print at 1.
  unfold bind at 1, get_answer, input, bind at 1, print at 1. cbn [stdin set_stdout].
  rewrite Hkeep. fold answer.
  assert (Hw2 : set_stdin rest
            (set_stdout
               (stdout (set_stdout (stdout w1 ++ [PWord (word item)]) w1)
                ++ [PInputTranslation])
               (set_stdout (stdout w1 ++ [PWord (word item)]) w1)) = w2)
    by (unfold w2; same_world).
  rewrite Hw2. destruct (bool_decide (answer = quit_token)); [reflexivity|].
  now destruct (bool_decide (answer = bonus_token) && is_last_wrong l).
Qed.

Lemma persisted_world_row (con : constants) (item : WTItem) (out : list event)
    (w : world) (j : nat) (r : dict) :
  index item = Some j ->
  rows (vocabulary_frame (self w)) !! j = Some r ->
  rows (vocabulary_frame (self (persisted_world con item out w))) !! j
  = Some (<[SUCCESS_NUMBER con := success_number item]>
            (<[LEARNING_DATE con := learning_date item]> r)).
Proof.
  intros Hj Hr. pose proof (lookup_lt_Some _ _ _ Hr) as Hlt.
  unfold persisted_world. cbn [self vocabulary_frame]. rewrite Hj.
  rewrite loc_set_rows by (rewrite loc_set_rows, length_alter; done).
  rewrite loc_set_rows by done.
  now rewrite list_alter_alter_eq, list_lookup_alter_eq, Hr.
Qed.

(** Lines 297 to 314 as they are written: when the previous answer was
    wrong and the answer to the current word normalises to ["+"], the
    count [v] that [old_item] holds, which is the one it was read with
    from the record dicts and not the one in the frame, is raised by 2
    and written to the frame only; if it has reached the threshold the
    notice is printed and [old_item] becomes [None]; the current word
    is then asked again, the quit token ends the loop there, and any
    other answer is the one that is graded. *)
Lemma bonus_credits_previous_item (con : constants) (today : date)
    (r : nat) (l : locals) (w w1 : world) (item old : WTItem)
    (tr raw1 raw2 : str) (rest : list str) (v : Z) (j : nat) (rj : dict) :
  vocabulary_size (self w) ≠ 0%nat ->
  let i := (r mod vocabulary_size (self w))%nat in
  get_item con today i w = (Ok item, w1) ->
  truthy (word item) = true ->
  translation item = VStr tr ->
  stdin w = raw1 :: raw2 :: rest ->
  process_answer raw1 = bonus_token ->
  is_last_wrong l = true ->
  old_item l = Some old ->
  success_number old = VInt v ->
  index old = Some j ->
  rows (vocabulary_frame (self w1)) !! j = Some rj ->
  let old' := set_success_number (VInt (v + 2)) old in
  let reached := max_success_number (self w) <=? v + 2 in
  let l' := {| old_item := if reached then None else Some old';
               is_last_wrong := true |} in
  let w3 :=
    set_stdin rest
      (persisted_world con old'
         ([PWord (word item); PInputTranslation;
           PBonus (word old) (VInt (v + 2))]
          ++ (if reached then [PSkipped (word old)] else [])
          ++ [PWord (word item); PInputTranslation]) w1) in
  turn con today r l w
  = (if bool_decide (process_answer raw2 = quit_token) then (Ok Break, w3)
     else grade con today i item (map process_answer (str_split 44 tr))
            (process_answer raw2) l' w3)
  /\ rows (vocabulary_frame (self w3)) !! j
     = Some (<[SUCCESS_NUMBER con := VInt (v + 2)]>
               (<[LEARNING_DATE con := learning_date old]> rj))
  /\ vocabulary (self w3) = vocabulary (self w1).
Proof.
  intros Hsize i Hget Hword Htr Hin Hplus Hwrong Hold Hv Hj Hrj
    old' reached l' w3.
  split; [|split].
  - rewrite (turn_asks con today r l w w1 item tr raw1 (raw2 :: rest)
               Hsize Hget Hword Htr Hin).
    rewrite Hplus, Hwrong.
    rewrite bool_decide_eq_false_2 by discriminate.
    rewrite bool_decide_eq_true_2 by reflexivity.
    cbn [andb]. unfold bind at 1.
    pose proof (get_item_keeps_threshold con today i w) as Hmax.
    rewrite Hget in Hmax. cbn [snd] in Hmax.
    erewrite (bonus_correction_eq con item old l _ v raw2 rest Hold Hv)
      by reflexivity.
    cbn [self set_stdin set_stdout]. rewrite Hmax, Hwrong.
    fold reached. fold old'. fold l'.
    assert (Hw3 : set_stdin rest
              (persisted_world con old'
                 (PBonus (word old) (VInt (v + 2))
                  :: (if reached then [PSkipped (word old)] else [])
                  ++ [PWord (word item); PInputTranslation])
                 (set_stdin (raw2 :: rest)
                    (set_stdout
                       (stdout w1 ++ [PWord (word item); PInputTranslation])
                       w1))) = w3)
      by (unfold w3; same_world).
    rewrite Hw3.
    now destruct (bool_decide (process_answer raw2 = quit_token)).
  - unfold w3. cbn [self set_stdin].
    now rewrite (persisted_world_row con old' _ w1 j rj Hj Hrj).
  - reflexivity.
Qed.

(** ** Reading a position again (line 335) *)

Lemma due_cleared (con : constants) (today : date) :
  due con today (VStr []) = Ok false.
Proof. reflexivity. Qed.

(** When [get_item] returned an item of position [i], a second call on
    the same day, with the vocabulary and the threshold as the first
    call left them, changes nothing and returns an item with the same
    count. *)
Lemma get_item_again (con : constants) (today : date) (i : nat)
    (w w1 w2 : world) (item : WTItem) :
  LEARNING_DATE con ≠ SUCCESS_NUMBER con ->
  get_item con today i w = (Ok item, w1) ->
  index item = Some i ->
  vocabulary (self w2) = vocabulary (self w1) ->
  max_success_number (self w2) = max_success_number (self w) ->
  exists old,
    get_item con today i w2 = (Ok old, w2)
    /\ index old = Some i
    /\ success_number old = success_number item.
Proof.
  intros Hne Hget Hi Hvoc Hmax. rewrite get_item_eq in Hget.
  rewrite get_item_eq, Hvoc, Hmax.
  destruct (vocabulary (self w) !! i) as [d|] eqn:Hd; [|discriminate].
  destruct (bool_decide (d ≠ ∅)) eqn:Hnonempty;
    [|injection Hget as <- _; discriminate].
  cbn zeta in Hget.
  destruct (due con today (learning_date (read_item con (Some i) d)))
    as [[|]| |] eqn:Hdue; [| |discriminate..].
  - destruct (0 <? max_success_number (self w)) eqn:Hpos;
      injection Hget as <- <-; [|discriminate].
    cbn [come_back_world self vocabulary].
    rewrite list_lookup_alter_eq, Hd. cbn [fmap option_fmap option_map].
    rewrite bool_decide_eq_true_2 by apply come_back_record_nonempty.
    cbn zeta. cbn [learning_date success_number read_item]. unfold dict_get.
    rewrite come_back_record_date by done.
    rewrite come_back_record_success.
    cbn [default id]. rewrite due_cleared. cbn [py_lt rbind]. rewrite Hpos.
    eexists. split; [reflexivity|]. split; [reflexivity|].
    cbn [success_number read_item come_back_item set_success_number].
    unfold dict_get. now rewrite come_back_record_success.
  - destruct (py_lt (success_number (read_item con (Some i) d))
                (max_success_number (self w))) as [[|]| |] eqn:Hlt;
      cbn [rbind] in Hget; try discriminate;
      injection Hget as <- <-; [|discriminate].
    rewrite Hd, Hnonempty. cbn zeta. rewrite Hdue, Hlt. cbn [rbind].
    eexists. split; [reflexivity|]. split; reflexivity.
Qed.

(** Without any assumption on the column names: when the second call
    returns, it returns an item of position [i] with an integer count. *)
Lemma get_item_again_ok (con : constants) (today : date) (i : nat)
    (w w1 w2 w3 : world) (item old : WTItem) :
  get_item con today i w = (Ok item, w1) ->
  index item = Some i ->
  vocabulary (self w2) = vocabulary (self w1) ->
  max_success_number (self w2) = max_success_number (self w) ->
  get_item con today i w2 = (Ok old, w3) ->
  index old = Some i /\ exists z, success_number old = VInt z.
Proof.
  intros Hget Hi Hvoc Hmax Hagain.
  destruct (get_item_ok _ _ _ _ _ _ Hagain) as [->|[Hidx (z & Hz & _)]];
    [|split; [exact Hidx|now exists z]].
  exfalso. rewrite get_item_eq in Hget.
  rewrite get_item_eq, Hvoc, Hmax in Hagain.
  destruct (vocabulary (self w) !! i) as [d|] eqn:Hd; [|discriminate].
  destruct (bool_decide (d ≠ ∅)) eqn:Hnonempty;
    [|injection Hget as <- _; discriminate].
  cbn zeta in Hget.
  destruct (due con today (learning_date (read_item con (Some i) d)))
    as [[|]| |] eqn:Hdue; [| |discriminate..].
  - destruct (0 <? max_success_number (self w)) eqn:Hpos;
      injection Hget as <- <-; [|discriminate].
    cbn [come_back_world self vocabulary] in Hagain.
    rewrite list_lookup_alter_eq, Hd in Hagain.
    cbn [fmap option_fmap option_map] in Hagain.
    rewrite bool_decide_eq_true_2 in Hagain
      by apply come_back_record_nonempty.
    cbn zeta in Hagain.
    destruct (due con today _) as [[|]| |] in Hagain; [| |discriminate..].
    + discriminate.
    + cbn [success_number read_item] in Hagain. unfold dict_get in Hagain.
      rewrite come_back_record_success in Hagain.
      cbn [default id py_lt rbind] in Hagain. rewrite Hpos in Hagain.
      discriminate.
  - destruct (py_lt (success_number (read_item con (Some i) d))
                (max_success_number (self w))) as [[|]| |] eqn:Hlt;
      cbn [rbind] in Hget; try discriminate;
      injection Hget as <- <-; [|discriminate].
    rewrite Hd, Hnonempty in Hagain. cbn zeta in Hagain.
    rewrite Hdue, Hlt in Hagain. discriminate.
Qed.

(** ** What the loop leaves alone *)

Lemma keeps_ret {A} (a : A) : keeps_store (ret a).
Proof. now intros w. Qed.

Lemma keeps_lift {A} (r : result A) : keeps_store (lift r).
Proof. now intros w. Qed.

Lemma keeps_print (e : event) : keeps_store (print e).
Proof. now intros w. Qed.

Lemma keeps_get_self : keeps_store get_self.
Proof. now intros w. Qed.

Lemma keeps_bind {A B} (m : M A) (k : A -> M B) :
  keeps_store m -> (forall a, keeps_store (k a)) -> keeps_store (bind m k).
Proof.
  intros Hm Hk w. unfold bind. specialize (Hm w).
  destruct (m w) as [[a| |] w1]; cbn [snd] in *; [|exact Hm..].
  destruct (Hk a w1) as [Hv Ht]. destruct Hm as [Hv1 Ht1].
  split; congruence.
Qed.

Lemma keeps_input (prompt : event) : keeps_store (input prompt).
Proof.
  apply keeps_bind; [apply keeps_print|]. intros _ w.
  now destruct (stdin w).
Qed.

Lemma keeps_update_item_in_frame (con : constants) (item : WTItem) :
  keeps_store (update_item_in_frame con item).
Proof. intros w. now rewrite update_item_in_frame_run. Qed.

Lemma keeps_bonus_correction (con : constants) (item : WTItem) (l : locals) :
  keeps_store (bonus_correction con item l).
Proof.
  unfold bonus_correction.
  apply keeps_bind; [destruct (old_item l); [apply keeps_ret|apply keeps_lift]|].
  intros old. apply keeps_bind; [apply keeps_lift|]. intros credited.
  apply keeps_bind; [apply keeps_print|]. intros _.
  apply keeps_bind; [apply keeps_update_item_in_frame|]. intros _.
  apply keeps_bind; [apply keeps_get_self|]. intros t.
  apply keeps_bind; [apply keeps_lift|]. intros reached.
  apply keeps_bind.
  { destruct reached; [|apply keeps_ret].
    apply keeps_bind; [apply keeps_print|]. intros _. apply keeps_ret. }
  intros kept. apply keeps_bind; [apply keeps_print|]. intros _.
  apply keeps_bind; [apply keeps_input|]. intros raw.
  destruct (bool_decide _); apply keeps_ret.
Qed.

Lemma get_item_real (con : constants) (today : date) (i : nat) (w w' : world)
    (it : WTItem) :
  get_item con today i w = (Ok it, w') ->
  truthy (word it) = true ->
  index it = Some i
  /\ exists z, success_number it = VInt z /\ z < max_success_number (self w).
Proof.
  intros Hget Hword.
  now destruct (get_item_ok _ _ _ _ _ _ Hget) as [->|H].
Qed.

(** ** The previous item across turns *)

Lemma grade_next (con : constants) (today : date) (i : nat) (item : WTItem)
    (right_answers : list str) (answer : str) (l l' : locals)
    (w0 w1 w w' : world) :
  get_item con today i w0 = (Ok item, w1) ->
  truthy (word item) = true ->
  vocabulary (self w) = vocabulary (self w1) ->
  max_success_number (self w) = max_success_number (self w0) ->
  grade con today i item right_answers answer l w = (Ok (Next l'), w') ->
  retry_ready l'.
Proof.
  intros Hget Hword Hvoc Hmax Hgrade Hwrong.
  destruct (get_item_real _ _ _ _ _ _ Hget Hword) as [Hi (v & Hv & _)].
  destruct (decide (answer ∈ right_answers)) as [Hin|Hin].
  - rewrite (grade_right con today i item right_answers answer l w v Hin Hv)
      in Hgrade.
    destruct (max_success_number (self w) <=? v + 1).
    + injection Hgrade as <- _. discriminate.
    + apply bind_inv in Hgrade as (old & w2 & _ & Hret).
      injection Hret as <- _. discriminate.
  - rewrite (grade_wrong con today i item right_answers answer l w v Hin Hv)
      in Hgrade.
    apply bind_inv in Hgrade as (old & w2 & Hagain & Hret).
    injection Hret as <- _.
    pose proof (fun H1 H2 =>
                  get_item_again_ok con today i w0 w1 _ w2 item old
                    Hget Hi H1 H2 Hagain) as Hreal.
    destruct (Hreal Hvoc Hmax) as [Hidx [z Hz]].
    now exists old, i, z.
Qed.

Lemma turn_next (con : constants) (today : date) (r : nat) (l l' : locals)
    (w w' : world) :
  retry_ready l ->
  turn con today r l w = (Ok (Next l'), w') ->
  retry_ready l'.
Proof.
  intros Hl Hturn. unfold turn in Hturn.
  apply bind_inv in Hturn as (t & w0 & [= <- <-] & Hturn).
  apply bind_inv in Hturn as (drawn & w0 & [= _ <-] & Hturn).
  apply bind_inv in Hturn as (item & w1 & Hget & Hturn).
  destruct (truthy (word item)) eqn:Hword;
    [|injection Hturn as <- _; exact Hl].
  apply bind_inv in Hturn as (pieces & w2 & [= _ <-] & Hturn).
  apply bind_inv in Hturn as ([] & w2 & [= <-] & Hturn).
  apply bind_inv in Hturn as (raw & w3 & Hraw & Hturn).
  assert (Hkeep : vocabulary (self w3) = vocabulary (self w1)
                  /\ max_success_number (self w3) = max_success_number (self w)).
  { pose proof (keeps_input PInputTranslation
                  (set_stdout (stdout w1 ++ [PWord (word item)]) w1)) as Hk.
    unfold get_answer in Hraw. rewrite Hraw in Hk. cbn [snd] in Hk.
    pose proof (get_item_keeps_threshold con today (Z.to_nat drawn) w) as Hm.
    rewrite Hget in Hm. cbn [snd] in Hm.
    destruct Hk as [Hk1 Hk2]. split; [exact Hk1|]. now rewrite Hk2. }
  destruct Hkeep as [Hvoc Hmax].
  destruct (bool_decide (process_answer raw = quit_token)); [discriminate|].
  destruct (bool_decide (process_answer raw = bonus_token) && is_last_wrong l).
  - apply bind_inv in Hturn as ([l1 again] & w4 & Hbonus & Hturn).
    destruct again as [answer|]; [|discriminate].
    pose proof (keeps_bonus_correction con item l w3) as Hk.
    rewrite Hbonus in Hk. cbn [snd] in Hk. destruct Hk as [Hk1 Hk2].
    eapply (grade_next con today _ item _ answer l1 l' w w1 w4 w' Hget Hword);
      [congruence|congruence|exact Hturn].
  - eapply (grade_next con today _ item _ _ l l' w w1 w3 w' Hget Hword);
      [congruence|congruence|exact Hturn].
Qed.

Lemma guarded_turn_next (con : constants) (today : date) (r : nat)
    (l l' : locals) (w w' : world) :
  guarded_turn con today r l w = (Ok (Next l'), w') ->
  turn con today r l w = (Ok (Next l'), w').
Proof.
  unfold guarded_turn.
  destruct (turn con today r l w) as [[s|e|] w1]; [easy| |easy].
  destruct (caught e); [|easy]. unfold bind, print, ret. discriminate.
Qed.

(** The correction up to the second prompt can only fail for lack of
    input once the previous item is there with an integer count. *)
Lemma bonus_correction_runs (con : constants) (item old : WTItem)
    (l : locals) (w : world) (z : Z) :
  old_item l = Some old ->
  success_number old = VInt z ->
  match (bonus_correction con item l w).1 with
  | Ok _ => True
  | Raise e => e = EOFError
  | Starved => False
  end.
Proof.
  intros Hold Hz. destruct (stdin w) as [|raw rest] eqn:Hin.
  - unfold bonus_correction, update_item_in_frame, frame_set, get_answer,
      input, bind, ret, lift, print, get_self, put_self.
    rewrite Hold, Hz.
    cbn -[process_answer quit_token loc_set Z.add Z.leb].
    destruct (max_success_number (self w) <=? z + 2);
      cbn -[process_answer quit_token loc_set Z.add Z.leb];
      now rewrite Hin.
  - now rewrite (bonus_correction_eq con item old l w z raw rest Hold Hz Hin).
Qed.

(** C10.  At the top of every iteration of the loop, if the last answer
    was wrong then [old_item] is an item of some position of the
    vocabulary, neither [None] nor the empty item, and its count is an
    integer: [old_item.success_number += 2] succeeds, and the correction
    can only stop at the second prompt, for lack of input. *)
Theorem old_item_is_real (con : constants) (l : locals) (w : world) :
  at_loop_top con l w ->
  is_last_wrong l = true ->
  exists (old : WTItem) (j : nat) (z : Z),
    old_item l = Some old
    /\ index old = Some j
    /\ bool_decide (old = WTItem_empty) = false
    /\ success_number old = VInt z
    /\ py_add (success_number old) 2 = Ok (VInt (z + 2))
    /\ forall (item : WTItem) (w0 : world),
        match (bonus_correction con item l w0).1 with
        | Ok _ => True
        | Raise e => e = EOFError
        | Starved => False
        end.
Proof.
  intros Htop.
  assert (Hready : retry_ready l).
  { induction Htop as [old w|today r l l' w w' Htop IH Hturn].
    - intros Hwrong. discriminate.
    - apply guarded_turn_next in Hturn. exact (turn_next _ _ _ _ _ _ _ IH Hturn). }
  intros Hwrong. destruct (Hready Hwrong) as (old & j & z & Hold & Hj & Hz).
  exists old, j, z. split; [exact Hold|]. split; [exact Hj|].
  split; [|split; [exact Hz|split]].
  - apply bool_decide_eq_false_2. intros ->. discriminate.
  - now rewrite Hz.
  - intros item w0. exact (bonus_correction_runs con item old l w0 z Hold Hz).
Qed.

Lemma drill_next (con : constants) (today : date) (r : nat)
    (later : list nat) (l l' : locals) (w w' : world) :
  guarded_turn con today r l w = (Ok (Next l'), w') ->
  drill con today (r :: later) l w = drill con today later l' w'.
Proof. intros H. cbn [drill]. unfold bind. now rewrite H. Qed.

(** A wrong answer for an item [get_item] has just returned: the turn
    ends normally. *)
Lemma grade_wrong_next (con : constants) (today : date) (i : nat)
    (item : WTItem) (right_answers : list str) (answer : str) (l : locals)
    (w0 w1 w : world) (v : Z) :
  LEARNING_DATE con ≠ SUCCESS_NUMBER con ->
  get_item con today i w0 = (Ok item, w1) ->
  truthy (word item) = true ->
  success_number item = VInt v ->
  vocabulary (self w) = vocabulary (self w1) ->
  max_success_number (self w) = max_success_number (self w0) ->
  answer ∉ right_answers ->
  let v' := v - 1 - (if bool_decide (answer = []) then 1 else 0) in
  exists old,
    grade con today i item right_answers answer l w
    = (Ok (Next {| old_item := Some old; is_last_wrong := true |}),
       persisted_world con (set_success_number (VInt v') item)
         [PWrong right_answers (transcription item); PSuccesses (VInt v')] w).
Proof.
  intros Hne Hget Hword Hv Hvoc Hmax Hin v'.
  destruct (get_item_real _ _ _ _ _ _ Hget Hword) as [Hi _].
  rewrite (grade_wrong con today i item right_answers _ l w v Hin Hv).
  fold v'.
  destruct (get_item_again con today i w0 w1
              (persisted_world con (set_success_number (VInt v') item)
                 [PWrong right_answers (transcription item);
                  PSuccesses (VInt v')] w)
              item Hne Hget Hi Hvoc Hmax)
    as (old & Hagain & _).
  exists old. unfold bind. now rewrite Hagain.
Qed.

(** The same seen from the top of the turn, when the first answer is
    the one that is graded. *)
Lemma turn_wrong_answer (con : constants) (today : date) (r : nat)
    (l : locals) (w w1 : world) (item : WTItem) (tr raw : str)
    (rest : list str) (v : Z) :
  LEARNING_DATE con ≠ SUCCESS_NUMBER con ->
  vocabulary_size (self w) ≠ 0%nat ->
  let i := (r mod vocabulary_size (self w))%nat in
  get_item con today i w = (Ok item, w1) ->
  truthy (word item) = true ->
  translation item = VStr tr ->
  success_number item = VInt v ->
  stdin w = raw :: rest ->
  let right_answers := map process_answer (str_split 44 tr) in
  let answer := process_answer raw in
  answer ≠ quit_token ->
  bool_decide (answer = bonus_token) && is_last_wrong l = false ->
  answer ∉ right_answers ->
  let v' := v - 1 - (if bool_decide (answer = []) then 1 else 0) in
  exists old,
    turn con today r l w
    = (Ok (Next {| old_item := Some old; is_last_wrong := true |}),
       set_stdin rest
         (persisted_world con (set_success_number (VInt v') item)
            [PWord (word item); PInputTranslation;
             PWrong right_answers (transcription item);
             PSuccesses (VInt v')] w1)).
Proof.
  intros Hne Hsize i Hget Hword Htr Hv Hin right_answers answer Hquit Hbonus
    Hwrong v'.
  rewrite (turn_asks con today r l w w1 item tr raw rest
             Hsize Hget Hword Htr Hin).
  fold answer. rewrite bool_decide_eq_false_2 by done. rewrite Hbonus.
  pose proof (get_item_keeps_threshold con today i w) as Hmax.
  rewrite Hget in Hmax. cbn [snd] in Hmax.
  destruct (grade_wrong_next con today i item right_answers answer l w w1
              (set_stdin rest
                 (set_stdout
                    (stdout w1 ++ [PWord (word item); PInputTranslation]) w1))
              v Hne Hget Hword Hv eq_refl Hmax Hwrong)
    as (old & Hgrade).
  exists old. cbv beta iota zeta. fold i right_answers answer.
  rewrite Hgrade. f_equal. same_world.
Qed.

(** Lines 324 to 335 as they are written: an answer that is none of the
    accepted translations, given for an item [get_item] returned at
    position [i]: the count written to the frame, and to the frame
    only, is the count [v] of the item, which is the one of the record
    dicts, less 1, and less 2 when the normalised answer is empty, as
    it is for the empty raw answer; the notice and the new count are
    printed, the turn ends normally and the next turn starts with
    [is_last_wrong] true. *)
Lemma wrong_answer_penalty (con : constants) (today : date) (i : nat)
    (item : WTItem) (right_answers : list str) (raw : str) (l : locals)
    (w0 w1 w : world) (ri : dict) (v : Z) :
  LEARNING_DATE con ≠ SUCCESS_NUMBER con ->
  get_item con today i w0 = (Ok item, w1) ->
  truthy (word item) = true ->
  success_number item = VInt v ->
  vocabulary (self w) = vocabulary (self w1) ->
  max_success_number (self w) = max_success_number (self w0) ->
  rows (vocabulary_frame (self w)) !! i = Some ri ->
  process_answer raw ∉ right_answers ->
  let v' := v - 1 - (if bool_decide (process_answer raw = []) then 1 else 0) in
  let w' :=
    persisted_world con (set_success_number (VInt v') item)
      [PWrong right_answers (transcription item); PSuccesses (VInt v')] w in
  (exists old,
      grade con today i item right_answers (process_answer raw) l w
      = (Ok (Next {| old_item := Some old; is_last_wrong := true |}), w'))
  /\ rows (vocabulary_frame (self w')) !! i
     = Some (<[SUCCESS_NUMBER con := VInt v']>
               (<[LEARNING_DATE con := learning_date item]> ri))
  /\ process_answer [] = [].
Proof.
  intros Hne Hget Hword Hv Hvoc Hmax Hri Hin v' w'.
  destruct (get_item_real _ _ _ _ _ _ Hget Hword) as [Hi _].
  split; [|split; [|reflexivity]].
  - exact (grade_wrong_next con today i item right_answers _ l w0 w1 w v
             Hne Hget Hword Hv Hvoc Hmax Hin).
  - unfold w'.
    now rewrite (persisted_world_row con (set_success_number (VInt v') item)
                   _ w i ri Hi Hri).
Qed.

(** ** Saving the vocabulary *)

(** X8.  While the file stays free once it has been released, saving
    asks the operator once per failed attempt and then writes the frame
    (the [else] branch writes it a second time). *)
Lemma save_vocabulary_released (n : nat) :
  forall (lines rest : list str) (later : list bool) (w : world),
    length lines = n ->
    stdin w = lines ++ rest ->
    save_vocabulary (repeat true n ++ false :: false :: later) w
    = (Ok tt,
       {| self := self w;
          stdin := rest;
          stdout := stdout w ++ repeat (PCloseFile (filename (self w))) n;
          disk := disk w ++ [vocabulary_frame (self w);
                             vocabulary_frame (self w)] |}).
Proof.
  induction n as [|n IH]; intros lines rest later w Hlen Hin.
  - destruct lines; [|discriminate]. cbn in Hin. cbn.
    unfold set_disk. cbn. rewrite app_nil_r, <- app_assoc, Hin.
    reflexivity.
  - destruct lines as [|line lines]; [discriminate|].
    injection Hlen as Hlen. cbn [repeat app save_vocabulary to_csv].
    unfold bind at 1, get_self at 1. unfold bind at 1.
    rewrite (input_run _ w line (lines ++ rest) Hin).
    erewrite (IH lines rest later _ Hlen) by reflexivity.
    cbn. now rewrite <- app_assoc.
Qed.

(** ** The end of [run] *)

(** Once the loop has ended, the summary and the saving follow. *)
Lemma run_after_loop (con : constants) (today : date) (draws : list nat)
    (locks : list bool) (w w1 w2 : world) (old : WTItem) :
  get_item con today 0 w = (Ok old, w1) ->
  drill con today draws {| old_item := Some old; is_last_wrong := false |}
    (set_stdout (stdout w1 ++ [PStart]) w1) = (Ok tt, w2) ->
  run con today draws locks w
  = (print_result con;; save_vocabulary locks) w2.
Proof.
  intros Hget Hdrill. unfold run.
  unfold bind at 1. rewrite Hget.
  unfold bind at 1, print at 1.
  unfold bind at 1. now rewrite Hdrill.
Qed.

(** The quit token at the first prompt of a turn, and an exception the
    [except] clause names, both end the loop normally. *)
Lemma drill_quits (con : constants) (today : date) (r : nat)
    (later : list nat) (l : locals) (w w1 : world) :
  turn con today r l w = (Ok Break, w1) ->
  drill con today (r :: later) l w = (Ok tt, w1).
Proof.
  intros H. cbn [drill]. unfold bind, guarded_turn. now rewrite H.
Qed.

Lemma drill_catches (con : constants) (today : date) (r : nat)
    (later : list nat) (l : locals) (w w1 : world) (e : exn) :
  turn con today r l w = (Raise e, w1) ->
  caught e = true ->
  drill con today (r :: later) l w
  = (Ok tt, set_stdout (stdout w1 ++ [PError e; PErrorArgs e]) w1).
Proof.
  intros H He. cbn [drill]. unfold bind at 1, guarded_turn. rewrite H, He.
  unfold bind, print, ret. cbn. now rewrite <- app_assoc.
Qed.

(** * Worked sessions *)

(** C1.  Threshold 3 and a word with count 2: after one right answer the
    notice that the word will be skipped is printed and the frame holds
    3, but the record dict still holds 2, so [get_item] on the position
    still returns the word, and the next draw of the position asks it
    again. *)
Theorem graduated_word_is_asked_again :
  let w := session 3 [cat (VInt 2) VNaN] [lit "kot"; lit "-1"] in
  let word_cat := VStr (lit "cat") in
  let first := read_item con_sample (Some 0%nat) (cat (VInt 2) VNaN) in
  let l := {| old_item := Some first; is_last_wrong := false |} in
  let w1 := (guarded_turn con_sample a_day 0 l w).2 in
  (guarded_turn con_sample a_day 0 l w).1
  = Ok (Next {| old_item := Some first; is_last_wrong := false |})
  /\ stdout w1 = [PWord word_cat; PInputTranslation;
                  PRight (VStr (lit "kat")); PSkipped word_cat]
  /\ frame_count w1 0 = Some (VInt 3)
  /\ record_count w1 0 = Some (VInt 2)
  /\ (get_item con_sample a_day 0 w1).1 = Ok first
  /\ truthy (word first) = true
  /\ stdout (run con_sample a_day [0; 0]%nat [false; false] w).2
     = [PStart; PWord word_cat; PInputTranslation;
        PRight (VStr (lit "kat")); PSkipped word_cat;
        PWord word_cat; PInputTranslation; PLearned 1 1].
Proof. by_evaluation. Qed.

(** C2.  The frame and the record dicts agree when the session starts;
    a graded answer is written to the frame only, here a wrong answer
    for a word with count 1: the frame holds 0 afterwards, the record
    dict 1, and the two no longer agree. *)
Theorem drill_writes_the_frame_only :
  let w := session 5 [dog (VInt 1) VNaN] [lit "cat"] in
  let first := read_item con_sample (Some 0%nat) (dog (VInt 1) VNaN) in
  let l := {| old_item := Some first; is_last_wrong := false |} in
  let w1 := (guarded_turn con_sample a_day 0 l w).2 in
  bool_decide
    (to_dict_records (vocabulary_frame (self w)) = vocabulary (self w))
  = true
  /\ (guarded_turn con_sample a_day 0 l w).1
     = Ok (Next {| old_item := Some first; is_last_wrong := true |})
  /\ frame_count w1 0 = Some (VInt 0)
  /\ record_count w1 0 = Some (VInt 1)
  /\ bool_decide
       (to_dict_records (vocabulary_frame (self w1)) = vocabulary (self w1))
     = false.
Proof. by_evaluation. Qed.

(** C3.  A learning date that is no calendar date in the first record:
    the [get_item] of line 279, before the [try], raises [ValueError]
    out of [run]; nothing is printed and nothing is saved.  And a count
    that is a string in a later record: the [TypeError] is caught in the
    loop, but the comparison of [print_result] raises it again, and the
    frame is not saved. *)
Theorem run_can_skip_the_summary :
  let bad_date := session 3 [cat (VInt 0) (VStr (lit "2024-13-45"))]
                    [lit "-1"] in
  let bad_count := session 3 [cat VNaN VNaN; dog (VStr (lit "abc")) VNaN]
                     [lit "-1"] in
  (run con_sample a_day [0%nat] [false; false] bad_date).1
  = Raise ValueError
  /\ stdout (run con_sample a_day [0%nat] [false; false] bad_date).2 = []
  /\ disk (run con_sample a_day [0%nat] [false; false] bad_date).2 = []
  /\ (run con_sample a_day [1%nat] [false; false] bad_count).1
     = Raise TypeError
  /\ stdout (run con_sample a_day [1%nat] [false; false] bad_count).2
     = [PStart; PError TypeError; PErrorArgs TypeError]
  /\ disk (run con_sample a_day [1%nat] [false; false] bad_count).2 = [].
Proof. by_evaluation. Qed.

(** C5.  Threshold 5 and a word with count 2: a wrong answer writes 1
    to the frame; the ["+"] typed at the next prompt then writes 4: the
    count that is raised by 2 is the one [old_item] was read with from
    the record dicts, which still hold 2, so the stored count rises by
    3, and 4 is what the file gets; the record dicts hold 2 to the
    end. *)
Theorem bonus_lifts_stored_count_by_three :
  let w := session 5 [dog (VInt 2) VNaN] [lit "cat"; lit "+"; lit "-1"] in
  let word_dog := VStr (lit "dog") in
  let first := read_item con_sample (Some 0%nat) (dog (VInt 2) VNaN) in
  let l := {| old_item := Some first; is_last_wrong := false |} in
  let l1 := {| old_item := Some first; is_last_wrong := true |} in
  let w1 := (guarded_turn con_sample a_day 0 l w).2 in
  let w2 := (guarded_turn con_sample a_day 0 l1 w1).2 in
  let end_ := (run con_sample a_day [0; 0]%nat [false; false] w).2 in
  (guarded_turn con_sample a_day 0 l w).1 = Ok (Next l1)
  /\ frame_count w1 0 = Some (VInt 1)
  /\ record_count w1 0 = Some (VInt 2)
  /\ (guarded_turn con_sample a_day 0 l1 w1).1 = Ok Break
  /\ frame_count w2 0 = Some (VInt 4)
  /\ record_count w2 0 = Some (VInt 2)
  /\ stdout end_
     = [PStart; PWord word_dog; PInputTranslation;
        PWrong [lit "pyos"; lit "sobaka"] word_dog; PSuccesses (VInt 1);
        PWord word_dog; PInputTranslation; PBonus word_dog (VInt 4);
        PWord word_dog; PInputTranslation; PLearned 0 1]
  /\ file_counts end_ 0 = [Some (VInt 4); Some (VInt 4)].
Proof. by_evaluation. Qed.

(** C6.  Threshold 5 and a word with count 2: a right answer writes 3
    to the frame; the wrong answer that follows writes 1, two less
    than what was stored, and a second wrong answer writes 1 again:
    each time the count that is lowered is the one of the record
    dicts, which hold 2 to the end.  Likewise two empty answers in a
    row for a word with count 1 leave -1 in the frame, not -3. *)
Theorem wrong_answer_lowers_the_loaded_count :
  let w := session 5 [dog (VInt 2) VNaN]
             [lit "sobaka"; lit "cat"; lit "cat"; lit "-1"] in
  let first := read_item con_sample (Some 0%nat) (dog (VInt 2) VNaN) in
  let l := {| old_item := Some first; is_last_wrong := false |} in
  let l' := {| old_item := Some first; is_last_wrong := true |} in
  let w1 := (guarded_turn con_sample a_day 0 l w).2 in
  let w2 := (guarded_turn con_sample a_day 0 l w1).2 in
  let w3 := (guarded_turn con_sample a_day 0 l' w2).2 in
  let end_ := (run con_sample a_day [0; 0; 0; 0]%nat [false; false] w).2 in
  let blank := session 5 [dog (VInt 1) VNaN] [[]; []; lit "-1"] in
  let blank_end :=
    (run con_sample a_day [0; 0; 0]%nat [false; false] blank).2 in
  (guarded_turn con_sample a_day 0 l w).1 = Ok (Next l)
  /\ frame_count w1 0 = Some (VInt 3)
  /\ (guarded_turn con_sample a_day 0 l w1).1 = Ok (Next l')
  /\ frame_count w2 0 = Some (VInt 1)
  /\ (guarded_turn con_sample a_day 0 l' w2).1 = Ok (Next l')
  /\ frame_count w3 0 = Some (VInt 1)
  /\ record_count w3 0 = Some (VInt 2)
  /\ file_counts end_ 0 = [Some (VInt 1); Some (VInt 1)]
  /\ file_counts blank_end 0 = [Some (VInt (-1)); Some (VInt (-1))].
Proof. by_evaluation. Qed.

(** C9.  When the file is free at the first write and locked at the
    second one, the one of the [else] branch, [save_vocabulary] raises
    [PermissionError] after one write, without asking the operator. *)
Theorem save_vocabulary_can_raise (later : list bool) (w : world) :
  save_vocabulary (false :: true :: later) w
  = (Raise PermissionError,
     set_disk (disk w ++ [vocabulary_frame (self w)]) w).
Proof. reflexivity. Qed.

Lemma get_item_comes_back_once_witness :
  let w := session 3 [cat (VInt 3) (VStr (lit "2024-01-05"))] [] in
  exists it w',
    get_item con_sample a_day 0 w = (Ok it, w')
    /\ record_count w' 0 = Some (VInt 0)
    /\ frame_count w' 0 = Some (VInt 0)
    /\ stdout w'
       = [PNotRepeated (VStr (lit "cat")) (VStr (lit "2024-01-05"))]
    /\ exists it', get_item con_sample a_day 0 w' = (Ok it', w').
Proof.
  intros w.
  destruct (get_item_comes_back_once con_sample a_day 0 w
              (cat (VInt 3) (VStr (lit "2024-01-05")))
              (cat (VInt 3) (VStr (lit "2024-01-05")))
              (lit "2024-01-05") 133)
    as (it & w' & d' & r' & Hget & Hd' & Hd0 & _ & Hr' & Hr0 & _ & Hout & _
        & _ & Honce);
    [discriminate|reflexivity|reflexivity|reflexivity|reflexivity
    |reflexivity|reflexivity|].
  exists it, w'. split; [exact Hget|]. split; [|split; [|split]].
  - unfold record_count, dict_get. rewrite Hd'.
    cbn [fmap option_fmap option_map]. now rewrite Hd0.
  - unfold frame_count, cell. rewrite Hr'.
    cbn [fmap option_fmap option_map]. now rewrite Hr0.
  - exact Hout.
  - exact (Honce a_day).
Defined.

Lemma old_item_is_real_witness :
  let w := session 5 [dog (VInt 1) VNaN] [lit "cat"] in
  let first := read_item con_sample (Some 0%nat) (dog (VInt 1) VNaN) in
  let l := {| old_item := Some first; is_last_wrong := false |} in
  let l' := {| old_item := Some first; is_last_wrong := true |} in
  guarded_turn con_sample a_day 0 l w
  = (Ok (Next l'), (guarded_turn con_sample a_day 0 l w).2)
  /\ exists old z,
      old_item l' = Some old
      /\ py_add (success_number old) 2 = Ok (VInt (z + 2)).
Proof.
  intros w first l l'.
  assert (Hturn : guarded_turn con_sample a_day 0 l w
                  = (Ok (Next l'), (guarded_turn con_sample a_day 0 l w).2))
    by (vm_compute; reflexivity).
  split; [exact Hturn|].
  destruct (old_item_is_real con_sample l'
              (guarded_turn con_sample a_day 0 l w).2)
    as (old & j & z & Hold & _ & _ & _ & Hadd & _).
  - exact (at_next_turn con_sample a_day 0 l l' w _
             (at_first_turn con_sample first w) Hturn).
  - reflexivity.
  - now exists old, z.
Defined.

(** * Further properties of the code *)

(** ** [get_item] at the edges *)

(** X1.  A position past the end of the vocabulary, in particular
    position 0 of an empty vocabulary: [get_item] raises [IndexError]
    and changes nothing. *)
Theorem get_item_out_of_range (con : constants) (today : date) (i : nat)
    (w : world) :
  (vocabulary_size (self w) <= i)%nat ->
  get_item con today i w = (Raise IndexError, w).
Proof.
  intros Hi. rewrite get_item_eq.
  now rewrite (lookup_ge_None_2 _ _ Hi).
Qed.

Lemma get_item_out_of_range_witness :
  get_item con_sample a_day 0 (session 3 [] []) = (Raise IndexError, session 3 [] [])
  /\ (run con_sample a_day [0%nat] [false; false] (session 3 [] [])).1
     = Raise IndexError.
Proof.
  split.
  - apply (get_item_out_of_range con_sample a_day 0 (session 3 [] [])).
    vm_compute. lia.
  - reflexivity.
Defined.

Lemma py_int_errors (s : str) (e : exn) :
  py_int s = Raise e -> e = ValueError.
Proof.
  unfold py_int. cbv zeta.
  match goal with
  | |- context [let (_, _) := ?parts in _] =>
      destruct parts as [negative digits]
  end.
  destruct (digits_value 0 false digits); [|congruence].
  destruct (_ <? _)%nat; [congruence|discriminate].
Qed.

Lemma date_of_parts_errors (parts : list str) (e : exn) :
  date_of_parts parts = Raise e ->
  e = ValueError \/ e = IndexError \/ e = OverflowError.
Proof.
  unfold date_of_parts, list_get.
  repeat match goal with
    | |- context [parts !! ?k] => destruct (parts !! k); cbn [rbind]
    | |- context [py_int ?t] =>
        let H := fresh in
        destruct (py_int t) eqn:H; cbn [rbind];
        [|apply py_int_errors in H as ->|]
    end;
    try (intros [= <- ]; auto); try discriminate.
  unfold date_init.
  repeat match goal with
    | |- context [if ?x then _ else _] => destruct x
    end;
    intros [= <- ]; auto.
Qed.

Lemma days_since_errors (today : date) (v : value) (e : exn) :
  days_since today v = Raise e ->
  e = ValueError \/ e = IndexError \/ e = OverflowError
  \/ e = AttributeError.
Proof.
  unfold days_since. destruct v as [| |z|s]; cbn [py_split rbind];
    try (intros [= <- ]; auto).
  destruct (date_of_parts _) as [d|e'|] eqn:Hd; cbn [rbind];
    intros [= <- ].
  destruct (date_of_parts_errors _ _ Hd) as [-> | [-> | ->]]; auto.
Qed.

(** X2.  A learning date that is set but is no calendar date: [get_item]
    raises what the conversion raised and has neither changed nor
    printed anything.  The exception is one of four, and the loop
    catches only [ValueError] and [IndexError] among them.  The
    conversion is the one of [int] and [date]: digits of any script
    make a date, a numeral of more than 4300 digits is a
    [ValueError]. *)
Theorem get_item_bad_date (con : constants) (today : date) (i : nat)
    (w : world) (d : dict) (e : exn) :
  vocabulary (self w) !! i = Some d ->
  date_is_set (dict_get d (LEARNING_DATE con)) = true ->
  days_since today (dict_get d (LEARNING_DATE con)) = Raise e ->
  get_item con today i w = (Raise e, w)
  /\ (e = ValueError \/ e = IndexError \/ e = OverflowError
      \/ e = AttributeError)
  /\ caught e = bool_decide (e = ValueError \/ e = IndexError).
Proof.
  intros Hd Hset He. split; [|split].
  - rewrite get_item_eq, Hd.
    rewrite bool_decide_eq_true_2.
    + cbn zeta. cbn [learning_date read_item]. unfold due.
      now rewrite Hset, He.
    + intros ->. unfold dict_get in Hset. now rewrite lookup_empty in Hset.
  - exact (days_since_errors _ _ _ He).
  - destruct (days_since_errors _ _ _ He) as [->|[-> | [-> | ->]]]; reflexivity.
Qed.

Lemma get_item_bad_date_witness :
  let w := session 3 [cat (VInt 0) (VStr (lit "2024-13-45"))] [] in
  let v := session 3 [cat (VInt 0) (VInt 20240105)] [] in
  let long := repeat 49%N 4301 ++ lit "-01-05" in
  let u := session 3 [cat (VInt 0) (VStr long)] [] in
  let wide := [65298; 65296; 65298; 65300; 45; 1632; 1633; 45; 48; 53]%N in
  let t := session 3 [cat (VInt 3) (VStr wide)] [] in
  get_item con_sample a_day 0 w = (Raise ValueError, w)
  /\ get_item con_sample a_day 0 v = (Raise AttributeError, v)
  /\ get_item con_sample a_day 0 u = (Raise ValueError, u)
  /\ record_count (get_item con_sample a_day 0 t).2 0 = Some (VInt 0).
Proof.
  intros w v long u wide t. split; [|split; [|split]].
  - apply (get_item_bad_date con_sample a_day 0 w
             (cat (VInt 0) (VStr (lit "2024-13-45"))) ValueError);
      vm_compute; reflexivity.
  - apply (get_item_bad_date con_sample a_day 0 v
             (cat (VInt 0) (VInt 20240105)) AttributeError);
      vm_compute; reflexivity.
  - apply (get_item_bad_date con_sample a_day 0 u
             (cat (VInt 0) (VStr long)) ValueError);
      vm_compute; reflexivity.
  - vm_compute. reflexivity.
Defined.

(** X3.  [get_item] reads no input and writes no file, keeps the file
    name, the threshold, the columns it finds and the number of
    records, and leaves every record and row but the one at position
    [i] as it is. *)
Theorem get_item_touches_one_record (con : constants) (today : date)
    (i : nat) (w : world) :
  length (rows (vocabulary_frame (self w))) = vocabulary_size (self w) ->
  let w' := (get_item con today i w).2 in
  stdin w' = stdin w /\ disk w' = disk w
  /\ filename (self w') = filename (self w)
  /\ max_success_number (self w') = max_success_number (self w)
  /\ vocabulary_size (self w') = vocabulary_size (self w)
  /\ length (rows (vocabulary_frame (self w')))
     = length (rows (vocabulary_frame (self w)))
  /\ forall j, j ≠ i ->
       vocabulary (self w') !! j = vocabulary (self w) !! j
       /\ rows (vocabulary_frame (self w')) !! j
          = rows (vocabulary_frame (self w)) !! j.
Proof.
  intros Hlen w'. subst w'. rewrite get_item_eq.
  destruct (vocabulary (self w) !! i) as [d|] eqn:Hd; [|now repeat split].
  destruct (bool_decide (d ≠ ∅)); [|now repeat split]. cbn zeta.
  destruct (due _ _ _) as [[|]| |]; try (now repeat split).
  pose proof (lookup_lt_Some _ _ _ Hd) as Hi.
  unfold vocabulary_size in *. rewrite <- Hlen in Hi.
  cbn [snd come_back_world self stdin disk filename max_success_number
       vocabulary vocabulary_frame].
  rewrite !loc_set_rows by (rewrite ?loc_set_rows, ?length_alter; done).
  rewrite !length_alter.
  repeat split; try reflexivity.
  - now apply list_lookup_alter_ne.
  - rewrite !list_lookup_alter_ne by done. reflexivity.
Qed.

Lemma get_item_touches_one_record_witness :
  let w := session 3 [cat (VInt 3) (VStr (lit "2024-01-05"));
                      dog (VInt 1) VNaN] [lit "kot"] in
  let w' := (get_item con_sample a_day 0 w).2 in
  stdin w' = stdin w
  /\ vocabulary (self w') !! 1%nat = vocabulary (self w) !! 1%nat
  /\ record_count w' 0 = Some (VInt 0).
Proof.
  intros w w'.
  destruct (get_item_touches_one_record con_sample a_day 0 w eq_refl)
    as (Hin & _ & _ & _ & _ & _ & Hother).
  split; [exact Hin|]. split; [|reflexivity].
  apply (Hother 1%nat). discriminate.
Defined.

(** ** Writing back one item *)

(** X4.  [__update_item_in_vocabulary] writes both fields of the record
    at the item's position or raises without having written either:
    [TypeError] for the empty item, which has no position, [IndexError]
    for a position past the end. *)
Theorem update_item_in_vocabulary_atomic (con : constants) (item : WTItem)
    (w : world) :
  match index item, update_item_in_vocabulary con item w with
  | None, out => out = (Raise TypeError, w)
  | Some i, out =>
      match vocabulary (self w) !! i with
      | None => out = (Raise IndexError, w)
      | Some d =>
          out.1 = Ok tt
          /\ vocabulary (self out.2)
             = <[i := <[SUCCESS_NUMBER con := success_number item]>
                        (<[LEARNING_DATE con := learning_date item]> d)]>
                 (vocabulary (self w))
          /\ vocabulary_frame (self out.2) = vocabulary_frame (self w)
          /\ stdout out.2 = stdout w /\ stdin out.2 = stdin w
          /\ disk out.2 = disk w
      end
  end.
Proof.
  unfold update_item_in_vocabulary, vocabulary_set, bind, get_self, put_self,
    lift, list_get.
  destruct (index item) as [i|]; [|reflexivity].
  cbn [self set_self set_vocabulary vocabulary].
  destruct (vocabulary (self w) !! i) as [d|] eqn:Hd; [|reflexivity].
  change (vocabulary (self (set_self (set_vocabulary ?v ?t) ?w'))) with v.
  rewrite list_lookup_alter_eq, Hd.
  cbn [fmap option_fmap option_map fst snd self set_self set_vocabulary
       vocabulary vocabulary_frame stdout stdin disk].
  repeat split.
  rewrite list_alter_alter_eq. apply list_eq. intros j.
  destruct (decide (i = j)) as [<-|Hne].
  - rewrite list_lookup_alter_eq, Hd.
    rewrite list_lookup_insert_eq by (eapply lookup_lt_Some; exact Hd).
    reflexivity.
  - rewrite list_lookup_alter_ne, list_lookup_insert_ne by done. reflexivity.
Qed.

(** ** The record dicts and the frame *)

Lemma record_of_lookup (cols : list str) (r : dict) (k : str) :
  record_of cols r !! k
  = if bool_decide (k ∈ cols) then Some (cell r k) else None.
Proof.
  unfold record_of. induction cols as [|c cols IH].
  - cbn. rewrite lookup_empty.
    now rewrite bool_decide_eq_false_2 by apply not_elem_of_nil.
  - cbn [map]. rewrite list_to_map_cons.
    destruct (decide (c = k)) as [->|Hne].
    + rewrite lookup_insert_eq.
      now rewrite bool_decide_eq_true_2 by (apply elem_of_cons; now left).
    + rewrite lookup_insert_ne, IH by done.
      destruct (decide (k ∈ cols)) as [Hin|Hout].
      * rewrite !bool_decide_eq_true_2;
          [reflexivity|apply elem_of_cons; now right|exact Hin].
      * rewrite !bool_decide_eq_false_2; [reflexivity| |exact Hout].
        intros [Heq|Hin]%elem_of_cons; [congruence|contradiction].
Qed.

Lemma record_of_insert (cols : list str) (r : dict) (c : str) (v : value) :
  c ∈ cols ->
  record_of cols (<[c := v]> r) = <[c := v]> (record_of cols r).
Proof.
  intros Hc. apply map_eq. intros k. rewrite record_of_lookup.
  destruct (decide (c = k)) as [<-|Hne].
  - rewrite lookup_insert_eq, bool_decide_eq_true_2 by done.
    unfold cell. now rewrite lookup_insert_eq.
  - rewrite lookup_insert_ne, record_of_lookup by done.
    unfold cell. now rewrite lookup_insert_ne.
Qed.

Lemma map_alter {A B} (f : A -> B) (g : A -> A) (h : B -> B) (i : nat)
    (l : list A) :
  (forall x, f (g x) = h (f x)) ->
  map f (alter g i l) = alter h i (map f l).
Proof.
  intros Hfg. revert i. induction l as [|a l IH]; intros [|i]; cbn;
    [reflexivity..| |]; f_equal; auto.
Qed.

Lemma to_dict_records_loc_set (f : DataFrame) (i : nat) (c : str) (v : value) :
  c ∈ columns f ->
  (i < length (rows f))%nat ->
  columns (loc_set f (Some i) c v) = columns f
  /\ to_dict_records (loc_set f (Some i) c v)
     = alter (insert c v) i (to_dict_records f).
Proof.
  intros Hc Hi.
  assert (Hcols : columns (loc_set f (Some i) c v) = columns f)
    by (unfold loc_set; cbn; now rewrite bool_decide_eq_true_2).
  split; [exact Hcols|].
  unfold to_dict_records. rewrite Hcols, loc_set_rows by done.
  apply map_alter. intros r. now apply (record_of_insert (columns f)).
Qed.

(** X5.  The record [WordsTutor.__init__] makes of a row of the frame
    has exactly the columns of the frame as keys: a column gives the
    cell of the row, [nan] for a blank one, any other key gives [None];
    the record is empty only for a frame without columns. *)
Theorem WordsTutor_init_records (name : str) (max : Z) (f : DataFrame)
    (i : nat) (r : dict) :
  rows f !! i = Some r ->
  exists d,
    vocabulary (WordsTutor_init name max f) !! i = Some d
    /\ (forall k, dict_get d k
                  = if bool_decide (k ∈ columns f) then cell r k else VNone)
    /\ bool_decide (d = ∅) = bool_decide (columns f = [])
    /\ vocabulary_size (WordsTutor_init name max f) = length (rows f).
Proof.
  intros Hr. exists (record_of (columns f) r).
  split; [|split; [|split]].
  - cbn. unfold to_dict_records.
    change (map ?g ?l !! i) with ((g <$> l) !! i).
    now rewrite list_lookup_fmap, Hr.
  - intros k. unfold dict_get. rewrite record_of_lookup.
    now destruct (bool_decide (k ∈ columns f)).
  - destruct (columns f) as [|c cols] eqn:Hcols.
    + now rewrite !bool_decide_eq_true_2.
    + rewrite !bool_decide_eq_false_2; [reflexivity|discriminate|].
      intros Hempty.
      pose proof (record_of_lookup (c :: cols) r c) as Hc.
      rewrite Hempty, lookup_empty in Hc.
      now rewrite bool_decide_eq_true_2 in Hc
        by (apply elem_of_cons; now left).
  - cbn. unfold vocabulary_size, to_dict_records. cbn. apply length_map.
Qed.

Lemma WordsTutor_init_records_witness :
  exists d,
    vocabulary (self (session 3 [dog (VInt 1) VNaN] [])) !! 0%nat = Some d
    /\ dict_get d (lit "learning_date") = VNaN
    /\ dict_get d (lit "comment") = VNone.
Proof.
  destruct (WordsTutor_init_records (lit "words.csv") 3
              (frame_of con_sample [dog (VInt 1) VNaN]) 0
              (dog (VInt 1) VNaN) eq_refl)
    as (d & Hd & Hget & _).
  exists d. split; [exact Hd|].
  split; rewrite Hget; reflexivity.
Defined.

(** X6.  When the frame and the record dicts hold the same cells and
    the frame has the two columns, they still do after [get_item],
    whatever it returned or raised: a word that comes back is reset in
    both. *)
Theorem get_item_keeps_lockstep (con : constants) (today : date) (i : nat)
    (w : world) :
  LEARNING_DATE con ∈ columns (vocabulary_frame (self w)) ->
  SUCCESS_NUMBER con ∈ columns (vocabulary_frame (self w)) ->
  in_lockstep (self w) ->
  in_lockstep (self (get_item con today i w).2).
Proof.
  intros Hld Hsn Hlock. rewrite get_item_eq.
  destruct (vocabulary (self w) !! i) as [d|] eqn:Hd; [|exact Hlock].
  destruct (bool_decide (d ≠ ∅)); [|exact Hlock]. cbn zeta.
  destruct (due _ _ _) as [[|]| |]; try exact Hlock.
  unfold in_lockstep in *.
  cbn [snd come_back_world self vocabulary vocabulary_frame].
  assert (Hi : (i < length (rows (vocabulary_frame (self w))))%nat).
  { apply lookup_lt_Some in Hd. rewrite <- Hlock in Hd.
    unfold to_dict_records in Hd. now rewrite length_map in Hd. }
  destruct (to_dict_records_loc_set (vocabulary_frame (self w)) i
              (LEARNING_DATE con) (VStr []) Hld Hi) as [Hc1 Hr1].
  destruct (to_dict_records_loc_set
              (loc_set (vocabulary_frame (self w)) (Some i)
                 (LEARNING_DATE con) (VStr []))
              i (SUCCESS_NUMBER con) (VInt 0)) as [_ Hr2].
  { now rewrite Hc1. }
  { now rewrite loc_set_rows, length_alter by done. }
  rewrite Hr2, Hr1, Hlock, list_alter_alter_eq. reflexivity.
Qed.

Lemma get_item_keeps_lockstep_witness :
  let w := session 3 [cat (VInt 3) (VStr (lit "2024-01-05"))] [] in
  in_lockstep (self (get_item con_sample a_day 0 w).2)
  /\ record_count (get_item con_sample a_day 0 w).2 0 = Some (VInt 0).
Proof.
  intros w. split; [|reflexivity].
  apply (get_item_keeps_lockstep con_sample a_day 0 w).
  - apply (bool_decide_unpack _). vm_compute. exact I.
  - apply (bool_decide_unpack _). vm_compute. exact I.
  - apply (bool_decide_unpack _). vm_compute. exact I.
Defined.

(** ** The summary *)

Lemma result_list_numbers (max : Z) (col : list value) :
  forallb is_number col = true ->
  result_list (map (fun v => py_ge v max) col) = Ok (map (learned max) col).
Proof.
  induction col as [|v col IH]; [reflexivity|]. cbn [forallb map result_list].
  intros [Hv Hcol]%andb_prop. rewrite (IH Hcol).
  destruct v; try discriminate; reflexivity.
Qed.


Lemma count_learned (max : Z) (col : list value) :
  length (filter (fun b : bool => b = true) (map (learned max) col))
  = length (filter (fun v => learned max v = true) col).
Proof.
  induction col as [|v col IH]; [reflexivity|]. cbn [map].
  rewrite !filter_cons. destruct (learned max v) eqn:Hv.
  - rewrite !decide_True by done. cbn. now rewrite IH.
  - rewrite !decide_False by done. exact IH.
Qed.

Lemma print_result_numbers (con : constants) (w : world) :
  let t := self w in
  let col := map (fun r => cell r (SUCCESS_NUMBER con))
               (rows (vocabulary_frame t)) in
  SUCCESS_NUMBER con ∈ columns (vocabulary_frame t) ->
  forallb is_number col = true ->
  print_result con w
  = (Ok tt,
     set_stdout
       (stdout w
        ++ [PLearned
              (length (filter
                         (fun v => learned (max_success_number t) v = true)
                         col))
              (vocabulary_size t)]) w).
Proof.
  intros t col Hin Hcol.
  unfold print_result, bind, get_self, lift, frame_column. fold t.
  rewrite bool_decide_eq_true_2 by exact Hin. cbn [fst snd]. fold col.
  rewrite (result_list_numbers _ _ Hcol). unfold print.
  now rewrite count_learned.
Qed.


(** ** Saving *)

Lemma save_vocabulary_released_witness :
  let w := session 3 [dog (VInt 1) VNaN] [lit "ok"; lit "done"; lit "later"] in
  (save_vocabulary [true; true; false; false] w).1 = Ok tt
  /\ stdin (save_vocabulary [true; true; false; false] w).2 = [lit "later"]
  /\ length (disk (save_vocabulary [true; true; false; false] w).2) = 2%nat.
Proof.
  intros w.
  pose proof (save_vocabulary_released 2 [lit "ok"; lit "done"] [lit "later"] [] w
                eq_refl eq_refl) as Hsave.
  change (repeat true 2 ++ [false; false])
    with [true; true; false; false] in Hsave.
  rewrite Hsave. repeat split.
Defined.

Lemma save_vocabulary_locked_eof (later : list bool) (w : world) :
  stdin w = [] ->
  save_vocabulary (true :: later) w
  = (Raise EOFError,
     set_stdout (stdout w ++ [PCloseFile (filename (self w))]) w).
Proof.
  intros Hin. cbn [save_vocabulary to_csv].
  unfold bind, get_self, input, bind, print. cbn [stdin set_stdout].
  now rewrite Hin.
Qed.

Lemma save_vocabulary_locked_line (later : list bool) (w : world)
    (line : str) (rest : list str) :
  stdin w = line :: rest ->
  save_vocabulary (true :: later) w
  = save_vocabulary later
      (set_stdin rest
         (set_stdout (stdout w ++ [PCloseFile (filename (self w))]) w)).
Proof.
  intros Hin. cbn [save_vocabulary to_csv].
  unfold bind, get_self, input, bind, print. cbn [stdin set_stdout].
  now rewrite Hin.
Qed.

(** X9.  What [save_vocabulary] does, for every sequence of lock states
    and every input.  Each refused write prints one request to close
    the file and reads one line: of the [refusals locks] refused writes
    at the head of the sequence, all are made when the input has that
    many lines, and one more than the input has lines otherwise, the
    last request ending in [EOFError].  The tutor is never changed.
    After the refusals the frame is written twice and the method
    returns, or once when the write of the [else] branch is refused,
    which raises [PermissionError]. *)
Theorem save_vocabulary_effect (locks : list bool) (w : world) :
  let r := refusals locks in
  let m := length (stdin w) in
  let out := save_vocabulary locks w in
  let frame := vocabulary_frame (self w) in
  self out.2 = self w
  /\ stdout out.2
     = stdout w ++ repeat (PCloseFile (filename (self w))) (r `min` S m)
  /\ stdin out.2 = drop r (stdin w)
  /\ if (m <? r)%nat then out.1 = Raise EOFError /\ disk out.2 = disk w
     else match drop r locks with
          | false :: false :: _ =>
              out.1 = Ok tt /\ disk out.2 = disk w ++ [frame; frame]
          | false :: true :: _ =>
              out.1 = Raise PermissionError /\ disk out.2 = disk w ++ [frame]
          | [false] => out.1 = Starved /\ disk out.2 = disk w ++ [frame]
          | _ => out.1 = Starved /\ disk out.2 = disk w
          end.
Proof.
  revert w. induction locks as [|locked later IH]; intros w; cbv zeta.
  - cbn. rewrite app_nil_r. now destruct (stdin w).
  - destruct locked.
    + cbn [refusals]. destruct (stdin w) as [|line rest] eqn:Hin.
      * rewrite (save_vocabulary_locked_eof later w Hin).
        cbn [length Nat.min snd fst self stdout stdin disk set_stdout
             repeat drop Nat.ltb Nat.leb].
        now rewrite Hin, Nat.min_0_r.
      * rewrite (save_vocabulary_locked_line later w line rest Hin).
        specialize (IH (set_stdin rest
                          (set_stdout
                             (stdout w ++ [PCloseFile (filename (self w))])
                             w))).
        cbv zeta in IH. cbn [self stdin stdout disk set_stdin set_stdout] in IH.
        destruct IH as (Hself & Hout & Hrest & Hres).
        split; [exact Hself|]. split; [|split].
        -- rewrite Hout, <- app_assoc. f_equal.
        -- exact Hrest.
        -- exact Hres.
    + cbn [refusals drop Nat.min repeat Nat.ltb Nat.leb].
      rewrite app_nil_r. cbn [save_vocabulary to_csv].
      destruct later as [|[|] later'];
        cbn [to_csv fst snd self stdout stdin disk set_disk drop];
        repeat (split; [reflexivity|]); try reflexivity.
      now rewrite <- app_assoc.
Qed.

(** ** What a session keeps *)

Lemma maintains_ret {A} (I : world -> Prop) (a : A) (Q : A -> Prop) :
  Q a -> maintains I (ret a) Q.
Proof. intros Ha w Hw. now split. Qed.

Lemma maintains_lift {A} (I : world -> Prop) (r : result A) (Q : A -> Prop) :
  match r with Ok a => Q a | _ => True end -> maintains I (lift r) Q.
Proof. intros Hr w Hw. now split. Qed.

Lemma maintains_bind {A B} (I : world -> Prop) (m : M A) (k : A -> M B)
    (Q : A -> Prop) (R : B -> Prop) :
  maintains I m Q ->
  (forall a, Q a -> maintains I (k a) R) ->
  maintains I (bind m k) R.
Proof.
  intros Hm Hk w Hw. unfold bind. destruct (Hm w Hw) as [Hw1 Ha].
  destruct (m w) as [[a| |] w1]; cbn [fst snd] in *; [|now split..].
  exact (Hk a Ha w1 Hw1).
Qed.

Lemma maintains_weaken {A} (I : world -> Prop) (m : M A) (Q R : A -> Prop) :
  maintains I m Q -> (forall a, Q a -> R a) -> maintains I m R.
Proof.
  intros Hm HQR w Hw. destruct (Hm w Hw) as [Hw1 Ha]. split; [exact Hw1|].
  destruct (m w).1; auto.
Qed.

Lemma same_words_refl (con : constants) (l : list dict) : same_words con l l.
Proof. apply Forall_Forall2_diag, Forall_forall. now intros d _ k _ _. Qed.

Lemma same_words_alter (con : constants) (before after : list dict)
    (i : nat) (k : str) (v : value) :
  k = LEARNING_DATE con \/ k = SUCCESS_NUMBER con ->
  same_words con before after ->
  same_words con before (alter (insert k v) i after).
Proof.
  intros Hk Hsame. apply Forall2_alter_r; [exact Hsame|].
  intros d0 d _ _ Hd c Hld Hsn.
  rewrite lookup_insert_ne by (destruct Hk; congruence). now apply Hd.
Qed.

Section Frozen.
Variable con : constants.
Variable w0 : world.
Hypothesis has_date : LEARNING_DATE con ∈ columns (vocabulary_frame (self w0)).
Hypothesis has_count :
  SUCCESS_NUMBER con ∈ columns (vocabulary_frame (self w0)).
Hypothesis same_size :
  length (rows (vocabulary_frame (self w0))) = vocabulary_size (self w0).

Let n : nat := vocabulary_size (self w0).
Let Inv : world -> Prop := frozen con w0.

Lemma frozen_start : Inv w0.
Proof.
  repeat split; try apply same_words_refl.
  exists []. now rewrite app_nil_r.
Qed.

Lemma frozen_sizes (w : world) :
  Inv w ->
  length (rows (vocabulary_frame (self w))) = n
  /\ vocabulary_size (self w) = n.
Proof.
  intros (_ & _ & [_ Hrows] & Hvoc & _). unfold n, vocabulary_size.
  apply Forall2_length in Hrows, Hvoc. rewrite <- Hrows, <- Hvoc.
  now split.
Qed.

Lemma maintains_print (e : event) : maintains Inv (print e) (fun _ => True).
Proof. intros w Hw. now split. Qed.

Lemma maintains_get_self : maintains Inv get_self (fun _ => True).
Proof. intros w Hw. now split. Qed.

Lemma maintains_input (prompt : event) :
  maintains Inv (input prompt) (fun _ => True).
Proof.
  intros w Hw. unfold input, bind, print. cbn [stdin set_stdout].
  destruct (stdin w); now split.
Qed.

Lemma maintains_frame_set (i : nat) (k : str) (v : value) :
  (i < n)%nat ->
  k = LEARNING_DATE con \/ k = SUCCESS_NUMBER con ->
  maintains Inv (frame_set (Some i) k v) (fun _ => True).
Proof.
  intros Hi Hk w Hw. split; [|exact I].
  destruct (frozen_sizes w Hw) as [Hrows _].
  destruct Hw as (Hname & Hmax & [Hcols Hsame] & Hvoc & Hdisk).
  unfold frame_set, bind, get_self, put_self. cbn [fst snd].
  repeat split; try assumption; cbn [self set_self set_vocabulary_frame
    vocabulary_frame].
  - unfold loc_set. cbn [columns]. rewrite Hcols.
    now rewrite bool_decide_eq_true_2 by (destruct Hk as [-> | ->]; done).
  - rewrite loc_set_rows by lia. now apply same_words_alter.
Qed.

Lemma maintains_update_item_in_frame (item : WTItem) (i : nat) :
  index item = Some i -> (i < n)%nat ->
  maintains Inv (update_item_in_frame con item) (fun _ => True).
Proof.
  intros Hitem Hi. unfold update_item_in_frame. rewrite Hitem.
  eapply maintains_bind; [apply maintains_frame_set; auto|].
  intros _ _. apply maintains_frame_set; auto.
Qed.

Lemma maintains_vocabulary_set (i : option nat) (k : str) (v : value) :
  k = LEARNING_DATE con \/ k = SUCCESS_NUMBER con ->
  maintains Inv (vocabulary_set i k v) (fun _ => True).
Proof.
  intros Hk w Hw. split; [|now destruct (vocabulary_set i k v w).1].
  unfold vocabulary_set, bind, get_self, put_self, lift, list_get.
  destruct i as [i|]; [|exact Hw].
  destruct (vocabulary (self w) !! i); [|exact Hw].
  destruct Hw as (Hname & Hmax & Hframe & Hvoc & Hdisk).
  repeat split; try assumption; try apply Hframe.
  cbn [snd self set_self set_vocabulary vocabulary].
  now apply same_words_alter.
Qed.

Lemma maintains_update_item_in_vocabulary (item : WTItem) :
  maintains Inv (update_item_in_vocabulary con item) (fun _ => True).
Proof.
  unfold update_item_in_vocabulary.
  eapply maintains_bind; [apply maintains_vocabulary_set; auto|].
  intros _ _. apply maintains_vocabulary_set; auto.
Qed.
Lemma maintains_self : maintains Inv get_self
  (fun t => vocabulary_size t = n).
Proof.
  intros w Hw. split; [exact Hw|]. exact (proj2 (frozen_sizes w Hw)).
Qed.

Lemma placed_empty : placed n WTItem_empty.
Proof. reflexivity. Qed.

Lemma maintains_come_back (today : date) (item : WTItem) (i : nat) :
  index item = Some i -> (i < n)%nat ->
  maintains Inv (come_back con today item) (fun it => index it = Some i).
Proof.
  intros Hitem Hi. unfold come_back.
  eapply maintains_bind; [apply (maintains_lift Inv _ (fun _ => True));
                          now destruct (days_since _ _)|].
  intros age _. destruct (COMING_BACK_TIME con <? age);
    [|now apply maintains_ret].
  eapply maintains_bind; [apply maintains_print|]. intros _ _.
  eapply maintains_bind; [apply maintains_update_item_in_vocabulary|].
  intros _ _.
  eapply maintains_bind;
    [apply (maintains_update_item_in_frame _ i); [exact Hitem|exact Hi]|].
  intros _ _. now apply maintains_ret.
Qed.

Lemma maintains_get_item (today : date) (i : nat) :
  maintains Inv (get_item con today i) (placed n).
Proof.
  unfold get_item.
  eapply maintains_bind; [apply maintains_self|]. intros t Ht.
  eapply maintains_bind.
  { apply (maintains_lift Inv _ (fun _ => (i < n)%nat)).
    unfold list_get. destruct (vocabulary t !! i) eqn:Hd; [|exact I].
    rewrite <- Ht. exact (lookup_lt_Some _ _ _ Hd). }
  intros d Hi.
  destruct (bool_decide (d ≠ ∅));
    [|apply maintains_lift; exact placed_empty].
  eapply maintains_bind.
  { apply (maintains_lift Inv _ (fun it => index it = Some i)).
    unfold WTItem_init, list_get. now destruct (vocabulary t !! i). }
  intros item Hitem.
  eapply maintains_bind.
  { destruct (date_is_set (learning_date item)).
    - exact (maintains_come_back today item i Hitem Hi).
    - apply maintains_ret. exact Hitem. }
  intros item' Hitem'.
  eapply maintains_bind; [apply maintains_get_self|]. intros t' _.
  eapply maintains_bind;
    [apply (maintains_lift Inv _ (fun _ => True)); now destruct (py_lt _ _)|].
  intros [|] _.
  - apply maintains_ret. unfold placed. now rewrite Hitem'.
  - apply maintains_lift. exact placed_empty.
Qed.

Lemma maintains_print_result : maintains Inv (print_result con) (fun _ => True).
Proof.
  unfold print_result.
  eapply maintains_bind; [apply maintains_get_self|]. intros t _.
  eapply maintains_bind;
    [apply (maintains_lift Inv _ (fun _ => True));
     now destruct (frame_column _ _)|].
  intros col _.
  eapply maintains_bind;
    [apply (maintains_lift Inv _ (fun _ => True));
     now destruct (result_list _)|].
  intros flags _. apply maintains_print.
Qed.

Lemma maintains_to_csv (locked : bool) :
  maintains Inv (to_csv locked) (fun _ => True).
Proof.
  intros w Hw. unfold to_csv. destruct locked; [now split|].
  split; [|exact I].
  destruct Hw as (Hname & Hmax & Hframe & Hvoc & written & Hdisk & Hall).
  repeat split; try assumption; try apply Hframe.
  exists (written ++ [vocabulary_frame (self w)]).
  cbn [snd disk set_disk self]. rewrite Hdisk, app_assoc. split; [done|].
  apply Forall_app. split; [exact Hall|]. now apply Forall_singleton.
Qed.

Lemma maintains_save_vocabulary (locks : list bool) :
  maintains Inv (save_vocabulary locks) (fun _ => True).
Proof.
  induction locks as [|locked later IH]; intros w Hw; [now split|].
  destruct locked.
  - destruct (stdin w) as [|line rest] eqn:Hin.
    + rewrite (save_vocabulary_locked_eof later w Hin). now split.
    + rewrite (save_vocabulary_locked_line later w line rest Hin).
      apply IH. exact Hw.
  - cbn [save_vocabulary]. destruct (maintains_to_csv false w Hw) as [Hw1 _].
    cbn [to_csv] in *. cbn [snd] in Hw1.
    destruct later as [|again later']; [now split|].
    destruct (maintains_to_csv again _ Hw1) as [Hw2 _].
    split; [exact Hw2|]. now destruct (to_csv again _).1.
Qed.

Lemma maintains_bonus_correction (item : WTItem) (l : locals) :
  placed_locals n l ->
  maintains Inv (bonus_correction con item l)
    (fun out => placed_locals n out.1).
Proof.
  intros Hl. unfold bonus_correction. unfold placed_locals in Hl.
  destruct (old_item l) as [old|].
  2: { apply maintains_bind with (Q := fun _ => False);
         [now apply maintains_lift|]. intros _ []. }
  apply maintains_bind with (Q := fun a => a = old);
    [now apply maintains_ret|]. intros ? ->. unfold placed in Hl.
  destruct (index old) as [j|] eqn:Hj.
  - eapply maintains_bind;
      [apply (maintains_lift Inv _ (fun _ => True)); now destruct (py_add _ _)|].
    intros credited _.
    eapply maintains_bind; [apply maintains_print|]. intros _ _.
    eapply maintains_bind;
      [apply (maintains_update_item_in_frame _ j); [exact Hj|exact Hl]|].
    intros _ _.
    eapply maintains_bind; [apply maintains_get_self|]. intros t _.
    eapply maintains_bind;
      [apply (maintains_lift Inv _ (fun _ => True)); now destruct (py_ge _ _)|].
    intros reached _.
    eapply (maintains_bind Inv _ _
              (fun kept => placed_locals n
                 {| old_item := kept; is_last_wrong := is_last_wrong l |})).
    { destruct reached.
      - eapply maintains_bind; [apply maintains_print|]. intros _ _.
        now apply maintains_ret.
      - apply maintains_ret. unfold placed_locals, placed. cbn.
        now rewrite Hj. }
    intros kept Hkept.
    eapply maintains_bind; [apply maintains_print|]. intros _ _.
    eapply maintains_bind; [apply maintains_input|]. intros raw _.
    destruct (bool_decide _); now apply maintains_ret.
  - rewrite Hl. apply maintains_bind with (Q := fun _ => False);
      [now apply maintains_lift|]. intros _ [].
Qed.
Lemma maintains_grade (today : date) (i : nat) (item : WTItem)
    (right_answers : list str) (answer : str) (l : locals) :
  placed n item -> placed_locals n l ->
  maintains Inv (grade con today i item right_answers answer l)
    (placed_signal n).
Proof.
  intros Hitem Hl. unfold grade, placed in *.
  destruct (index item) as [j|] eqn:Hj.
  - destruct (bool_decide (answer ∈ right_answers)).
    + eapply maintains_bind; [apply maintains_print|]. intros _ _.
      eapply maintains_bind;
        [apply (maintains_lift Inv _ (fun _ => True));
         now destruct (py_add _ _)|].
      intros raised _.
      eapply maintains_bind;
        [apply (maintains_update_item_in_frame _ j); [exact Hj|exact Hitem]|].
      intros _ _.
      eapply maintains_bind; [apply maintains_get_self|]. intros t _.
      eapply maintains_bind;
        [apply (maintains_lift Inv _ (fun _ => True));
         now destruct (py_ge _ _)|].
      intros [|] _.
      * eapply maintains_bind; [apply maintains_print|]. intros _ _.
        now apply maintains_ret.
      * eapply maintains_bind; [apply maintains_print|]. intros _ _.
        eapply maintains_bind; [apply maintains_get_item|].
        intros old Hold. now apply maintains_ret.
    + eapply maintains_bind; [apply maintains_print|]. intros _ _.
      eapply maintains_bind;
        [apply (maintains_lift Inv _ (fun _ => True));
         now destruct (py_add _ _)|].
      intros lowered _.
      eapply maintains_bind.
      { apply (maintains_weaken Inv _ (fun _ => True) (fun _ => True));
          [|auto].
        destruct (bool_decide (answer = []));
          [apply maintains_lift; now destruct (py_add _ _)
          |now apply maintains_ret]. }
      intros lowered' _.
      eapply maintains_bind;
        [apply (maintains_update_item_in_frame _ j); [exact Hj|exact Hitem]|].
      intros _ _.
      eapply maintains_bind; [apply maintains_print|]. intros _ _.
      eapply maintains_bind; [apply maintains_get_item|].
      intros old Hold. now apply maintains_ret.
  - rewrite Hitem. destruct (bool_decide (answer ∈ right_answers));
      (eapply maintains_bind; [apply maintains_print|]; intros _ _;
       apply maintains_bind with (Q := fun _ => False);
       [now apply maintains_lift|intros _ []]).
Qed.

Lemma maintains_turn (today : date) (r : nat) (l : locals) :
  placed_locals n l ->
  maintains Inv (turn con today r l) (placed_signal n).
Proof.
  intros Hl. unfold turn.
  eapply maintains_bind; [apply maintains_get_self|]. intros t _.
  eapply maintains_bind;
    [apply (maintains_lift Inv _ (fun _ => True)); now destruct (randint _ _ _)|].
  intros drawn _.
  eapply maintains_bind; [apply maintains_get_item|]. intros item Hitem.
  destruct (truthy (word item)); [|now apply maintains_ret].
  eapply maintains_bind;
    [apply (maintains_lift Inv _ (fun _ => True)); now destruct (py_split _ _)|].
  intros pieces _.
  eapply maintains_bind; [apply maintains_print|]. intros _ _.
  eapply maintains_bind; [apply maintains_input|]. intros raw _.
  destruct (bool_decide (process_answer raw = quit_token));
    [now apply maintains_ret|].
  destruct (bool_decide (process_answer raw = bonus_token) && is_last_wrong l).
  - eapply maintains_bind; [now apply maintains_bonus_correction|].
    intros [l1 [answer|]] Hl1; [|now apply maintains_ret].
    now apply maintains_grade.
  - now apply maintains_grade.
Qed.

Lemma maintains_guarded_turn (today : date) (r : nat) (l : locals) :
  placed_locals n l ->
  maintains Inv (guarded_turn con today r l) (placed_signal n).
Proof.
  intros Hl w Hw. destruct (maintains_turn today r l Hl w Hw) as [Hw1 Hs].
  unfold guarded_turn.
  destruct (turn con today r l w) as [[s|e|] w1]; cbn [fst snd] in *;
    [now split| |now split].
  destruct (caught e); now split.
Qed.

Lemma maintains_drill (today : date) (draws : list nat) (l : locals) :
  placed_locals n l ->
  maintains Inv (drill con today draws l) (fun _ => True).
Proof.
  revert l. induction draws as [|r later IH]; intros l Hl;
    [now apply maintains_lift|].
  cbn [drill].
  eapply maintains_bind; [now apply maintains_guarded_turn|].
  intros [l'|] Hs; [now apply IH|now apply maintains_ret].
Qed.

Lemma maintains_run (today : date) (draws : list nat) (locks : list bool) :
  maintains Inv (run con today draws locks) (fun _ => True).
Proof.
  unfold run.
  eapply maintains_bind; [apply maintains_get_item|]. intros old Hold.
  eapply maintains_bind; [apply maintains_print|]. intros _ _.
  eapply maintains_bind; [now apply maintains_drill|]. intros _ _.
  eapply maintains_bind; [apply maintains_print_result|]. intros _ _.
  apply maintains_save_vocabulary.
Qed.
End Frozen.

(** X10.  A session on a frame that has the two columns and as many
    rows as there are records: whatever is drawn and typed, however the
    file is locked and however [run] ends, the file name, the
    threshold, the columns, the number of rows and every cell outside
    the learning-date and count columns are as at the start, in the
    frame and in the record dicts; the files written before are still
    there, and every file written since is a frame with those columns
    and cells. *)
Theorem run_keeps_the_words (con : constants) (today : date)
    (draws : list nat) (locks : list bool) (w : world) :
  LEARNING_DATE con ∈ columns (vocabulary_frame (self w)) ->
  SUCCESS_NUMBER con ∈ columns (vocabulary_frame (self w)) ->
  length (rows (vocabulary_frame (self w))) = vocabulary_size (self w) ->
  frozen con w (run con today draws locks w).2.
Proof.
  intros Hld Hsn Hsize.
  exact (proj1 (maintains_run con w Hld Hsn Hsize today draws locks w
                  (frozen_start con w))).
Qed.

Lemma run_keeps_the_words_witness :
  let w := session 5 [dog (VInt 2) VNaN; cat (VInt 1) VNaN]
             [lit "cat"; lit "+"; lit "Sobaka "; lit "-1"] in
  let w' := (run con_sample a_day [0; 0; 1]%nat [false; false] w).2 in
  frozen con_sample w w'
  /\ frame_count w' 0 = Some (VInt 3)
  /\ length (disk w') = 2%nat.
Proof.
  intros w w'. split; [|split; reflexivity].
  apply (run_keeps_the_words con_sample a_day [0; 0; 1]%nat [false; false] w).
  - apply (bool_decide_unpack _). vm_compute. exact I.
  - apply (bool_decide_unpack _). vm_compute. exact I.
  - reflexivity.
Defined.

(** ** The loop writes no file *)

Lemma preserves_ret {A X} (f : world -> X) (a : A) : preserves f (ret a).
Proof. now intros w. Qed.

Lemma preserves_lift {A X} (f : world -> X) (r : result A) :
  preserves f (lift r).
Proof. now intros w. Qed.

Lemma preserves_bind {A B X} (f : world -> X) (m : M A) (k : A -> M B) :
  preserves f m -> (forall a, preserves f (k a)) -> preserves f (bind m k).
Proof.
  intros Hm Hk w. unfold bind. specialize (Hm w).
  destruct (m w) as [[a| |] w1]; cbn [snd] in *; [|exact Hm..].
  now rewrite Hk.
Qed.

Lemma disk_print (e : event) : preserves disk (print e).
Proof. now intros w. Qed.

Lemma disk_input (prompt : event) : preserves disk (input prompt).
Proof.
  intros w. unfold input, bind, print. cbn [stdin set_stdout].
  now destruct (stdin w).
Qed.

Lemma disk_update_item_in_frame (con : constants) (item : WTItem) :
  preserves disk (update_item_in_frame con item).
Proof. now intros w. Qed.

Lemma disk_update_item_in_vocabulary (con : constants) (item : WTItem) :
  preserves disk (update_item_in_vocabulary con item).
Proof.
  intros w.
  unfold update_item_in_vocabulary, vocabulary_set, bind, get_self, put_self,
    lift, list_get.
  destruct (index item) as [i|]; [|reflexivity]. cbn.
  destruct (vocabulary (self w) !! i); [|reflexivity]. cbn.
  now destruct (alter _ i (vocabulary (self w)) !! i).
Qed.

Lemma disk_get_item (con : constants) (today : date) (i : nat) :
  preserves disk (get_item con today i).
Proof.
  intros w. rewrite get_item_eq.
  destruct (vocabulary (self w) !! i) as [d|]; [|reflexivity].
  destruct (bool_decide (d ≠ ∅)); [|reflexivity]. cbn zeta.
  destruct (due _ _ _) as [[|]| |]; reflexivity.
Qed.

Lemma disk_bonus_correction (con : constants) (item : WTItem) (l : locals) :
  preserves disk (bonus_correction con item l).
Proof.
  unfold bonus_correction.
  apply preserves_bind;
    [destruct (old_item l); [apply preserves_ret|apply preserves_lift]|].
  intros old. apply preserves_bind; [apply preserves_lift|]. intros credited.
  apply preserves_bind; [apply disk_print|]. intros _.
  apply preserves_bind; [apply disk_update_item_in_frame|]. intros _.
  apply preserves_bind; [now intros w|]. intros t.
  apply preserves_bind; [apply preserves_lift|]. intros reached.
  apply preserves_bind.
  { destruct reached; [|apply preserves_ret].
    apply preserves_bind; [apply disk_print|]. intros _. apply preserves_ret. }
  intros kept. apply preserves_bind; [apply disk_print|]. intros _.
  apply preserves_bind; [apply disk_input|]. intros raw.
  destruct (bool_decide _); apply preserves_ret.
Qed.

Lemma disk_grade (con : constants) (today : date) (i : nat) (item : WTItem)
    (right_answers : list str) (answer : str) (l : locals) :
  preserves disk (grade con today i item right_answers answer l).
Proof.
  unfold grade. destruct (bool_decide (answer ∈ right_answers)).
  - apply preserves_bind; [apply disk_print|]. intros _.
    apply preserves_bind; [apply preserves_lift|]. intros raised.
    apply preserves_bind; [apply disk_update_item_in_frame|]. intros _.
    apply preserves_bind; [now intros w|]. intros t.
    apply preserves_bind; [apply preserves_lift|]. intros [|].
    + apply preserves_bind; [apply disk_print|]. intros _.
      apply preserves_ret.
    + apply preserves_bind; [apply disk_print|]. intros _.
      apply preserves_bind; [apply disk_get_item|]. intros old.
      apply preserves_ret.
  - apply preserves_bind; [apply disk_print|]. intros _.
    apply preserves_bind; [apply preserves_lift|]. intros lowered.
    apply preserves_bind;
      [destruct (bool_decide _); [apply preserves_lift|apply preserves_ret]|].
    intros lowered'.
    apply preserves_bind; [apply disk_update_item_in_frame|]. intros _.
    apply preserves_bind; [apply disk_print|]. intros _.
    apply preserves_bind; [apply disk_get_item|]. intros old.
    apply preserves_ret.
Qed.

Lemma disk_turn (con : constants) (today : date) (r : nat) (l : locals) :
  preserves disk (turn con today r l).
Proof.
  unfold turn.
  apply preserves_bind; [now intros w|]. intros t.
  apply preserves_bind; [apply preserves_lift|]. intros drawn.
  apply preserves_bind; [apply disk_get_item|]. intros item.
  destruct (truthy (word item)); [|apply preserves_ret].
  apply preserves_bind; [apply preserves_lift|]. intros pieces.
  apply preserves_bind; [apply disk_print|]. intros _.
  apply preserves_bind; [apply disk_input|]. intros raw.
  destruct (bool_decide _); [apply preserves_ret|].
  destruct (_ && _); [|apply disk_grade].
  apply preserves_bind; [apply disk_bonus_correction|].
  intros [l1 [answer|]]; [apply disk_grade|apply preserves_ret].
Qed.

Lemma disk_guarded_turn (con : constants) (today : date) (r : nat)
    (l : locals) :
  preserves disk (guarded_turn con today r l).
Proof.
  intros w. unfold guarded_turn. pose proof (disk_turn con today r l w) as H.
  destruct (turn con today r l w) as [[s|e|] w1]; cbn [snd] in *;
    [exact H| |exact H].
  destruct (caught e); exact H.
Qed.

(** X11.  The loop writes no file: however it ends, with [break], an
    exception or never, the files are the ones there were before it;
    the same holds of [get_item] and of [print_result].  What a session
    has graded reaches the file only in [save_vocabulary], after the
    loop and the summary. *)
Theorem drill_never_saves (con : constants) (today : date)
    (draws : list nat) (l : locals) (w : world) :
  disk (drill con today draws l w).2 = disk w
  /\ (forall i, disk (get_item con today i w).2 = disk w)
  /\ disk (print_result con w).2 = disk w.
Proof.
  split; [|split].
  - revert l w. induction draws as [|r later IH]; intros l w; [reflexivity|].
    cbn [drill]. unfold bind.
    pose proof (disk_guarded_turn con today r l w) as H.
    destruct (guarded_turn con today r l w) as [[[l'|]| |] w1];
      cbn [snd] in *; try exact H.
    now rewrite IH.
  - intros i. apply disk_get_item.
  - unfold print_result, bind, get_self, lift.
    destruct (frame_column _ _); try reflexivity. cbn.
    destruct (result_list _); reflexivity.
Qed.

(** ** Right answers and learned words *)

(** X12.  A right answer for an item [get_item] returned at position
    [i]: the item's count plus 1 is written to the frame, not to the
    record dicts, and [is_last_wrong] is cleared.  When the new count
    reaches the threshold the notice is printed and the turn ends with
    [old_item] as it was; below it the count is printed and [old_item]
    becomes the item read again from the record dicts, which still
    holds the count from before the answer. *)
Theorem right_answer_credit (con : constants) (today : date) (i : nat)
    (item : WTItem) (right_answers : list str) (answer : str) (l : locals)
    (w0 w1 w : world) (ri : dict) (v : Z) :
  LEARNING_DATE con ≠ SUCCESS_NUMBER con ->
  get_item con today i w0 = (Ok item, w1) ->
  truthy (word item) = true ->
  success_number item = VInt v ->
  vocabulary (self w) = vocabulary (self w1) ->
  max_success_number (self w) = max_success_number (self w0) ->
  rows (vocabulary_frame (self w)) !! i = Some ri ->
  answer ∈ right_answers ->
  let reached := max_success_number (self w) <=? v + 1 in
  let w' :=
    persisted_world con (set_success_number (VInt (v + 1)) item)
      [PRight (transcription item);
       if reached then PSkipped (word item) else PSuccesses (VInt (v + 1))]
      w in
  exists kept,
    grade con today i item right_answers answer l w
    = (Ok (Next {| old_item := kept; is_last_wrong := false |}), w')
    /\ (if reached then kept = old_item l
        else exists old, kept = Some old /\ index old = Some i
                         /\ success_number old = VInt v)
    /\ rows (vocabulary_frame (self w')) !! i
       = Some (<[SUCCESS_NUMBER con := VInt (v + 1)]>
                 (<[LEARNING_DATE con := learning_date item]> ri))
    /\ vocabulary (self w') = vocabulary (self w).
Proof.
  intros Hne Hget Hword Hv Hvoc Hmax Hri Hin reached w'.
  destruct (get_item_real _ _ _ _ _ _ Hget Hword) as [Hi _].
  assert (Hrow : rows (vocabulary_frame (self w')) !! i
                 = Some (<[SUCCESS_NUMBER con := VInt (v + 1)]>
                           (<[LEARNING_DATE con := learning_date item]> ri))).
  { unfold w'.
    now rewrite (persisted_world_row con
                   (set_success_number (VInt (v + 1)) item) _ w i ri Hi Hri). }
  rewrite (grade_right con today i item right_answers answer l w v Hin Hv).
  fold reached. subst w'. destruct reached.
  - exists (old_item l). repeat split. exact Hrow.
  - destruct (get_item_again con today i w0 w1
                (persisted_world con (set_success_number (VInt (v + 1)) item)
                   [PRight (transcription item); PSuccesses (VInt (v + 1))] w)
                item Hne Hget Hi Hvoc Hmax)
      as (old & Hagain & Hidx & Hsame).
    exists (Some old). unfold bind. rewrite Hagain.
    split; [reflexivity|]. split; [|split; [exact Hrow|reflexivity]].
    exists old. rewrite Hsame, Hv. now repeat split.
Qed.

Lemma right_answer_credit_witness :
  let w := session 5 [dog (VInt 2) VNaN] [] in
  let item := read_item con_sample (Some 0%nat) (dog (VInt 2) VNaN) in
  let l := {| old_item := Some item; is_last_wrong := true |} in
  exists kept w',
    grade con_sample a_day 0 item
      (map process_answer (str_split 44 (lit "pyos,sobaka")))
      (process_answer (lit " Sobaka")) l w
    = (Ok (Next {| old_item := kept; is_last_wrong := false |}), w')
    /\ frame_count w' 0 = Some (VInt 3)
    /\ record_count w' 0 = Some (VInt 2).
Proof.
  intros w item l.
  destruct (right_answer_credit con_sample a_day 0 item
              (map process_answer (str_split 44 (lit "pyos,sobaka")))
              (process_answer (lit " Sobaka")) l w w w
              (dog (VInt 2) VNaN) 2)
    as (kept & Hgrade & _ & Hrow & Hvoc);
    [discriminate|reflexivity|reflexivity|reflexivity|reflexivity
    |reflexivity|reflexivity
    |apply (bool_decide_unpack _); vm_compute; exact I|].
  exists kept. eexists. split; [exact Hgrade|]. split.
  - unfold frame_count. now rewrite Hrow.
  - unfold record_count. now rewrite Hvoc.
Defined.

Lemma get_item_resting (con : constants) (today : date) (i : nat)
    (w : world) (d : dict) :
  vocabulary (self w) !! i = Some d ->
  resting con today (max_success_number (self w)) d ->
  get_item con today i w = (Ok WTItem_empty, w).
Proof.
  intros Hd [Hdue Hlt]. rewrite get_item_eq, Hd.
  destruct (bool_decide (d ≠ ∅)); [|reflexivity]. cbn zeta.
  cbn [learning_date success_number read_item]. now rewrite Hdue, Hlt.
Qed.

(** X13.  When every record of a vocabulary that is not empty has its
    count at or above the threshold (or blank) and is not due to come
    back, no turn asks anything: the loop goes from draw to draw
    without reading, printing or changing anything, and does not end,
    whatever the draws. *)
Theorem drill_spins_when_all_learned (con : constants) (today : date)
    (draws : list nat) (l : locals) (w : world) :
  vocabulary_size (self w) ≠ 0%nat ->
  Forall (resting con today (max_success_number (self w)))
    (vocabulary (self w)) ->
  drill con today draws l w = (Starved, w).
Proof.
  intros Hsize Hall. induction draws as [|r later IH]; [reflexivity|].
  assert (Hturn : guarded_turn con today r l w = (Ok (Next l), w)).
  { unfold guarded_turn, turn. unfold bind at 1, get_self at 1.
    unfold bind at 1, lift at 1.
    rewrite (randint_position _ r Hsize), Nat2Z.id.
    destruct (vocabulary (self w) !! (r mod vocabulary_size (self w))%nat)
      as [d|] eqn:Hd.
    - unfold bind at 1.
      rewrite (get_item_resting con today _ w d Hd);
        [reflexivity|].
      rewrite Forall_lookup in Hall. exact (Hall _ _ Hd).
    - apply lookup_ge_None_1 in Hd.
      pose proof (Nat.mod_upper_bound r _ Hsize) as Hlt.
      unfold vocabulary_size in *. lia. }
  now rewrite (drill_next con today r later l l w w Hturn).
Qed.

Lemma drill_spins_when_all_learned_witness :
  let w := session 3 [cat (VInt 3) VNaN; dog (VInt 7) (VStr (lit "2024-05-01"))]
             [lit "kot"] in
  let l := {| old_item := None; is_last_wrong := false |} in
  drill con_sample a_day [0; 1; 1; 0]%nat l w = (Starved, w).
Proof.
  intros w l.
  apply (drill_spins_when_all_learned con_sample a_day [0; 1; 1; 0]%nat l w).
  - discriminate.
  - repeat constructor.
Defined.

(** ** More on normalisation *)

(** X14.  Answers that differ only in surrounding white space and in
    the case of their letters, that is, answers with the same
    [lower()], normalise to the same string, so they are graded
    alike. *)
Theorem process_answer_ignores_case_and_space (pre a post b : str) :
  forallb isspace pre = true ->
  forallb isspace post = true ->
  str_lower a = str_lower b ->
  process_answer (pre ++ a ++ post) = process_answer b.
Proof.
  intros Hpre Hpost Hab.
  assert (Hs : str_strip (pre ++ a ++ post) = str_strip a).
  { unfold str_strip at 1. rewrite str_lstrip_spaces_app by exact Hpre.
    fold (str_strip (a ++ post)). now apply str_strip_app_spaces. }
  rewrite !process_answer_map, Hs. f_equal.
  now rewrite <- !str_lower_strip, Hab.
Qed.

Lemma process_answer_ignores_case_and_space_witness :
  process_answer (lit "  " ++ (lit "KiTTen" ++ [1168; 1030]%N) ++ [9; 160]%N)
  = process_answer (lit "kitten" ++ [1169; 1110]%N).
Proof.
  apply process_answer_ignores_case_and_space; vm_compute; reflexivity.
Defined.

(** ** [main] *)

(** X15.  [main] calls [run] exactly when the command is ["run"], the
    named file exists and the third argument is a numeral ([isdigit])
    that [int] converts to a positive value; the session is then
    started on that file with that value as threshold.  The digits may
    be of any script.  Arguments after the third are ignored. *)
Theorem main_starts_checked (isdigit : str -> bool) (join_cwd : str -> str)
    (isfile : str -> bool) (argv : list str) (path : str) (max : Z) :
  main isdigit join_cwd isfile argv = Ok (Start path max)
  <-> argv !! 1%nat = Some (lit "run")
      /\ (exists name, argv !! 2%nat = Some name
                       /\ path = join_cwd name /\ isfile path = true)
      /\ (exists given, argv !! 3%nat = Some given
                        /\ isdigit given = true
                        /\ py_int given = Ok max /\ 0 < max).
Proof.
  unfold main. split.
  - destruct (argv !! 1%nat) as [command|]; [|discriminate].
    destruct (decide (command ∈ [lit "help"; lit "run"])) as [Hin|Hout].
    2: { now rewrite bool_decide_eq_false_2. }
    rewrite bool_decide_eq_true_2 by done. cbn [negb].
    destruct (decide (command = lit "help")) as [->|Hrun].
    { now rewrite bool_decide_eq_true_2. }
    rewrite bool_decide_eq_false_2 by done.
    apply elem_of_cons in Hin as [Hin|Hin]; [contradiction|].
    apply list_elem_of_singleton in Hin as ->.
    destruct (argv !! 2%nat) as [name|]; [|discriminate]. cbn zeta.
    destruct (isfile (join_cwd name)) eqn:Hfile; [|discriminate]. cbn [negb].
    destruct (argv !! 3%nat) as [given|]; [|discriminate].
    destruct (isdigit given) eqn:Hdigit; [|discriminate].
    destruct (py_int given) as [z| |] eqn:Hint; cbn [rbind];
      [|discriminate..].
    destruct (Z.ltb_spec 0 z) as [Hpos|]; cbn [negb]; [|discriminate].
    intros [= <- <-]. split; [reflexivity|]. split.
    + exists name. auto.
    + exists given. auto.
  - intros (-> & (name & -> & -> & Hfile) & (given & -> & Hdigit & Hint & Hpos)).
    rewrite bool_decide_eq_true_2
      by (apply elem_of_cons; right; now apply list_elem_of_singleton).
    cbn [negb].
    rewrite bool_decide_eq_false_2 by discriminate. cbn zeta.
    rewrite Hfile, Hdigit, Hint. cbn [negb rbind].
    apply Z.ltb_lt in Hpos. now rewrite Hpos.
Qed.

Lemma main_starts_checked_witness :
  main decimal_isdigit (fun name => lit "/home/" ++ name)
    (fun path => bool_decide (path = lit "/home/words.csv"))
    [lit "main.py"; lit "run"; lit "words.csv"; [1633; 65298]%N; lit "more"]
  = Ok (Start (lit "/home/words.csv") 12).
Proof.
  apply main_starts_checked. split; [reflexivity|]. split.
  - exists (lit "words.csv"). repeat split.
  - exists [1633; 65298]%N. repeat split; vm_compute; reflexivity.
Defined.

(** ** Leaving at the first prompt *)

Lemma get_item_keeps_size (con : constants) (today : date) (i : nat)
    (w : world) :
  vocabulary_size (self (get_item con today i w).2) = vocabulary_size (self w).
Proof.
  rewrite get_item_eq.
  destruct (vocabulary (self w) !! i) as [d|]; [|reflexivity].
  destruct (bool_decide (d ≠ ∅)); [|reflexivity]. cbn zeta.
  destruct (due _ _ _) as [[|]| |]; try reflexivity.
  unfold vocabulary_size. cbn. apply length_alter.
Qed.

(** X16.  A session that is left at its first prompt: when the first
    record can be read, the first word drawn is asked and the answer
    normalises to ["-1"], the count column holds only numbers and the
    file is free, [run] returns normally.  Nothing was graded: the tutor
    is as the two calls of [get_item] left it; the word and the prompt,
    then the summary were printed, and the frame was written, twice,
    after the files there were. *)
Theorem run_left_at_first_prompt (con : constants) (today : date)
    (r : nat) (later : list nat) (locks : list bool) (w w1 w2 : world)
    (old item : WTItem) (tr raw : str) (rest : list str) :
  get_item con today 0 w = (Ok old, w1) ->
  get_item con today (r mod vocabulary_size (self w1))
    (set_stdout (stdout w1 ++ [PStart]) w1) = (Ok item, w2) ->
  truthy (word item) = true ->
  translation item = VStr tr ->
  stdin w = raw :: rest ->
  process_answer raw = quit_token ->
  SUCCESS_NUMBER con ∈ columns (vocabulary_frame (self w2)) ->
  forallb is_number
    (map (fun row => cell row (SUCCESS_NUMBER con))
       (rows (vocabulary_frame (self w2)))) = true ->
  let points :=
    length (filter
              (fun v => learned (max_success_number (self w2)) v = true)
              (map (fun row => cell row (SUCCESS_NUMBER con))
                 (rows (vocabulary_frame (self w2))))) in
  run con today (r :: later) (false :: false :: locks) w
  = (Ok tt,
     {| self := self w2;
        stdin := rest;
        stdout := stdout w2
                  ++ [PWord (word item); PInputTranslation;
                      PLearned points (vocabulary_size (self w2))];
        disk := disk w ++ [vocabulary_frame (self w2);
                           vocabulary_frame (self w2)] |}).
Proof.
  intros Hold Hitem Hword Htr Hin Hquit Hcol Hnum points.
  pose proof (get_item_keeps_stdin con today 0 w) as Hin1.
  rewrite Hold, Hin in Hin1. cbn [snd] in Hin1.
  pose proof (get_item_keeps_size con today 0 w) as Hsize.
  rewrite Hold in Hsize. cbn [snd] in Hsize.
  assert (Hne : vocabulary_size (self w1) ≠ 0%nat).
  { rewrite Hsize. rewrite get_item_eq in Hold.
    destruct (vocabulary (self w) !! 0%nat) eqn:Hd; [|discriminate].
    apply lookup_lt_Some in Hd. unfold vocabulary_size. lia. }
  pose proof (disk_get_item con today 0 w) as Hd1.
  rewrite Hold in Hd1. cbn [snd] in Hd1.
  pose proof (disk_get_item con today (r mod vocabulary_size (self w1))
                (set_stdout (stdout w1 ++ [PStart]) w1)) as Hd2.
  rewrite Hitem in Hd2. cbn [snd disk set_stdout] in Hd2.
  set (l := {| old_item := Some old; is_last_wrong := false |}).
  set (wq := set_stdin rest
               (set_stdout (stdout w2 ++ [PWord (word item); PInputTranslation])
                  w2)).
  assert (Hturn : turn con today r l (set_stdout (stdout w1 ++ [PStart]) w1)
                  = (Ok Break, wq)).
  { rewrite (turn_asks con today r l (set_stdout (stdout w1 ++ [PStart]) w1)
               w2 item tr raw rest Hne Hitem Hword Htr Hin1).
    rewrite Hquit. now rewrite bool_decide_eq_true_2. }
  rewrite (run_after_loop con today (r :: later) _ w w1 wq old Hold
             (drill_quits con today r later l _ wq Hturn)).
  unfold bind at 1.
  rewrite (print_result_numbers con wq Hcol Hnum).
  cbn [save_vocabulary to_csv]. unfold wq, set_disk, set_stdout, set_stdin.
  cbn [self stdin stdout disk]. rewrite <- !app_assoc, Hd2, Hd1.
  reflexivity.
Qed.

Lemma run_left_at_first_prompt_witness :
  let w := session 3 [dog (VInt 1) VNaN; cat (VInt 3) VNaN]
             [lit " -1 "; lit "kot"] in
  exists final,
    run con_sample a_day [0%nat] [false; false] w = (Ok tt, final)
    /\ stdin final = [lit "kot"]
    /\ frame_count final 0 = Some (VInt 1)
    /\ length (disk final) = 2%nat.
Proof.
  intros w. eexists. split.
  - apply (run_left_at_first_prompt con_sample a_day 0 [] [] w w
             (set_stdout (stdout w ++ [PStart]) w)
             (read_item con_sample (Some 0%nat) (dog (VInt 1) VNaN))
             (read_item con_sample (Some 0%nat) (dog (VInt 1) VNaN))
             (lit "pyos,sobaka") (lit " -1 ") [lit "kot"]).
    + reflexivity.
    + reflexivity.
    + reflexivity.
    + reflexivity.
    + reflexivity.
    + reflexivity.
    + apply (bool_decide_unpack _). vm_compute. exact I.
    + reflexivity.
  - split; [reflexivity|]. split; reflexivity.
Defined.

(** ** Exceptions the loop does not catch *)

Lemma drill_raises (con : constants) (today : date) (r : nat)
    (later : list nat) (l : locals) (w w1 : world) (e : exn) :
  turn con today r l w = (Raise e, w1) ->
  caught e = false ->
  drill con today (r :: later) l w = (Raise e, w1).
Proof.
  intros H He. cbn [drill]. unfold bind, guarded_turn. now rewrite H, He.
Qed.

Lemma run_raises_in_loop (con : constants) (today : date) (draws : list nat)
    (locks : list bool) (w w1 w2 : world) (old : WTItem) (e : exn) :
  get_item con today 0 w = (Ok old, w1) ->
  drill con today draws {| old_item := Some old; is_last_wrong := false |}
    (set_stdout (stdout w1 ++ [PStart]) w1) = (Raise e, w2) ->
  run con today draws locks w = (Raise e, w2).
Proof.
  intros Hget Hdrill. unfold run.
  unfold bind at 1. rewrite Hget.
  unfold bind at 1, print at 1.
  unfold bind at 1. now rewrite Hdrill.
Qed.

Lemma first_record_size (con : constants) (today : date) (w w1 : world)
    (old : WTItem) :
  get_item con today 0 w = (Ok old, w1) ->
  vocabulary_size (self w1) ≠ 0%nat.
Proof.
  intros Hold. pose proof (get_item_keeps_size con today 0 w) as Hsize.
  rewrite Hold in Hsize. cbn [snd] in Hsize. rewrite Hsize.
  rewrite get_item_eq in Hold.
  destruct (vocabulary (self w) !! 0%nat) eqn:Hd; [|discriminate].
  apply lookup_lt_Some in Hd. unfold vocabulary_size. lia.
Qed.

(** X17.  A word whose translation is not a string, as for a blank
    cell, which pandas reads as [nan]: when it is drawn, the split of
    line 287 raises [AttributeError], which the loop does not catch.
    [run] ends with it before the word is shown; there is no summary
    and nothing is saved. *)
Theorem run_blank_translation (con : constants) (today : date) (r : nat)
    (later : list nat) (locks : list bool) (w w1 w2 : world)
    (old item : WTItem) :
  get_item con today 0 w = (Ok old, w1) ->
  get_item con today (r mod vocabulary_size (self w1))
    (set_stdout (stdout w1 ++ [PStart]) w1) = (Ok item, w2) ->
  truthy (word item) = true ->
  (forall s, translation item ≠ VStr s) ->
  run con today (r :: later) locks w = (Raise AttributeError, w2)
  /\ disk w2 = disk w.
Proof.
  intros Hold Hitem Hword Htr.
  pose proof (first_record_size con today w w1 old Hold) as Hne.
  split.
  - apply (run_raises_in_loop con today _ locks w w1 w2 old _ Hold).
    apply drill_raises; [|reflexivity].
    unfold turn. unfold bind at 1, get_self at 1.
    unfold bind at 1, lift at 1. cbn [self set_stdout].
    rewrite (randint_position _ r Hne), Nat2Z.id.
    unfold bind at 1. rewrite Hitem, Hword.
    unfold bind at 1, lift at 1.
    destruct (translation item) as [| |z|s]; try reflexivity.
    now destruct (Htr s).
  - pose proof (disk_get_item con today 0 w) as Hd1.
    rewrite Hold in Hd1.
    pose proof (disk_get_item con today (r mod vocabulary_size (self w1))
                  (set_stdout (stdout w1 ++ [PStart]) w1)) as Hd2.
    rewrite Hitem in Hd2. cbn [snd disk set_stdout] in *. congruence.
Qed.

Lemma run_blank_translation_witness :
  let blank := row_of con_sample (VStr (lit "owl")) (VStr (lit "aul")) VNaN
                 (VInt 0) VNaN in
  let w := session 3 [dog (VInt 1) VNaN; blank] [lit "sobaka"] in
  run con_sample a_day [1%nat] [false; false] w
  = (Raise AttributeError, set_stdout (stdout w ++ [PStart]) w).
Proof.
  intros blank w.
  apply (run_blank_translation con_sample a_day 1 [] [false; false] w w
           (set_stdout (stdout w ++ [PStart]) w)
           (read_item con_sample (Some 0%nat) (dog (VInt 1) VNaN))
           (read_item con_sample (Some 1%nat) blank)).
  - reflexivity.
  - reflexivity.
  - reflexivity.
  - discriminate.
Defined.

(** X18.  The end of the input at the prompt for a word: [get_answer]
    raises [EOFError], which the loop does not catch.  [run] ends with
    it after the word and the prompt were printed; there is no summary
    and nothing is saved. *)
Theorem run_end_of_input (con : constants) (today : date) (r : nat)
    (later : list nat) (locks : list bool) (w w1 w2 : world)
    (old item : WTItem) (tr : str) :
  get_item con today 0 w = (Ok old, w1) ->
  get_item con today (r mod vocabulary_size (self w1))
    (set_stdout (stdout w1 ++ [PStart]) w1) = (Ok item, w2) ->
  truthy (word item) = true ->
  translation item = VStr tr ->
  stdin w = [] ->
  run con today (r :: later) locks w
  = (Raise EOFError,
     set_stdout (stdout w2 ++ [PWord (word item); PInputTranslation]) w2)
  /\ disk w2 = disk w.
Proof.
  intros Hold Hitem Hword Htr Hin.
  pose proof (first_record_size con today w w1 old Hold) as Hne.
  pose proof (get_item_keeps_stdin con today 0 w) as Hin1.
  rewrite Hold, Hin in Hin1. cbn [snd] in Hin1.
  pose proof (get_item_keeps_stdin con today (r mod vocabulary_size (self w1))
                (set_stdout (stdout w1 ++ [PStart]) w1)) as Hin2.
  rewrite Hitem in Hin2. cbn [snd stdin set_stdout] in Hin2.
  rewrite Hin1 in Hin2.
  split.
  - apply (run_raises_in_loop con today _ locks w w1 _ old _ Hold).
    apply drill_raises; [|reflexivity].
    unfold turn. unfold bind at 1, get_self at 1.
    unfold bind at 1, lift at 1. cbn [self set_stdout].
    rewrite (randint_position _ r Hne), Nat2Z.id.
    unfold bind at 1. rewrite Hitem, Hword.
    unfold bind at 1, lift at 1. rewrite Htr. cbn [py_split].
    unfold bind at 1, print at 1.
    unfold bind at 1, get_answer, input, bind at 1, print at 1.
    cbn [stdin set_stdout]. rewrite Hin2.
    f_equal. unfold set_stdout. cbn [self stdin stdout disk].
    now rewrite <- app_assoc.
  - pose proof (disk_get_item con today 0 w) as Hd1.
    rewrite Hold in Hd1.
    pose proof (disk_get_item con today (r mod vocabulary_size (self w1))
                  (set_stdout (stdout w1 ++ [PStart]) w1)) as Hd2.
    rewrite Hitem in Hd2. cbn [snd disk set_stdout] in *. congruence.
Qed.

Lemma run_end_of_input_witness :
  let w := session 3 [dog (VInt 1) VNaN] [] in
  (run con_sample a_day [0%nat] [false; false] w).1 = Raise EOFError
  /\ disk (run con_sample a_day [0%nat] [false; false] w).2 = [].
Proof.
  intros w.
  destruct (run_end_of_input con_sample a_day 0 [] [false; false] w w
              (set_stdout (stdout w ++ [PStart]) w)
              (read_item con_sample (Some 0%nat) (dog (VInt 1) VNaN))
              (read_item con_sample (Some 0%nat) (dog (VInt 1) VNaN))
              (lit "pyos,sobaka"))
    as [Hrun Hdisk]; [reflexivity..|].
  rewrite Hrun. split; reflexivity.
Defined.

(** ** Counts within a session *)

Lemma py_add_near (con : constants) (d : dict) (k : Z) (s : value) :
  py_add (dict_get d (SUCCESS_NUMBER con)) k = Ok s ->
  -2 <= k <= 2 ->
  near_count con d s.
Proof.
  intros Hadd Hk. unfold near_count.
  destruct (dict_get d (SUCCESS_NUMBER con)) as [| |z|t]; try discriminate;
    injection Hadd as <-; [now left|right].
  now exists z, k.
Qed.

Lemma py_add_twice (v a b : value) (k1 k2 : Z) :
  py_add v k1 = Ok a -> py_add a k2 = Ok b -> py_add v (k1 + k2) = Ok b.
Proof.
  destruct v; try discriminate; intros [= <-] [= <-]; cbn; [reflexivity|].
  do 2 f_equal. lia.
Qed.

Lemma self_print_result (con : constants) : preserves self (print_result con).
Proof.
  unfold print_result.
  apply preserves_bind; [now intros w|]. intros t.
  apply preserves_bind; [apply preserves_lift|]. intros column.
  apply preserves_bind; [apply preserves_lift|]. intros flags.
  now intros w.
Qed.

Lemma self_save_vocabulary (locks : list bool) :
  preserves self (save_vocabulary locks).
Proof.
  induction locks as [|locked later IH]; intros w; [reflexivity|].
  destruct locked.
  - destruct (stdin w) as [|line rest] eqn:Hin.
    + now rewrite (save_vocabulary_locked_eof later w Hin).
    + rewrite (save_vocabulary_locked_line later w line rest Hin).
      now rewrite IH.
  - cbn [save_vocabulary]. cbn [to_csv].
    destruct later as [|again later']; [reflexivity|].
    now destruct again.
Qed.

Section Steady.
Variable con : constants.
Variable today : date.
Variable v0 : list dict.
Variable m0 : Z.
Hypothesis calm : none_due con today v0.

Let Inv : world -> Prop := steady con v0 m0.

Lemma steady_print (e : event) : maintains Inv (print e) (fun _ => True).
Proof. intros w Hw. now split. Qed.

Lemma steady_get_self : maintains Inv get_self (fun t => True).
Proof. intros w Hw. now split. Qed.

Lemma steady_input (prompt : event) :
  maintains Inv (input prompt) (fun _ => True).
Proof.
  intros w Hw. unfold input, bind, print. cbn [stdin set_stdout].
  destruct (stdin w); now split.
Qed.

Lemma steady_update_item_in_frame (item : WTItem) (i : nat) (d : dict) :
  index item = Some i ->
  v0 !! i = Some d ->
  near_count con d (success_number item) ->
  maintains Inv (update_item_in_frame con item) (fun _ => True).
Proof.
  intros Hitem Hd Hnear w (Hvoc & Hmax & Hrows). split; [|exact I].
  rewrite update_item_in_frame_run. cbn [snd].
  split; [exact Hvoc|]. split; [exact Hmax|].
  assert (Hi : (i < length (rows (vocabulary_frame (self w))))%nat).
  { rewrite <- (Forall2_length _ _ _ Hrows). exact (lookup_lt_Some _ _ _ Hd). }
  unfold persisted_world. cbn [self vocabulary_frame]. rewrite Hitem.
  rewrite loc_set_rows by (rewrite loc_set_rows, length_alter; done).
  rewrite loc_set_rows by done. rewrite list_alter_alter_eq.
  apply Forall2_alter_r; [exact Hrows|].
  intros d' r Hd' _ _. rewrite Hd in Hd'. injection Hd' as <-.
  unfold near_row, cell. cbn. now rewrite lookup_insert_eq.
Qed.

Lemma steady_get_item (i : nat) :
  maintains Inv (get_item con today i) (read_from con v0).
Proof.
  intros w Hw. pose proof Hw as (Hvoc & _ & _).
  rewrite get_item_eq, Hvoc.
  destruct (v0 !! i) as [d|] eqn:Hd; [|now split].
  destruct (bool_decide (d ≠ ∅)); [|split; [exact Hw|now left]]. cbn zeta.
  destruct (due con today (learning_date (read_item con (Some i) d)))
    as [[|]| |] eqn:Hdue; [|
      |now split..].
  - unfold none_due in calm. rewrite Forall_lookup in calm.
    now destruct (calm i d Hd).
  - split; [now destruct (py_lt _ _)|]. cbn [fst].
    destruct (py_lt _ _) as [[|]| |]; cbn [rbind]; try exact I.
    + right. now exists i, d.
    + now left.
Qed.

Lemma steady_bonus_correction (item : WTItem) (l : locals) :
  is_last_wrong l = true ->
  steady_locals con v0 l ->
  maintains Inv (bonus_correction con item l) (fun _ => True).
Proof.
  intros Hwrong Hl. unfold bonus_correction.
  destruct (old_item l) as [old|] eqn:Hold.
  2: { apply maintains_bind with (Q := fun _ => False);
         [now apply maintains_lift|]. intros _ []. }
  apply maintains_bind with (Q := fun a => a = old);
    [now apply maintains_ret|]. intros ? ->.
  destruct (Hl Hwrong old Hold) as [->|(i & d & Hd & ->)].
  { apply maintains_bind with (Q := fun _ => False);
      [now apply maintains_lift|]. intros _ []. }
  apply maintains_bind
    with (Q := fun s => near_count con d s).
  { apply maintains_lift. cbn [success_number read_item].
    destruct (py_add _ 2) eqn:Hadd; [|exact I..].
    apply (py_add_near con d 2 _ Hadd). lia. }
  intros credited Hnear.
  eapply maintains_bind; [apply steady_print|]. intros _ _.
  eapply maintains_bind;
    [apply (steady_update_item_in_frame _ i d); [reflexivity|exact Hd|exact Hnear]|].
  intros _ _.
  eapply maintains_bind; [apply steady_get_self|]. intros t _.
  eapply maintains_bind;
    [apply (maintains_lift Inv _ (fun _ => True)); now destruct (py_ge _ _)|].
  intros reached _.
  apply maintains_bind with (Q := fun _ => True).
  { destruct reached; [|now apply maintains_ret].
    eapply maintains_bind; [apply steady_print|]. intros _ _.
    now apply maintains_ret. }
  intros kept _.
  eapply maintains_bind; [apply steady_print|]. intros _ _.
  eapply maintains_bind; [apply steady_input|]. intros raw _.
  destruct (bool_decide _); now apply maintains_ret.
Qed.

Lemma steady_grade (i : nat) (item : WTItem) (right_answers : list str)
    (answer : str) (l : locals) :
  read_from con v0 item ->
  maintains Inv (grade con today i item right_answers answer l)
    (steady_signal con v0).
Proof.
  intros [->|(j & d & Hd & ->)]; unfold grade.
  { destruct (bool_decide (answer ∈ right_answers));
      (eapply maintains_bind; [apply steady_print|]; intros _ _;
       apply maintains_bind with (Q := fun _ => False);
       [now apply maintains_lift|intros _ []]). }
  destruct (bool_decide (answer ∈ right_answers)).
  - eapply maintains_bind; [apply steady_print|]. intros _ _.
    apply maintains_bind with (Q := fun s => near_count con d s).
    { apply maintains_lift. cbn [success_number read_item].
      destruct (py_add _ 1) eqn:Hadd; [|exact I..].
      apply (py_add_near con d 1 _ Hadd). lia. }
    intros raised Hnear.
    eapply maintains_bind;
      [apply (steady_update_item_in_frame _ j d);
       [reflexivity|exact Hd|exact Hnear]|].
    intros _ _.
    eapply maintains_bind; [apply steady_get_self|]. intros t _.
    eapply maintains_bind;
      [apply (maintains_lift Inv _ (fun _ => True));
       now destruct (py_ge _ _)|].
    intros [|] _.
    + eapply maintains_bind; [apply steady_print|]. intros _ _.
      apply maintains_ret. intros Hw. discriminate.
    + eapply maintains_bind; [apply steady_print|]. intros _ _.
      eapply maintains_bind; [apply steady_get_item|].
      intros old Hold. apply maintains_ret. intros Hw. discriminate.
  - eapply maintains_bind; [apply steady_print|]. intros _ _.
    apply maintains_bind
      with (Q := fun s => py_add (dict_get d (SUCCESS_NUMBER con)) (-1) = Ok s).
    { apply maintains_lift. cbn [success_number read_item].
      now destruct (py_add _ (-1)). }
    intros lowered Hlow.
    apply maintains_bind with (Q := fun s => near_count con d s).
    { destruct (bool_decide (answer = [])).
      - apply maintains_lift. destruct (py_add lowered (-1)) eqn:Hadd;
          [|exact I..].
        apply (py_add_near con d (-1 + -1));
          [exact (py_add_twice _ _ _ _ _ Hlow Hadd)|lia].
      - apply maintains_ret. apply (py_add_near con d (-1) _ Hlow). lia. }
    intros lowered' Hnear.
    eapply maintains_bind;
      [apply (steady_update_item_in_frame _ j d);
       [reflexivity|exact Hd|exact Hnear]|].
    intros _ _.
    eapply maintains_bind; [apply steady_print|]. intros _ _.
    eapply maintains_bind; [apply steady_get_item|].
    intros old Hold. apply maintains_ret.
    intros _ old' [= <-]. exact Hold.
Qed.

Lemma steady_turn (r : nat) (l : locals) :
  steady_locals con v0 l ->
  maintains Inv (turn con today r l) (steady_signal con v0).
Proof.
  intros Hl. unfold turn.
  eapply maintains_bind; [apply steady_get_self|]. intros t _.
  eapply maintains_bind;
    [apply (maintains_lift Inv _ (fun _ => True));
     now destruct (randint _ _ _)|].
  intros drawn _.
  eapply maintains_bind; [apply steady_get_item|]. intros item Hitem.
  destruct (truthy (word item)); [|now apply maintains_ret].
  eapply maintains_bind;
    [apply (maintains_lift Inv _ (fun _ => True));
     now destruct (py_split _ _)|].
  intros pieces _.
  eapply maintains_bind; [apply steady_print|]. intros _ _.
  eapply maintains_bind; [apply steady_input|]. intros raw _.
  destruct (bool_decide (process_answer raw = quit_token));
    [now apply maintains_ret|].
  destruct (is_last_wrong l) eqn:Hwrong;
    [|rewrite andb_false_r; now apply steady_grade].
  destruct (bool_decide (process_answer raw = bonus_token)); cbn [andb];
    [|now apply steady_grade].
  eapply maintains_bind; [now apply steady_bonus_correction|].
  intros [l1 [answer|]] _; [|now apply maintains_ret].
  now apply steady_grade.
Qed.

Lemma steady_drill (draws : list nat) (l : locals) :
  steady_locals con v0 l ->
  maintains Inv (drill con today draws l) (fun _ => True).
Proof.
  revert l. induction draws as [|r later IH]; intros l Hl;
    [now apply maintains_lift|].
  cbn [drill].
  apply maintains_bind with (Q := steady_signal con v0).
  - intros w Hw. destruct (steady_turn r l Hl w Hw) as [Hw1 Hs].
    unfold guarded_turn.
    destruct (turn con today r l w) as [[s|e|] w1]; cbn [fst snd] in *;
      [now split| |now split].
    destruct (caught e); now split.
  - intros [l'|] Hs; [now apply IH|now apply maintains_ret].
Qed.

Lemma steady_run (draws : list nat) (locks : list bool) (w : world) :
  Inv w -> Inv (run con today draws locks w).2.
Proof.
  intros Hw.
  assert (Hself : forall w1, Inv w1 ->
            forall w2, self w2 = self w1 -> Inv w2).
  { intros w1 H1 w2 H2. unfold Inv, steady. now rewrite H2. }
  unfold run, bind at 1.
  destruct (steady_get_item 0 w Hw) as [Hw1 Hold].
  destruct (get_item con today 0 w) as [[old| |] w1]; cbn [fst snd] in *;
    [|exact Hw1..].
  unfold bind at 1, print at 1. unfold bind at 1.
  destruct (steady_drill draws {| old_item := Some old; is_last_wrong := false |}
              (fun H => ltac:(discriminate))
              (set_stdout (stdout w1 ++ [PStart]) w1) Hw1) as [Hw2 _].
  destruct (drill con today draws _ _) as [[[]| |] w2]; cbn [snd] in *;
    [|exact Hw2..].
  unfold bind at 1.
  assert (Hw3 : Inv (print_result con w2).2)
    by (apply (Hself w2 Hw2), self_print_result).
  destruct (print_result con w2) as [[[]| |] w3]; cbn [snd] in *;
    [|exact Hw3..].
  apply (Hself w3 Hw3), self_save_vocabulary.
Qed.
End Steady.

(** X19.  A session that starts with the record dicts equal to the rows
    of a frame that has the count column, on a day when no word is due
    to come back: whatever is drawn and typed and however [run] ends,
    the record dicts are the ones loaded, and the count of every row of
    the frame is the loaded count or an integer at most 2 away from
    it.  The loop grades every word from the loaded count, so answers
    do not add up beyond one step. *)
Theorem session_counts_stay_near (con : constants) (today : date)
    (draws : list nat) (locks : list bool) (w : world) :
  in_lockstep (self w) ->
  SUCCESS_NUMBER con ∈ columns (vocabulary_frame (self w)) ->
  none_due con today (vocabulary (self w)) ->
  let w' := (run con today draws locks w).2 in
  vocabulary (self w') = vocabulary (self w)
  /\ Forall2 (near_row con) (vocabulary (self w))
       (rows (vocabulary_frame (self w'))).
Proof.
  intros Hstep Hsn Hcalm w'.
  assert (Hstart : steady con (vocabulary (self w))
                     (max_success_number (self w)) w).
  { split; [reflexivity|]. split; [reflexivity|].
    unfold in_lockstep in Hstep. rewrite <- Hstep. unfold to_dict_records.
    apply Forall2_fmap_l, Forall_Forall2_diag, Forall_forall.
    intros r _. left. unfold dict_get.
    change (list_to_map (map (fun c => (c, cell r c))
              (columns (vocabulary_frame (self w)))))
      with (record_of (columns (vocabulary_frame (self w))) r).
    rewrite record_of_lookup. now rewrite bool_decide_eq_true_2. }
  destruct (steady_run con today _ _ Hcalm draws locks w Hstart)
    as (Hvoc & _ & Hrows).
  split; [exact Hvoc|exact Hrows].
Qed.

Lemma session_counts_stay_near_witness :
  let w := session 5
             [dog (VInt 2) VNaN; cat (VInt 1) (VStr (lit "2024-05-01"))]
             [lit "kot"; lit "kot"; lit "+"; lit "sobaka"; lit "-1"] in
  let w' := (run con_sample a_day [1; 0; 1; 1]%nat [false; false] w).2 in
  (vocabulary (self w') = vocabulary (self w)
   /\ Forall2 (near_row con_sample) (vocabulary (self w))
        (rows (vocabulary_frame (self w'))))
  /\ frame_count w' 0 = Some (VInt 4)
  /\ frame_count w' 1 = Some (VInt 0)
  /\ record_count w' 1 = Some (VInt 1).
Proof.
  intros w w'. split; [|by_evaluation].
  apply (session_counts_stay_near con_sample a_day [1; 0; 1; 1]%nat
           [false; false] w).
  - apply (bool_decide_unpack _). vm_compute. exact I.
  - apply (bool_decide_unpack _). vm_compute. exact I.
  - repeat constructor; vm_compute; discriminate.
Defined.
